(** * Workflow: a shallow embedding of the pipeline's utility, configuration,
      storyboard, synthesis and orchestration code

    Sources: [utils.py] (RateLimiter, RetryHandler, PerformanceMonitor),
    [config.py] (ConfigManager), [video_generator.py] (StoryboardGenerator,
    DoubaoSeedanceAPI, VideoWorkflowManager) and [main.py]
    (WorkflowProcessor).

    Conventions of the embedding.
    - A Python [int] is a [Z]; a finite Python [float] (clock readings,
      delays) is the rational it denotes, a [Q]. The sums, products and
      comparisons of the retry handler and of the rate limiter are taken
      exactly; the float power, which raises [OverflowError], and the
      float subtraction of the performance monitor, which rounds, are
      modelled as such.
    - A Python [str] is a [string], its UTF-8 bytes; [len], indices and
      slices count characters (code points), not bytes.
    - A call that may raise returns an [outcome]: [Returned v] or
      [Raised e]; [try ... except Exception] is a [match] on the outcome.
    - Remote collaborators, the clock and the random source are inputs of
      the functions that use them. *)

From Stdlib Require Import ZArith QArith Qabs Qminmax Lqa Lia String Ascii List DecimalString.
From stdpp Require Import base gmap strings list.
Import ListNotations.

(** ** Python preliminaries *)

Module Py.

(** An exception object, an instance of [Exception]: its class name and
    [str(e)]. *)
Record exn := Exn { exn_kind : string; exn_str : string }.

Inductive outcome (A : Type) : Type :=
| Returned (a : A)
| Raised (e : exn).
Arguments Returned {A} a.
Arguments Raised {A} e.

#[global] Instance outcome_ret : MRet outcome := fun A a => Returned a.

#[global] Instance outcome_bind : MBind outcome := fun A B k m =>
  match m with
  | Returned a => k a
  | Raised e => Raised e
  end.

(** [raise None] and other non-exception operands. *)
Definition TypeError (msg : string) : exn := Exn "TypeError" msg.
Definition IndexError (msg : string) : exn := Exn "IndexError" msg.
Definition KeyError (msg : string) : exn := Exn "KeyError" msg.
Definition AttributeError (msg : string) : exn := Exn "AttributeError" msg.
Definition ValueError (msg : string) : exn := Exn "ValueError" msg.
Definition OverflowError (msg : string) : exn := Exn "OverflowError" msg.
Definition OSError (msg : string) : exn := Exn "OSError" msg.

(** [range(n)] for a Python int [n]: empty when [n <= 0]. *)
Definition range (n : Z) : list nat := seq 0 (Z.to_nat n).

(** [a < b] on floats, as a boolean. *)
Definition Qltb (a b : Q) : bool := negb (Qle_bool b a).

(** The largest float is [(2^53 - 1) * 2^971]; a result of magnitude
    [2^1024 - 2^970] or more rounds beyond it. *)
Definition float_limit : Q := inject_Z (2 ^ 1024 - 2 ^ 970).

Definition overflows (q : Q) : bool := Qle_bool float_limit (Qabs q).

(** [x ** n] for a float [x] and an int [n >= 0]: the power, or
    [OverflowError] when it is out of the floats' range. *)
Definition float_pow (x : Q) (n : Z) : outcome Q :=
  if overflows (x ^ n) then
    Raised (OverflowError "(34, 'Numerical result out of range')")
  else Returned (x ^ n)%Q.

(** [str(n)] for an int. *)
Definition str_of_Z (z : Z) : string := NilZero.string_of_int (Z.to_int z).

(** Logging levels used by the modules' [logger]. *)
Inductive level := INFO | WARNING | ERROR.

(** [sep.join(parts)] *)
Fixpoint join (sep : string) (parts : list string) : string :=
  match parts with
  | [] => ""
  | [x] => x
  | x :: rest => x +:+ sep +:+ join sep rest
  end.

(** A [dict] with [str] keys, in insertion order. *)
Definition dict (V : Type) : Type := list (string * V).

(** [d[k] = v]: an existing key keeps its place. *)
Fixpoint dict_set {V} (k : string) (v : V) (d : dict V) : dict V :=
  match d with
  | [] => [(k, v)]
  | (k', v') :: d' =>
    if String.eqb k' k then (k', v) :: d' else (k', v') :: dict_set k v d'
  end.

Fixpoint dict_get {V} (k : string) (d : dict V) : option V :=
  match d with
  | [] => None
  | (k', v') :: d' => if String.eqb k' k then Some v' else dict_get k d'
  end.

Definition keys {V} (d : dict V) : list string := map fst d.
Definition values {V} (d : dict V) : list V := map snd d.

(** A byte [10xxxxxx] continues the character begun by the bytes before
    it. *)
Definition is_continuation (c : ascii) : bool :=
  (128 <=? nat_of_ascii c)%nat && (nat_of_ascii c <? 192)%nat.

(** [len(s)]: the number of characters. *)
Fixpoint len (s : string) : nat :=
  match s with
  | EmptyString => O
  | String c s' => if is_continuation c then len s' else S (len s')
  end.

(** [s[:n]] and [s[n:]] for [0 <= n]: the first [n] characters of [s],
    and [s] without them. A character is its lead byte and the
    continuation bytes that follow it. *)
Fixpoint first_chars (n : nat) (s : string) : string :=
  match s with
  | EmptyString => EmptyString
  | String c s' =>
    if is_continuation c then String c (first_chars n s')
    else match n with
         | O => EmptyString
         | S n' => String c (first_chars n' s')
         end
  end.

Fixpoint skip_chars (n : nat) (s : string) : string :=
  match s with
  | EmptyString => EmptyString
  | String c s' =>
    if is_continuation c then skip_chars n s'
    else match n with
         | O => s
         | S n' => skip_chars n' s'
         end
  end.

End Py.

Import Py.

(** ** utils.py *)

Module Utils.

(** *** RetryHandler *)

Record RetryHandler := {
  max_retries : Z;
  base_delay : Q;
  backoff_factor : Q
}.

(** [RetryHandler()] with the constructor's defaults. *)
Definition RetryHandler_default : RetryHandler :=
  {| max_retries := 3; base_delay := 1; backoff_factor := 2 |}.

(** [random.uniform(a, b)] is [a + (b - a) * random()], the draw
    [u = random()] lying in [0, 1). *)
Definition uniform (a b u : Q) : Q := a + (b - a) * u.

(** What one run of [execute_with_retry] does to the outside, in order. *)
Inductive event :=
| Invoke (attempt : nat)
| Sleep (total_delay : Q)
| Log (lv : level).

Section Retry.
Context {A : Type}.
(** [func i] is what the [i]-th invocation (from 0) of the wrapped
    operation does; [random i] is the [i]-th draw of the random source. *)
Variable self : RetryHandler.
Variable func : nat -> outcome A.
Variable random : nat -> Q.

(** [base_delay * backoff_factor ** attempt]: the power may raise; the
    product is taken exactly. *)
Definition delay_of (attempt : nat) : outcome Q :=
  power ← float_pow (backoff_factor self) (Z.of_nat attempt);
  mret (base_delay self * power)%Q.

(** [random.uniform(0.1, 0.3) * delay], with the draw of this attempt. *)
Definition jitter_of (attempt : nat) (delay : Q) : Q :=
  uniform 0.1 0.3 (random attempt) * delay.

(** The [for attempt in range(max_retries + 1)] loop followed by
    [raise last_exception], with the value of [last_exception] on entry.
    An exception raised while the handler computes the delay leaves the
    function at once. The sum [delay + jitter] is taken exactly: the
    embedding covers the runs whose delays are finite floats (a delay
    that overflows to [inf] makes [asyncio.sleep] wait for ever). *)
Fixpoint retry_loop (attempts : list nat) (last_exception : option exn)
  : outcome A * list event :=
  match attempts with
  | [] =>
    (match last_exception with
     | Some e => Raised e
     | None => Raised (TypeError "exceptions must derive from BaseException")
     end, [])
  | attempt :: rest =>
    match func attempt with
    | Returned v => (Returned v, [Invoke attempt])
    | Raised e =>
      let last_exception := Some e in
      if (Z.of_nat attempt <? max_retries self)%Z then
        match delay_of attempt with
        | Raised overflow => (Raised overflow, [Invoke attempt])
        | Returned delay =>
          let jitter := jitter_of attempt delay in
          let total_delay := (delay + jitter)%Q in
          let '(r, tr) := retry_loop rest last_exception in
          (r, Invoke attempt :: Log WARNING :: Sleep total_delay :: tr)
        end
      else
        let '(r, tr) := retry_loop rest last_exception in
        (r, Invoke attempt :: Log ERROR :: tr)
    end
  end.

Definition execute_with_retry : outcome A * list event :=
  retry_loop (range (max_retries self + 1)) None.

(** The delay the handler of [attempt] means to compute, and that delay
    with its jitter. *)
Definition backoff (attempt : nat) : Q :=
  base_delay self * backoff_factor self ^ Z.of_nat attempt.

Definition total_delay (attempt : nat) : Q :=
  backoff attempt + jitter_of attempt (backoff attempt).

(** The power, the delay and the total delay of [attempt] are finite
    floats. *)
Definition finite_delay (attempt : nat) : Prop :=
  overflows (backoff_factor self ^ Z.of_nat attempt) = false /\
  overflows (backoff attempt) = false /\
  overflows (total_delay attempt) = false.

End Retry.

(** How many times the operation was invoked. *)
Definition invocations (tr : list event) : nat :=
  length (List.filter (fun ev => match ev with Invoke _ => true | _ => false end) tr).



(** *** RateLimiter *)

Record RateLimiter := {
  max_requests : Z;
  time_window : Z;
  requests : list Q
}.

(** [RateLimiter(max_requests, time_window)]: the window starts empty. *)
Definition RateLimiter_init (max_requests time_window : Z) : RateLimiter :=
  {| max_requests := max_requests; time_window := time_window; requests := [] |}.

(** [[req_time for req_time in self.requests if now - req_time < self.time_window]] *)
Definition unexpired (self : RateLimiter) (now : Q) (reqs : list Q) : list Q :=
  List.filter (fun req_time => Qltb (now - req_time) (inject_Z (time_window self))) reqs.

(** What one call reports back to the model: the instant recorded for the
    admitted request and the delay slept, if any. *)
Record admission := {
  admitted_at : Q;
  slept : option Q
}.

(** [self.requests = value] *)
Definition set_requests (self : RateLimiter) (value : list Q) : RateLimiter :=
  {| max_requests := max_requests self;
     time_window := time_window self;
     requests := value |}.

(** [wait_if_needed]: what the call does, and the limiter as the call
    leaves it. [now] is the reading of [time.time()] on entry;
    [asyncio.sleep(sleep_time)] returns [lag] seconds later than asked, so
    that the second reading of the clock is [now + sleep_time + lag]. *)
Definition wait_if_needed (self : RateLimiter) (now lag : Q)
  : outcome admission * RateLimiter :=
  let self := set_requests self (unexpired self now (requests self)) in
  if (max_requests self <=? Z.of_nat (length (requests self)))%Z then
    match requests self with
    | [] => (Raised (IndexError "list index out of range"), self)
    | first :: _ =>
      let sleep_time := (inject_Z (time_window self) - (now - first) + 1)%Q in
      if Qltb 0 sleep_time then
        let now := (now + sleep_time + lag)%Q in
        let self := set_requests self (unexpired self now (requests self)) in
        (Returned {| admitted_at := now; slept := Some sleep_time |},
         set_requests self (requests self ++ [now]))
      else
        (Returned {| admitted_at := now; slept := None |},
         set_requests self (requests self ++ [now]))
    end
  else
    (Returned {| admitted_at := now; slept := None |},
     set_requests self (requests self ++ [now])).

(** The limiter states a single caller can bring about: from a fresh
    limiter, by calls whose sleeps do not return early. *)
Inductive reachable (N W : Z) : RateLimiter -> Prop :=
| reachable_init : reachable N W (RateLimiter_init N W)
| reachable_call self now lag self' adm :
    reachable N W self ->
    (0 <= lag)%Q ->
    wait_if_needed self now lag = (Returned adm, self') ->
    reachable N W self'.

(** The number of recorded timestamps younger than the window at [now]. *)
Definition in_window (self : RateLimiter) (now : Q) : nat :=
  length (unexpired self now (requests self)).

(** *** PerformanceMonitor *)

Record PerformanceMonitor := {
  start_time : option Q;
  checkpoints : dict Q
}.

Definition PerformanceMonitor_init : PerformanceMonitor :=
  {| start_time := None; checkpoints := [] |}.

(** [start()], the clock reading [now]. *)
Definition start (self : PerformanceMonitor) (now : Q) : PerformanceMonitor :=
  {| start_time := Some now; checkpoints := [] |}.

(** [max(xs)] on floats: the first of the largest elements. *)
Definition py_max (x : Q) (xs : list Q) : Q :=
  fold_left (fun best y => if Qltb best y then y else best) xs x.

(** The per-checkpoint entries of a summary: all but ["total_duration"]. *)
Definition duration_entries (summary : dict Q) : dict Q :=
  List.filter (fun '(key, _) => negb (String.eqb key "total_duration")) summary.

Section Monitor.
(** [a - b] on floats: the difference, rounded to a float. *)
Variable fsub : Q -> Q -> Q.

(** [checkpoint(name)]: [first] is the reading taken when no start time
    is set, [now] the reading for the checkpoint itself. *)
Definition checkpoint (self : PerformanceMonitor) (name : string) (first now : Q)
  : PerformanceMonitor :=
  let start_time := match start_time self with Some t => t | None => first end in
  let current_time := now in
  {| start_time := Some start_time;
     checkpoints := dict_set name (fsub current_time start_time) (checkpoints self) |}.

(** The [for name, time_elapsed in self.checkpoints.items()] loop. *)
Fixpoint summary_loop (items : dict Q) (prev_time : Q) (summary : dict Q) : dict Q :=
  match items with
  | [] => summary
  | (name, time_elapsed) :: rest =>
    summary_loop rest time_elapsed
      (dict_set (name +:+ "_duration") (fsub time_elapsed prev_time) summary)
  end.

Definition get_summary (self : PerformanceMonitor) : dict Q :=
  match checkpoints self with
  | [] => []
  | (_, t) :: rest =>
    let summary := summary_loop (checkpoints self) 0 [] in
    dict_set "total_duration" (py_max t (values rest)) summary
  end.

(** What the summary loop is meant to compute: for each checkpoint, in
    order, its elapsed time less the one before it. *)
Fixpoint durations (prev : Q) (items : dict Q) : dict Q :=
  match items with
  | [] => []
  | (name, time_elapsed) :: rest =>
    (name +:+ "_duration", fsub time_elapsed prev) :: durations time_elapsed rest
  end.

(** The elapsed time of each mark, counted from [t0]. *)
Definition elapsed (t0 : Q) (marks : list (string * Q)) : dict Q :=
  map (fun '(name, now) => (name, fsub now t0)) marks.

(** [start()] at [t0], then one [checkpoint] per entry of [marks]. *)
Definition record_all (t0 : Q) (marks : list (string * Q)) : PerformanceMonitor :=
  fold_left (fun m '(name, now) => checkpoint m name now now) marks
            (start PerformanceMonitor_init t0).

End Monitor.

End Utils.

(** ** config.py *)

Module Config.

Record Config := {
  xhs_cookie : string;
  llm_api_key : string;
  llm_base_url : string;
  notion_token : string;
  original_database_id : string;
  processed_database_id : string;
  doubao_api_key : string;
  doubao_base_url : string;
  video_output_dir : string;
  default_scene_count : Z;
  video_resolution : string;
  video_style : string;
  note_type : Z;
  sort : Z;
  total_number : Z;
  log_level : string;
  request_timeout : Z;
  max_retries : Z
}.

Definition required_configs : dict string :=
  [("XHS_COOKIE", "小红书Cookie");
   ("LLM_API_KEY", "LLM API密钥");
   ("NOTION_TOKEN", "Notion Token");
   ("ORIGINAL_DATABASE_ID", "原始数据库ID");
   ("PROCESSED_DATABASE_ID", "处理后数据库ID");
   ("DOUBAO_API_KEY", "豆包Seedance API密钥")].

Definition valid_log_levels : list string := ["DEBUG"; "INFO"; "WARNING"; "ERROR"].

Section ConfigManager.
(** The builtins [int(s)] and [s.upper()], and [os.environ] as it is
    once [_load_env_file] has run. *)
Variable int : string -> outcome Z.
Variable upper : string -> string.
Variable environ : gmap string string.

(** [os.getenv(key)] and [os.getenv(key, default)] *)
Definition getenv (key : string) : option string := environ !! key.
Definition getenv_or (key default : string) : string :=
  match environ !! key with Some v => v | None => default end.

(** [not os.getenv(key)]: unset, or set to the empty string. *)
Definition unset (key : string) : bool :=
  match getenv key with
  | None => true
  | Some v => String.eqb v ""
  end.

Definition missing_configs : list string :=
  map (fun '(key, description) => key +:+ " (" +:+ description +:+ ")")
      (List.filter (fun '(key, _) => unset key) required_configs).

(** [x not in [0, 1, 2]] *)
Definition not_in_012 (x : Z) : bool :=
  negb ((x =? 0)%Z || (x =? 1)%Z || (x =? 2)%Z).

Definition _validate_config (config : Config) : outcome unit :=
  if not_in_012 (note_type config) then
    Raised (ValueError "NOTE_TYPE必须是0(全部)、1(视频)或2(图文)")
  else if not_in_012 (sort config) then
    Raised (ValueError "SORT必须是0(综合)、1(最新)或2(最热)")
  else if (total_number config <=? 0)%Z then
    Raised (ValueError "TOTAL_NUMBER必须大于0")
  else if negb (existsb (String.eqb (upper (log_level config))) valid_log_levels) then
    Raised (ValueError ("LOG_LEVEL必须是以下之一: " +:+ join ", " valid_log_levels))
  else if (request_timeout config <=? 0)%Z then
    Raised (ValueError "REQUEST_TIMEOUT必须大于0")
  else if (max_retries config <? 0)%Z then
    Raised (ValueError "MAX_RETRIES必须大于等于0")
  else Returned tt.

(** The [Config(...)] call of [get_config], given the six parsed
    integers. *)
Definition config_of (default_scene_count note_type sort total_number
                      request_timeout max_retries : Z) : Config :=
  {| xhs_cookie := getenv_or "XHS_COOKIE" "";
     llm_api_key := getenv_or "LLM_API_KEY" "";
     llm_base_url := getenv_or "LLM_BASE_URL" "https://api.deepseek.com";
     notion_token := getenv_or "NOTION_TOKEN" "";
     original_database_id := getenv_or "ORIGINAL_DATABASE_ID" "";
     processed_database_id := getenv_or "PROCESSED_DATABASE_ID" "";
     doubao_api_key := getenv_or "DOUBAO_API_KEY" "";
     doubao_base_url :=
       getenv_or "DOUBAO_BASE_URL" "https://ark.cn-beijing.volces.com/api/v3";
     video_output_dir := getenv_or "VIDEO_OUTPUT_DIR" "videos";
     default_scene_count := default_scene_count;
     video_resolution := getenv_or "VIDEO_RESOLUTION" "720p";
     video_style := getenv_or "VIDEO_STYLE" "realistic";
     note_type := note_type;
     sort := sort;
     total_number := total_number;
     log_level := getenv_or "LOG_LEVEL" "INFO";
     request_timeout := request_timeout;
     max_retries := max_retries |}.

Definition get_config : outcome Config :=
  match missing_configs with
  | _ :: _ =>
    Raised (ValueError ("缺少必需配置项: " +:+ join ", " missing_configs))
  | [] =>
    default_scene_count ← int (getenv_or "DEFAULT_SCENE_COUNT" "3");
    note_type ← int (getenv_or "NOTE_TYPE" "2");
    sort ← int (getenv_or "SORT" "2");
    total_number ← int (getenv_or "TOTAL_NUMBER" "2");
    request_timeout ← int (getenv_or "REQUEST_TIMEOUT" "30");
    max_retries ← int (getenv_or "MAX_RETRIES" "3");
    let config := config_of default_scene_count note_type sort total_number
                            request_timeout max_retries in
    _ ← _validate_config config;
    mret config
  end.

(** The settings [_validate_config] rejects. *)
Definition out_of_range (config : Config) : Prop :=
  ~ (note_type config = 0 \/ note_type config = 1 \/ note_type config = 2)%Z \/
  ~ (sort config = 0 \/ sort config = 1 \/ sort config = 2)%Z \/
  (total_number config <= 0)%Z \/
  ~ In (upper (log_level config)) valid_log_levels \/
  (request_timeout config <= 0)%Z \/
  (max_retries config < 0)%Z.

End ConfigManager.

(** [int(s)] on ASCII text: optional blanks around an optional sign and
    decimal digits, single underscores allowed between digits. *)
Definition is_space (c : ascii) : bool :=
  let n := nat_of_ascii c in
  (n =? 32)%nat || ((9 <=? n)%nat && (n <=? 13)%nat) || ((28 <=? n)%nat && (n <=? 31)%nat).

Fixpoint lstrip (s : string) : string :=
  match s with
  | String c s' => if is_space c then lstrip s' else s
  | EmptyString => s
  end.

Fixpoint rstrip (s : string) : string :=
  match s with
  | EmptyString => EmptyString
  | String c s' =>
    match rstrip s' with
    | EmptyString => if is_space c then EmptyString else String c EmptyString
    | t => String c t
    end
  end.

Definition strip (s : string) : string := lstrip (rstrip s).

Definition digit_of (c : ascii) : option Z :=
  let n := nat_of_ascii c in
  if (48 <=? n)%nat && (n <=? 57)%nat then Some (Z.of_nat (n - 48)) else None.

(** Digits after the first one; [after_digit] tells whether the previous
    character was a digit (an underscore must sit between two digits). *)
Fixpoint digits (s : string) (acc : Z) (after_digit : bool) : option Z :=
  match s with
  | EmptyString => if after_digit then Some acc else None
  | String c s' =>
    match digit_of c with
    | Some d => digits s' (10 * acc + d)%Z true
    | None =>
      if Ascii.eqb c "_" && after_digit then digits s' acc false else None
    end
  end.

Definition int_ascii (s : string) : outcome Z :=
  let invalid :=
    Raised (ValueError ("invalid literal for int() with base 10: '" +:+ s +:+ "'")) in
  let parse_digits (t : string) (sign : Z) :=
    match t with
    | String c _ =>
      match digit_of c, digits t 0 false with
      | Some _, Some n => Returned (sign * n)%Z
      | _, _ => invalid
      end
    | EmptyString => invalid
    end in
  match strip s with
  | String "-" t => parse_digits t (-1)%Z
  | String "+" t => parse_digits t 1%Z
  | t => parse_digits t 1%Z
  end.

(** [s.upper()] on ASCII text. *)
Definition upper_char (c : ascii) : ascii :=
  let n := nat_of_ascii c in
  if (97 <=? n)%nat && (n <=? 122)%nat then ascii_of_nat (n - 32) else c.

Fixpoint upper_ascii (s : string) : string :=
  match s with
  | EmptyString => EmptyString
  | String c s' => String (upper_char c) (upper_ascii s')
  end.

End Config.

(** ** video_generator.py *)

Module VideoGenerator.

(** A value decoded from JSON: [None], [bool], [int], [float], [str],
    [list] and [dict] (keys distinct, in insertion order). *)
#[warnings="-register-all"]
Inductive json :=
| JNull
| JBool (b : bool)
| JInt (z : Z)
| JFloat (q : Q)
| JStr (s : string)
| JArr (items : list json)
| JObj (members : list (string * json)).

(** [d.get(key, default)] on a [dict]. *)
Definition get (d : dict json) (key : string) (default : json) : json :=
  match dict_get key d with Some v => v | None => default end.

(** [bool(v)] *)
Definition truthy (v : json) : bool :=
  match v with
  | JNull => false
  | JBool b => b
  | JInt z => negb (z =? 0)%Z
  | JFloat q => negb (Qeq_bool q 0)
  | JStr s => negb (String.eqb s "")
  | JArr l => match l with [] => false | _ => true end
  | JObj d => match d with [] => false | _ => true end
  end.

Definition type_name (v : json) : string :=
  match v with
  | JNull => "NoneType"
  | JBool _ => "bool"
  | JInt _ => "int"
  | JFloat _ => "float"
  | JStr _ => "str"
  | JArr _ => "list"
  | JObj _ => "dict"
  end.

(** The characters of a [str], one string each. *)
Fixpoint chars (s : string) : list string :=
  match s with
  | EmptyString => []
  | String c s' => String c EmptyString :: chars s'
  end.

(** What [for x in v] runs over. *)
Definition iterate (v : json) : outcome (list json) :=
  match v with
  | JArr l => Returned l
  | JObj d => Returned (map JStr (keys d))
  | JStr s => Returned (map JStr (chars s))
  | _ => Raised (TypeError ("'" +:+ type_name v +:+ "' object is not iterable"))
  end.

(** [v[key]] for a [str] key. *)
Definition getitem (v : json) (key : string) : outcome json :=
  match v with
  | JObj d =>
    match dict_get key d with
    | Some x => Returned x
    | None => Raised (KeyError ("'" +:+ key +:+ "'"))
    end
  | JArr _ => Raised (TypeError "list indices must be integers or slices, not str")
  | JStr _ => Raised (TypeError "string indices must be integers, not 'str'")
  | _ => Raised (TypeError ("'" +:+ type_name v +:+ "' object is not subscriptable"))
  end.

(** [v[0]] *)
Definition getitem0 (v : json) : outcome json :=
  match v with
  | JArr (x :: _) => Returned x
  | JArr [] => Raised (IndexError "list index out of range")
  | JStr (String c _) => Returned (JStr (String c EmptyString))
  | JStr EmptyString => Raised (IndexError "string index out of range")
  | JObj _ => Raised (KeyError "0")
  | _ => Raised (TypeError ("'" +:+ type_name v +:+ "' object is not subscriptable"))
  end.

(** [s.find(c)] and [s.rfind(c)] for a one-character [c]: the index of the
    first (last) occurrence, or -1. *)
Fixpoint find (c : ascii) (s : string) : Z :=
  match s with
  | EmptyString => -1
  | String c' s' =>
    if Ascii.eqb c' c then 0
    else let i := find c s' in if (i =? -1)%Z then -1 else (i + 1)%Z
  end.

Fixpoint rfind (c : ascii) (s : string) : Z :=
  match s with
  | EmptyString => -1
  | String c' s' =>
    let i := rfind c s' in
    if (i =? -1)%Z then (if Ascii.eqb c' c then 0 else -1) else (i + 1)%Z
  end.

(** [s[start:stop]] for [0 <= start] and [0 <= stop]. *)
Definition slice (s : string) (start stop : Z) : string :=
  substring (Z.to_nat start) (Z.to_nat (stop - start)) s.

Record StoryboardScene := {
  scene_id : json;
  scene_title : json;
  scene_description : json;
  duration : json;
  visual_elements : json;
  text_overlay : json;
  background_music : json;
  transition_effect : json
}.

Definition log : Type := list (level * string).

(** [StoryboardScene(scene_id=scene_data.get('scene_id', ''), ...)] *)
Definition scene_from_dict (d : dict json) : StoryboardScene :=
  {| scene_id := get d "scene_id" (JStr "");
     scene_title := get d "scene_title" (JStr "");
     scene_description := get d "scene_description" (JStr "");
     duration := get d "duration" (JInt 8);
     visual_elements := get d "visual_elements" (JArr []);
     text_overlay := get d "text_overlay" (JStr "");
     background_music := get d "background_music" (JStr "");
     transition_effect := get d "transition_effect" (JStr "") |}.

Definition scene_of (scene_data : json) : outcome StoryboardScene :=
  match scene_data with
  | JObj d => Returned (scene_from_dict d)
  | _ => Raised (AttributeError ("'" +:+ type_name scene_data +:+ "' object has no attribute 'get'"))
  end.

(** The [for scene_data in ...: scenes.append(scene)] loop. *)
Fixpoint scenes_loop (entries : list json) (scenes : list StoryboardScene)
  : outcome (list StoryboardScene) :=
  match entries with
  | [] => Returned scenes
  | scene_data :: rest =>
    scene ← scene_of scene_data;
    scenes_loop rest (scenes ++ [scene])
  end.

(** What the HTTP client hands back: [response.status], and what
    [await response.json()] and [await response.text()] do. *)
Record response := {
  resp_status : Z;
  resp_json : outcome json;
  resp_text : outcome string
}.

(** The request body sent to [/v1/chat/completions]: one user message. *)
Record chat_request := {
  chat_model : string;
  chat_content : string;
  temperature : Q;
  max_tokens : Z
}.

Section Storyboard.
(** [json.loads]; it raises [JSONDecodeError] on malformed text. *)
Variable json_loads : string -> outcome json.
(** The prompt of [generate_storyboard]: its f-string, filled with the
    content and the number of scenes. *)
Variable prompt_of : string -> Z -> string.

(** The body of the [try] in [_parse_storyboard_response]. *)
Definition parse_try (response_text : json) : outcome (list StoryboardScene) * log :=
  match response_text with
  | JStr text =>
    let json_start := find "{" text in
    let json_end := (rfind "}" text + 1)%Z in
    if (json_start =? -1)%Z || (json_end =? 0)%Z then
      (Returned [], [(ERROR, "无法找到有效的JSON格式")])
    else
      let json_text := slice text json_start json_end in
      (data ← json_loads json_text;
       entries ← match data with
                 | JObj d => iterate (get d "scenes" (JArr []))
                 | _ => Raised (AttributeError
                          ("'" +:+ type_name data +:+ "' object has no attribute 'get'"))
                 end;
       scenes_loop entries [],
       [])
  | _ => (Raised (AttributeError
            ("'" +:+ type_name response_text +:+ "' object has no attribute 'find'")), [])
  end.

Definition _parse_storyboard_response (response_text : json)
  : outcome (list StoryboardScene) * log :=
  match parse_try response_text with
  | (Returned scenes, lg) => (Returned scenes, lg)
  | (Raised e, lg) =>
    if String.eqb (exn_kind e) "JSONDecodeError" then
      (Returned [], lg ++ [(ERROR, "解析JSON时发生错误: " +:+ exn_str e)])
    else
      (Returned [], lg ++ [(ERROR, "解析分镜头脚本时发生错误: " +:+ exn_str e)])
  end.

Definition storyboard_request (content : string) (num_scenes : Z) : chat_request :=
  {| chat_model := "deepseek-chat";
     chat_content := prompt_of content num_scenes;
     temperature := 0.7;
     max_tokens := 3000 |}.

(** [generate_storyboard]; [post] is what the language model's endpoint
    does with a request. Only the scenes are returned to the caller; the
    log is kept beside them. *)
Definition generate_storyboard (post : chat_request -> outcome response)
    (content : string) (num_scenes : Z) : list StoryboardScene * log :=
  let lg := [(INFO, "开始生成分镜头脚本，目标场景数: " +:+ str_of_Z num_scenes)] in
  let body : outcome (list StoryboardScene) * log :=
    match post (storyboard_request content num_scenes) with
    | Raised e => (Raised e, [])
    | Returned resp =>
      if (resp_status resp =? 200)%Z then
        match (result ← resp_json resp;
               choices ← getitem result "choices";
               choice ← getitem0 choices;
               message ← getitem choice "message";
               getitem message "content") with
        | Raised e => (Raised e, [])
        | Returned storyboard_text =>
          match _parse_storyboard_response storyboard_text with
          | (Returned scenes, lg') =>
            (Returned scenes,
             lg' ++ [(INFO, "成功生成 " +:+ str_of_Z (Z.of_nat (length scenes)) +:+ " 个分镜头")])
          | (Raised e, lg') => (Raised e, lg')
          end
        end
      else
        (Returned [], [(ERROR, "LLM API调用失败: " +:+ str_of_Z (resp_status resp))])
    end in
  match body with
  | (Returned scenes, lg') => (scenes, lg ++ lg')
  | (Raised e, lg') =>
    ([], lg ++ lg' ++ [(ERROR, "生成分镜头脚本时发生错误: " +:+ exn_str e)])
  end.

End Storyboard.

(** *** DoubaoSeedanceAPI *)

Record VideoGenerationResult := {
  result_scene_id : json;
  status : string;
  video_url : option json;
  video_path : option string;
  error_message : option string;
  generation_time : option Q
}.

(** The request body sent to [/video/generate]. *)
Record payload := {
  model : string;
  prompt : string;
  payload_duration : json;
  resolution : string;
  style : string;
  motion : string
}.

Definition nl : string := String (ascii_of_nat 10) EmptyString.

(** The operands of [', '.join(...)]: every item must be a [str]. *)
Fixpoint str_items (items : list json) (i : Z) : outcome (list string) :=
  match items with
  | [] => Returned []
  | JStr x :: rest => xs ← str_items rest (i + 1)%Z; mret (x :: xs)
  | v :: _ =>
    Raised (TypeError ("sequence item " +:+ str_of_Z i +:+ ": expected str instance, "
                       +:+ type_name v +:+ " found"))
  end.

Section Synthesis.
(** [str(v)] as an f-string renders a value, the
    [strftime('%Y%m%d_%H%M%S')] rendering of a clock reading, and
    [os.path.join]. *)
Variable str_ : json -> string.
Variable strftime : Q -> string.
Variable path_join : string -> string -> string.

(** What the outside does during one [generate_video]: [os.makedirs],
    the POST, the GET of the artifact with the copy of its chunks into
    the file (given the URL and the path), and the readings of
    [datetime.now()] at the start, at the download and at the end. *)
Record synthesis_io := {
  makedirs : outcome unit;
  post : payload -> outcome response;
  fetch : json -> string -> outcome (Z * outcome unit);
  started : Q;
  download_at : Q;
  finished : Q
}.

Definition _build_video_prompt (scene : StoryboardScene) : outcome string :=
  items ← match iterate (visual_elements scene) with
          | Returned items => Returned items
          | Raised _ => Raised (TypeError "can only join an iterable")
          end;
  elements ← str_items items 0;
  mret ("Create a " +:+ str_ (duration scene)
        +:+ "-second video scene with the following specifications:" +:+ nl
        +:+ nl
        +:+ "Title: " +:+ str_ (scene_title scene) +:+ nl
        +:+ "Description: " +:+ str_ (scene_description scene) +:+ nl
        +:+ nl
        +:+ "Visual Elements:" +:+ nl
        +:+ join ", " elements +:+ nl
        +:+ nl
        +:+ "Text Overlay: " +:+ str_ (text_overlay scene) +:+ nl
        +:+ "Background Music: " +:+ str_ (background_music scene) +:+ nl
        +:+ "Transition Effect: " +:+ str_ (transition_effect scene) +:+ nl
        +:+ nl
        +:+ "Style Requirements:" +:+ nl
        +:+ "- High quality, professional video" +:+ nl
        +:+ "- Suitable for social media (Xiaohongshu style)" +:+ nl
        +:+ "- Smooth transitions and movements" +:+ nl
        +:+ "- Clear and readable text overlay" +:+ nl
        +:+ "- Engaging visual composition" +:+ nl
        +:+ "- Duration: exactly " +:+ str_ (duration scene) +:+ " seconds" +:+ nl
        +:+ nl
        +:+ "Please generate a video that matches these specifications with high visual quality and smooth motion.").

(** [_download_video]: the local path, or [None]. *)
Definition _download_video (io : synthesis_io) (video_url scene_id : json)
    (output_dir : string) : option string * log :=
  let video_filename :=
    str_ scene_id +:+ "_" +:+ strftime (download_at io) +:+ ".mp4" in
  let video_path := path_join output_dir video_filename in
  match fetch io video_url video_path with
  | Returned (code, copy) =>
    if (code =? 200)%Z then
      match copy with
      | Returned _ => (Some video_path, [(INFO, "视频下载完成: " +:+ video_path)])
      | Raised e => (None, [(ERROR, "下载视频时发生错误: " +:+ exn_str e)])
      end
    else (None, [(ERROR, "下载视频失败: " +:+ str_of_Z code)])
  | Raised e => (None, [(ERROR, "下载视频时发生错误: " +:+ exn_str e)])
  end.

Definition failed (scene : StoryboardScene) (msg : string) : VideoGenerationResult :=
  {| result_scene_id := scene_id scene;
     status := "failed";
     video_url := None;
     video_path := None;
     error_message := Some msg;
     generation_time := None |}.

(** The body of the [try] in [generate_video]. *)
Definition generate_video_try (io : synthesis_io) (scene : StoryboardScene)
    (output_dir : string) : outcome VideoGenerationResult * log :=
  let lg := [(INFO, "开始生成视频: " +:+ str_ (scene_title scene))] in
  let start_time := started io in
  match (_ ← makedirs io;
         prompt ← _build_video_prompt scene;
         post io {| model := "doubao-seedance";
                    prompt := prompt;
                    payload_duration := duration scene;
                    resolution := "720p";
                    style := "realistic";
                    motion := "medium" |}) with
  | Raised e => (Raised e, lg)
  | Returned resp =>
    if (resp_status resp =? 200)%Z then
      match resp_json resp with
      | Raised e => (Raised e, lg)
      | Returned (JObj d) =>
        let url := get d "video_url" JNull in
        if truthy url then
          let '(path, lg') := _download_video io url (scene_id scene) output_dir in
          let generation_time := (finished io - start_time)%Q in
          (Returned {| result_scene_id := scene_id scene;
                       status := "success";
                       video_url := Some url;
                       video_path := path;
                       error_message := None;
                       generation_time := Some generation_time |},
           lg ++ lg')
        else (Returned (failed scene "API返回的视频URL为空"), lg)
      | Returned v =>
        (Raised (AttributeError
           ("'" +:+ type_name v +:+ "' object has no attribute 'get'")), lg)
      end
    else
      match resp_text resp with
      | Raised e => (Raised e, lg)
      | Returned error_text =>
        (Returned (failed scene
           ("API调用失败: " +:+ str_of_Z (resp_status resp) +:+ " - " +:+ error_text)), lg)
      end
  end.

Definition generate_video (io : synthesis_io) (scene : StoryboardScene)
    (output_dir : string) : outcome VideoGenerationResult * log :=
  match generate_video_try io scene output_dir with
  | (Returned r, lg) => (Returned r, lg)
  | (Raised e, lg) =>
    (Returned (failed scene (exn_str e)),
     lg ++ [(ERROR, "生成视频时发生错误: " +:+ exn_str e)])
  end.

End Synthesis.

(** *** A JSON decoder

    [loads] decodes the fragment of JSON whose numbers are integers and
    whose strings have no [\u] escape; every other text is reported as a
    [JSONDecodeError]. It stands for [json.loads] on the concrete texts of
    the examples. *)

Module Decoder.

(** The double quote. *)
Definition quote : ascii := ascii_of_nat 34.

Definition is_ws (c : ascii) : bool :=
  let n := nat_of_ascii c in
  (n =? 32)%nat || (n =? 9)%nat || (n =? 10)%nat || (n =? 13)%nat.

Fixpoint skip_ws (s : string) : string :=
  match s with
  | String c s' => if is_ws c then skip_ws s' else s
  | EmptyString => s
  end.

Definition unescape (c : ascii) : option ascii :=
  let n := nat_of_ascii c in
  if (n =? 34)%nat || (n =? 92)%nat || (n =? 47)%nat then Some c
  else if (n =? 98)%nat then Some (ascii_of_nat 8)
  else if (n =? 102)%nat then Some (ascii_of_nat 12)
  else if (n =? 110)%nat then Some (ascii_of_nat 10)
  else if (n =? 114)%nat then Some (ascii_of_nat 13)
  else if (n =? 116)%nat then Some (ascii_of_nat 9)
  else None.

(** The characters after an opening quote, up to the closing one. *)
Fixpoint string_body (s : string) : option (string * string) :=
  match s with
  | EmptyString => None
  | String c s' =>
    let n := nat_of_ascii c in
    if (n =? 34)%nat then Some (EmptyString, s')
    else if (n =? 92)%nat then
      match s' with
      | String e s'' =>
        match unescape e, string_body s'' with
        | Some c', Some (body, rest) => Some (String c' body, rest)
        | _, _ => None
        end
      | EmptyString => None
      end
    else if (n <? 32)%nat then None
    else
      match string_body s' with
      | Some (body, rest) => Some (String c body, rest)
      | None => None
      end
  end.

Definition digit (c : ascii) : option Z :=
  let n := nat_of_ascii c in
  if (48 <=? n)%nat && (n <=? 57)%nat then Some (Z.of_nat (n - 48)) else None.

Fixpoint more_digits (s : string) (acc : Z) : Z * string :=
  match s with
  | String c s' =>
    match digit c with
    | Some d => more_digits s' (10 * acc + d)%Z
    | None => (acc, s)
    end
  | EmptyString => (acc, s)
  end.

Definition ends_number (rest : string) : bool :=
  match rest with
  | String c _ => negb (Ascii.eqb c "." || Ascii.eqb c "e" || Ascii.eqb c "E")
  | EmptyString => true
  end.

(** An integer without a sign: [0], or digits that do not start with 0. *)
Definition natural (s : string) : option (Z * string) :=
  match s with
  | String c s' =>
    match digit c with
    | Some d =>
      let '(n, rest) := if (d =? 0)%Z then (0%Z, s') else more_digits s' d in
      if ends_number rest then Some (n, rest) else None
    | None => None
    end
  | EmptyString => None
  end.

Definition literal (word : string) (v : json) (s : string) : option (json * string) :=
  if String.prefix word s
  then Some (v, substring (String.length word) (String.length s - String.length word) s)
  else None.

Fixpoint value (fuel : nat) (s : string) : option (json * string) :=
  match fuel with
  | O => None
  | S fuel =>
    match skip_ws s with
    | String c s' =>
      if Ascii.eqb c "{" then
        match skip_ws s' with
        | String c' s'' =>
          if Ascii.eqb c' "}" then Some (JObj [], s'')
          else match members fuel (skip_ws s') [] with
               | Some (d, rest) => Some (JObj d, rest)
               | None => None
               end
        | EmptyString => None
        end
      else if Ascii.eqb c "[" then
        match skip_ws s' with
        | String c' s'' =>
          if Ascii.eqb c' "]" then Some (JArr [], s'')
          else match elements fuel s' with
               | Some (l, rest) => Some (JArr l, rest)
               | None => None
               end
        | EmptyString => None
        end
      else if Ascii.eqb c quote then
        match string_body s' with
        | Some (body, rest) => Some (JStr body, rest)
        | None => None
        end
      else if Ascii.eqb c "-" then
        match natural s' with
        | Some (n, rest) => Some (JInt (- n), rest)
        | None => None
        end
      else if Ascii.eqb c "t" then literal "true" (JBool true) (String c s')
      else if Ascii.eqb c "f" then literal "false" (JBool false) (String c s')
      else if Ascii.eqb c "n" then literal "null" JNull (String c s')
      else
        match natural (String c s') with
        | Some (n, rest) => Some (JInt n, rest)
        | None => None
        end
    | EmptyString => None
    end
  end
with elements (fuel : nat) (s : string) : option (list json * string) :=
  match fuel with
  | O => None
  | S fuel =>
    match value fuel s with
    | Some (v, rest) =>
      match skip_ws rest with
      | String c rest' =>
        if Ascii.eqb c "," then
          match elements fuel rest' with
          | Some (l, rest'') => Some (v :: l, rest'')
          | None => None
          end
        else if Ascii.eqb c "]" then Some ([v], rest')
        else None
      | EmptyString => None
      end
    | None => None
    end
  end
with members (fuel : nat) (s : string) (d : dict json) : option (dict json * string) :=
  match fuel with
  | O => None
  | S fuel =>
    match s with
    | String q s' =>
      if Ascii.eqb q quote then
        match string_body s' with
        | Some (key, rest) =>
          match skip_ws rest with
          | String c rest' =>
            if Ascii.eqb c ":" then
              match value fuel rest' with
              | Some (v, rest'') =>
                let d := dict_set key v d in
                match skip_ws rest'' with
                | String c' rest3 =>
                  if Ascii.eqb c' "," then members fuel (skip_ws rest3) d
                  else if Ascii.eqb c' "}" then Some (d, rest3)
                  else None
                | EmptyString => None
                end
              | None => None
              end
            else None
          | EmptyString => None
          end
        | None => None
        end
      else None
    | EmptyString => None
    end
  end.

Definition loads (text : string) : outcome json :=
  match value (S (String.length text)) text with
  | Some (v, rest) =>
    match skip_ws rest with
    | EmptyString => Returned v
    | _ => Raised (Exn "JSONDecodeError" "Extra data")
    end
  | None => Raised (Exn "JSONDecodeError" "Expecting value")
  end.

End Decoder.

End VideoGenerator.

(** ** main.py *)

Module Main.

Abbreviation json := VideoGenerator.json.
Abbreviation log := VideoGenerator.log.

Record XHSNote := {
  note_id : string;
  note_display_title : string;
  note_url : string;
  auther_nick_name : string;
  auther_user_id : string;
  auther_avatar : string;
  auther_home_page_url : string;
  note_liked_count : string;
  note_cover_url_pre : string;
  note_cover_url_default : string;
  note_cover_width : string;
  note_cover_height : string;
  note_model_type : string;
  note_card_type : string;
  note_xsec_token : string;
  note_liked : bool
}.

Record NoteContent := {
  title : string;
  desc : string;
  video_url : option string
}.

(** One entry of the property lists handed to [add_database_item]. *)
Record property := {
  name : string;
  type : string;
  value : string
}.

(** The keys of the [config] dict that [process_workflow] reads; [None]
    is an absent key. *)
Record config_dict := {
  note_type : option Z;
  sort : option Z;
  total_number : option Z;
  default_scene_count : option Z;
  original_database_id : option string;
  processed_database_id : option string
}.

(** One entry of the report's ["results"] list. *)
Record item_result := {
  result_note_id : string;
  note_title : string;
  result_note_url : string;
  author : string;
  likes : string;
  original_content : string;
  processed_content : string;
  original_saved : bool;
  processed_saved : bool;
  video_generation : json
}.

(** The dict returned by [process_workflow]; the failure reports carry no
    ["results"] key. *)
Record report := {
  success : bool;
  message : string;
  results : option (list item_result)
}.

(** The report returned once the loop over the notes is done. *)
Definition success_report (results : list item_result) : report :=
  {| success := true;
     message := "成功处理 " +:+ str_of_Z (Z.of_nat (length results)) +:+ " 条笔记";
     results := Some results |}.

(** [x or default] on strings. *)
Definition or_else (x default : string) : string :=
  if String.eqb x "" then default else x.

(** [config.get(key, default)] and [config[key]] *)
Definition get_or {V} (entry : option V) (default : V) : V :=
  match entry with Some v => v | None => default end.

Definition lookup_key {V} (key : string) (entry : option V) : outcome V :=
  match entry with
  | Some v => Returned v
  | None => Raised (KeyError ("'" +:+ key +:+ "'"))
  end.

Section WorkflowProcessor.
(** The collaborators held by the processor. Each call reads and
    changes the outside [World]. [today] renders
    [datetime.now().strftime('%Y-%m-%d')] and [str_] is [str(v)]. *)
Variable World : Type.
Variable search_notes : string -> Z -> Z -> Z -> World -> outcome (list XHSNote) * World.
Variable read_note_content : string -> World -> outcome (option NoteContent) * World.
Variable process_content : string -> World -> outcome (option string) * World.
Variable process_video_workflow : string -> Z -> World -> outcome json * World.
Variable add_database_item : string -> list property -> World -> outcome bool * World.
Variable today : World -> string.
Variable str_ : json -> string.
Variable config : config_dict.

(** Computations that call collaborators, write to the log and may
    raise. *)
Definition M (A : Type) : Type := World * log -> outcome A * (World * log).

#[global] Instance M_ret : MRet M := fun A a st => (Returned a, st).

#[global] Instance M_bind : MBind M := fun A B k m st =>
  match m st with
  | (Returned a, st') => k a st'
  | (Raised e, st') => (Raised e, st')
  end.

Definition call {A} (op : World -> outcome A * World) : M A := fun st =>
  let '(r, w) := op (fst st) in (r, (w, snd st)).

Definition emit (lv : level) (msg : string) : M unit := fun st =>
  (Returned tt, (fst st, snd st ++ [(lv, msg)])).

Definition lift {A} (r : outcome A) : M A := fun st => (r, st).

(** [try: body except Exception as e: handler(e)] *)
Definition try_except {A} (body : M A) (handler : exn -> M A) : M A := fun st =>
  match body st with
  | (Returned a, st') => (Returned a, st')
  | (Raised e, st') => handler e st'
  end.

Definition video_failed (e : exn) : json :=
  VideoGenerator.JObj [("success", VideoGenerator.JBool false);
                       ("message", VideoGenerator.JStr (exn_str e))].

(** Step 2.2.1, with its own [try]. *)
Definition video_stage (note : XHSNote) (processed_content : string) : M json :=
  try_except
    (_ ← emit INFO ("开始为笔记生成视频: " +:+ note_display_title note);
     video_result ← call (process_video_workflow processed_content
                             (get_or (default_scene_count config) 3%Z));
     ok ← lift (VideoGenerator.getitem video_result "success");
     if VideoGenerator.truthy ok then
       n ← lift (VideoGenerator.getitem video_result "successful_videos");
       _ ← emit INFO ("视频生成成功: " +:+ str_ n +:+ " 个视频");
       mret video_result
     else
       m ← lift (VideoGenerator.getitem video_result "message");
       _ ← emit WARNING ("视频生成失败: " +:+ str_ m);
       mret video_result)
    (fun e =>
       _ ← emit ERROR ("视频生成过程中发生错误: " +:+ exn_str e);
       mret (video_failed e)).

Definition original_properties (note : XHSNote) (current_date : string) : list property :=
  [ {| name := "note_display_title"; type := "title";
       value := or_else (note_display_title note) "无标题" |};
    {| name := "auther_nick_name"; type := "rich_text";
       value := or_else (auther_nick_name note) "未知作者" |};
    {| name := "note_liked_count"; type := "rich_text";
       value := or_else (note_liked_count note) "0" |};
    {| name := "note_url"; type := "url";
       value := or_else (note_url note) "无链接" |};
    {| name := "created_date"; type := "date"; value := current_date |} ].

Definition processed_properties (processed_content current_date : string)
  : list property :=
  [ {| name := "Content"; type := "title";
       value := if (2000 <? len processed_content)%nat
                then first_chars 1997 processed_content +:+ "..."
                else processed_content |};
    {| name := "Date"; type := "date"; value := current_date |} ].

(** The body of the [try] inside the [for note in notes] loop: [None]
    is a [continue] that leaves [results] as it was, [Some result] the
    value appended to [results]. *)
Definition process_note (note : XHSNote) : M (option item_result) :=
  note_content ← call (read_note_content (note_url note));
  match note_content with
  | None =>
    _ ← emit WARNING ("无法读取笔记内容: " +:+ note_url note);
    mret None
  | Some note_content =>
    processed ← call (process_content (desc note_content));
    match processed with
    | None | Some "" =>
      _ ← emit WARNING ("LLM处理内容失败: " +:+ note_url note);
      mret None
    | Some processed_content =>
      video_result ← video_stage note processed_content;
      current_date ← (fun st => (Returned (today (fst st)), st)) : M string;
      original_db ← lift (lookup_key "original_database_id" (original_database_id config));
      original_success ← call (add_database_item original_db
                                  (original_properties note current_date));
      processed_db ← lift (lookup_key "processed_database_id" (processed_database_id config));
      processed_success ← call (add_database_item processed_db
                                   (processed_properties processed_content current_date));
      _ ← emit INFO ("成功处理笔记: " +:+ note_display_title note);
      mret (Some {| result_note_id := note_id note;
                    note_title := note_display_title note;
                    result_note_url := note_url note;
                    author := auther_nick_name note;
                    likes := note_liked_count note;
                    original_content := desc note_content;
                    processed_content := processed_content;
                    original_saved := original_success;
                    processed_saved := processed_success;
                    video_generation := video_result |})
    end
  end.

(** One turn of the loop: the item's [try] with its [except]. *)
Definition guarded (note : XHSNote) : M (option item_result) :=
  try_except (process_note note)
    (fun e => _ ← emit ERROR ("处理笔记时发生错误: " +:+ exn_str e); mret None).

(** The [for note in notes] loop, [acc] being [results] so far. *)
Fixpoint notes_loop (notes : list XHSNote) (acc : list item_result)
  : M (list item_result) :=
  match notes with
  | [] => mret acc
  | note :: rest =>
    r ← guarded note;
    notes_loop rest (match r with Some result => acc ++ [result] | None => acc end)
  end.

Definition process_workflow (keyword : string) : M report :=
  try_except
    (_ ← emit INFO ("开始处理工作流，关键词: " +:+ keyword);
     notes ← call (search_notes keyword
                     (get_or (note_type config) 2%Z)
                     (get_or (sort config) 2%Z)
                     (get_or (total_number config) 2%Z));
     match notes with
     | [] =>
       _ ← emit WARNING "未找到任何笔记";
       mret {| success := false; message := "未找到任何笔记"; results := None |}
     | _ :: _ =>
       _ ← emit INFO ("找到 " +:+ str_of_Z (Z.of_nat (length notes)) +:+ " 条笔记");
       results ← notes_loop notes [];
       mret (success_report results)
     end)
    (fun e =>
       _ ← emit ERROR ("工作流处理时发生错误: " +:+ exn_str e);
       mret {| success := false;
               message := "工作流处理失败: " +:+ exn_str e;
               results := None |}).

End WorkflowProcessor.

End Main.

(** ** Concrete collaborators and inputs used in the examples *)

Module Samples.

(** *** utils.py *)

(** An operation that times out twice and then returns 7. *)
Definition flaky (i : nat) : outcome Z :=
  if (i <? 2)%nat then Raised (Exn "TimeoutError" ("attempt " +:+ str_of_Z (Z.of_nat i)))
  else Returned 7%Z.

Definition timeout_of (i : nat) : exn :=
  Exn "TimeoutError" ("attempt " +:+ str_of_Z (Z.of_nat i)).

(** An operation that times out on every invocation. *)
Definition hopeless (i : nat) : outcome Z := Raised (timeout_of i).

(** A random source stuck in the middle of [0, 1). *)
Definition coin (i : nat) : Q := 0.5%Q.

(** [RetryHandler(-1)], and [RetryHandler(3, 0.0, 1e200)]. *)
Definition unarmed : Utils.RetryHandler :=
  {| Utils.max_retries := -1; Utils.base_delay := 1; Utils.backoff_factor := 2 |}.

Definition reckless : Utils.RetryHandler :=
  {| Utils.max_retries := 3; Utils.base_delay := 0;
     Utils.backoff_factor := inject_Z (10 ^ 200) |}.

(** Float subtraction at the clock readings of the examples, small
    integers: their differences are floats and nothing is rounded. *)
Definition exact_sub (a b : Q) : Q := (a - b)%Q.

(** One request per minute, one request already admitted at time 0. *)
Definition busy_limiter : Utils.RateLimiter :=
  {| Utils.max_requests := 1; Utils.time_window := 60; Utils.requests := [0%Q] |}.

(** *** config.py *)

Definition required_env : list (string * string) :=
  [("XHS_COOKIE", "cookie"); ("LLM_API_KEY", "llm-key"); ("NOTION_TOKEN", "token");
   ("ORIGINAL_DATABASE_ID", "db1"); ("PROCESSED_DATABASE_ID", "db2");
   ("DOUBAO_API_KEY", "doubao-key")].

(** Only the required settings. *)
Definition minimal_env : gmap string string := list_to_map required_env.

(** The required settings and [MAX_RETRIES=0]. *)
Definition no_retry_env : gmap string string :=
  list_to_map (("MAX_RETRIES", "0") :: required_env).

(** The required settings and [DEFAULT_SCENE_COUNT=0]. *)
Definition no_scene_env : gmap string string :=
  list_to_map (("DEFAULT_SCENE_COUNT", "0") :: required_env).

(** The required settings and [NOTE_TYPE=5]. *)
Definition bad_type_env : gmap string string :=
  list_to_map (("NOTE_TYPE", "5") :: required_env).

(** *** video_generator.py *)

Import VideoGenerator.

(** A chat-completion body whose message content is [text]. *)
Definition completion (text : string) : json :=
  JObj [("choices", JArr [JObj [("message", JObj [("content", JStr text)])]])].

Definition answer (text : string) : response :=
  {| resp_status := 200;
     resp_json := Returned (completion text);
     resp_text := Returned text |}.

(** A reply that wraps a payload of two scenes in prose. *)
Definition quoted (s : string) : string :=
  String Decoder.quote s +:+ String Decoder.quote EmptyString.

Definition two_scenes : string :=
  "Here you go: {" +:+ quoted "scenes" +:+ ": [{" +:+ quoted "scene_id" +:+ ": "
  +:+ quoted "scene_1" +:+ "}, {" +:+ quoted "scene_id" +:+ ": " +:+ quoted "scene_2"
  +:+ ", " +:+ quoted "duration" +:+ ": 5}]} Enjoy!".

(** A collaborator that answers every request with [text]. *)
Definition always (text : string) (request : chat_request) : outcome response :=
  Returned (answer text).

(** A short prompt in place of the module's template. *)
Definition brief (content : string) (num_scenes : Z) : string :=
  str_of_Z num_scenes +:+ " scenes for: " +:+ content.

Definition two_scene_dicts : list (dict json) :=
  [[("scene_id", JStr "scene_1")]; [("scene_id", JStr "scene_2"); ("duration", JInt 5)]].

(** [str(v)] on the scalars that occur in the examples. *)
Definition str_scalar (v : json) : string :=
  match v with
  | JStr s => s
  | JInt z => str_of_Z z
  | JBool true => "True"
  | JBool false => "False"
  | JNull => "None"
  | _ => "..."
  end.

Definition stamp (t : Q) : string := "20240101_000000".
Definition join_path (dir file : string) : string := dir +:+ "/" +:+ file.

(** The synthesis service answers with a URL, and the GET of that URL
    answers 404. *)
Definition lost_artifact : synthesis_io :=
  {| makedirs := Returned tt;
     post := fun _ =>
       Returned {| resp_status := 200;
                   resp_json := Returned (JObj [("video_url", JStr "https://cdn.example/v.mp4")]);
                   resp_text := Returned "" |};
     fetch := fun _ _ => Returned (404%Z, Returned tt);
     started := 0;
     download_at := 2;
     finished := 3 |}.

Definition opening_scene : StoryboardScene :=
  scene_from_dict [("scene_id", JStr "scene_1"); ("visual_elements", JArr [JStr "desk"])].

(** *** main.py *)

Import Main.

Definition note (n : string) : XHSNote :=
  {| note_id := "note_" +:+ n;
     note_display_title := "title " +:+ n;
     note_url := "https://www.xiaohongshu.com/explore/" +:+ n;
     auther_nick_name := "author";
     auther_user_id := "user";
     auther_avatar := "";
     auther_home_page_url := "";
     note_liked_count := "100";
     note_cover_url_pre := "";
     note_cover_url_default := "";
     note_cover_width := "400";
     note_cover_height := "300";
     note_model_type := "normal";
     note_card_type := "normal";
     note_xsec_token := "";
     note_liked := false |}.

(** The outside is the journal of the calls made so far. *)
Definition journal : Type := list string.

Definition found (notes : list XHSNote) (keywords : string) (note_type sort total : Z)
    (w : journal) : outcome (list XHSNote) * journal :=
  (Returned notes, w ++ ["search " +:+ keywords]).

(** The reader finds every page but the one of note 2. *)
Definition reader (url : string) (w : journal) : outcome (option NoteContent) * journal :=
  if String.eqb url "https://www.xiaohongshu.com/explore/2"
  then (Returned None, w ++ ["read " +:+ url])
  else (Returned (Some {| title := "t"; desc := "text of " +:+ url; video_url := None |}),
        w ++ ["read " +:+ url]).

Definition rewriter (text : string) (w : journal) : outcome (option string) * journal :=
  (Returned (Some ("rewritten " +:+ text)), w ++ ["rewrite"]).

Definition studio (text : string) (num_scenes : Z) (w : journal) : outcome json * journal :=
  (Returned (JObj [("success", JBool true); ("successful_videos", JInt num_scenes)]),
   w ++ ["video"]).

Definition notion (database_id : string) (properties : list property) (w : journal)
    : outcome bool * journal :=
  (Returned true, w ++ ["save " +:+ database_id]).

Definition calendar (w : journal) : string := "2024-01-01".

Definition settings : config_dict :=
  {| note_type := Some 2%Z; sort := Some 2%Z; total_number := Some 2%Z;
     default_scene_count := Some 3%Z;
     original_database_id := Some "db1";
     processed_database_id := Some "db2" |}.

(** A run of the processor over the notes the search finds. *)
Definition run (notes : list XHSNote) : outcome report * (journal * log) :=
  process_workflow journal (found notes) reader rewriter studio notion calendar
    str_scalar settings "productivity" ([], []).

(** The loop over note 1 alone, once the search has found notes 1, 2, 3. *)
Definition first_turn : outcome (list item_result) * (journal * log) :=
  notes_loop journal reader rewriter studio notion calendar str_scalar settings
    [note "1"] []
    (["search productivity"],
     [(INFO, "开始处理工作流，关键词: productivity"); (INFO, "找到 3 条笔记")]).

Definition first_results : list item_result :=
  match fst first_turn with Returned rs => rs | Raised _ => [] end.

End Samples.

(** ** utils.py: text, URL and masking helpers *)

Module Text.

(** [s[:k]] and [s[k:]] for any int [k]: a negative [k] counts from the
    end, and an index past either end is clamped. *)
Definition slice_to (s : string) (k : Z) : string :=
  if (0 <=? k)%Z then first_chars (Z.to_nat k) s
  else first_chars (len s - Z.to_nat (- k)) s.

Definition slice_from (s : string) (k : Z) : string :=
  if (0 <=? k)%Z then skip_chars (Z.to_nat k) s
  else skip_chars (len s - Z.to_nat (- k)) s.

(** [s.rfind(c)] for a one-byte [c]: the index, in characters, of the last
    occurrence, or -1. *)
Fixpoint rfind (c : ascii) (s : string) : Z :=
  match s with
  | EmptyString => -1
  | String c' s' =>
    let i := rfind c s' in
    if is_continuation c' then i
    else if (i =? -1)%Z then (if Ascii.eqb c' c then 0 else -1) else (i + 1)%Z
  end.

(** [s * n]: empty when [n <= 0]. *)
Fixpoint repeat_str (s : string) (n : nat) : string :=
  match n with
  | O => EmptyString
  | S n' => s +:+ repeat_str s n'
  end.

Definition times (s : string) (n : Z) : string := repeat_str s (Z.to_nat n).

(** [TextProcessor.truncate_text] *)
Definition truncate_text (text : string) (max_length : Z) : string :=
  if String.eqb text "" || (Z.of_nat (len text) <=? max_length)%Z then text
  else
    let truncated := slice_to text (max_length - 3) in
    let last_space := rfind " " truncated in
    let truncated :=
      if Qltb (inject_Z max_length * 0.8) (inject_Z last_space)
      then slice_to truncated last_space
      else truncated in
    truncated +:+ "...".

(** [s.split(c)[0]]: what comes before the first [c]. *)
Fixpoint before (c : ascii) (s : string) : string :=
  match s with
  | EmptyString => EmptyString
  | String c' s' => if Ascii.eqb c' c then EmptyString else String c' (before c s')
  end.

(** [c in s] *)
Fixpoint contains (c : ascii) (s : string) : bool :=
  match s with
  | EmptyString => false
  | String c' s' => Ascii.eqb c' c || contains c s'
  end.

(** [url.startswith(('http://', 'https://'))] *)
Definition has_scheme (url : string) : bool :=
  String.prefix "http://" url || String.prefix "https://" url.

(** [URLProcessor.clean_url] *)
Definition clean_url (url : string) : string :=
  if String.eqb url "" then ""
  else
    let url := before "#" url in
    if negb (has_scheme url) then "https://" +:+ url else url.

(** [SecurityUtils.mask_sensitive_data] *)
Definition mask_sensitive_data (data mask_char : string) (visible_chars : Z) : string :=
  if String.eqb data "" || (Z.of_nat (len data) <=? visible_chars)%Z then
    if negb (String.eqb data "") then times mask_char (Z.of_nat (len data))
    else ""
  else
    let visible_start := slice_to data (visible_chars / 2) in
    let visible_end :=
      if (1 <? visible_chars)%Z then slice_from data (- (visible_chars / 2)) else "" in
    let masked_middle :=
      times mask_char (Z.of_nat (len data)
                       - Z.of_nat (len visible_start)
                       - Z.of_nat (len visible_end)) in
    visible_start +:+ masked_middle +:+ visible_end.

End Text.

(** ** utils.py: what is read off a trace or a series of clock readings *)

Module Observations.

(** The delays slept during a retry run, in order. *)
Definition sleeps (tr : list Utils.event) : list Q :=
  omap (fun ev => match ev with Utils.Sleep d => Some d | _ => None end) tr.

(** Clock readings that never go back: [prev <= t1 <= t2 <= ...]. *)
Fixpoint ascending (prev : Q) (ts : list Q) : Prop :=
  match ts with
  | [] => True
  | t :: rest => (prev <= t)%Q /\ ascending t rest
  end.

End Observations.

(** ** utils.py: DataValidator *)

Module Validator.

Import VideoGenerator.

(** [field in data and data[field]] is truthy. *)
Definition filled (data : dict json) (field : string) : bool :=
  match dict_get field data with
  | Some v => truthy v
  | None => false
  end.

(** The loop of both validators: the first required field that is absent
    or falsy is logged and ends the check. *)
Fixpoint check_fields (warning : string) (required_fields : list string)
    (data : dict json) : bool * log :=
  match required_fields with
  | [] => (true, [])
  | field :: rest =>
    if negb (filled data field) then (false, [(WARNING, warning +:+ field)])
    else check_fields warning rest data
  end.

Definition note_fields : list string :=
  ["note_id"; "note_display_title"; "note_url"; "auther_nick_name"].

Definition content_fields : list string := ["title"; "desc"].

Definition validate_note_data (note_data : dict json) : bool * log :=
  check_fields "笔记数据缺少必需字段: " note_fields note_data.

Definition validate_content_data (content_data : dict json) : bool * log :=
  check_fields "内容数据缺少必需字段: " content_fields content_data.

End Validator.

(** ** config.py: the environment file *)

Module EnvFile.

(** What [line.split('=', 1)[1]] is: what follows the first [c]. *)
Fixpoint after (c : ascii) (s : string) : string :=
  match s with
  | EmptyString => EmptyString
  | String c' s' => if Ascii.eqb c' c then s' else after c s'
  end.

(** [os.environ[key] = value]: an embedded NUL is refused when the name
    and the value are converted for [putenv], which then refuses a name
    that holds [=]; an empty name is refused by the [setenv] of the C
    library, which [putenv] reports as [OSError(EINVAL)]. *)
Definition environ_set (key value : string) (environ : gmap string string)
  : outcome (gmap string string) :=
  if Text.contains (ascii_of_nat 0) key || Text.contains (ascii_of_nat 0) value
  then Raised (ValueError "embedded null byte")
  else if Text.contains "=" key
  then Raised (ValueError "illegal environment variable name")
  else if String.eqb key "" then Raised (OSError "[Errno 22] Invalid argument")
  else Returned (<[key := value]> environ).

(** What is read of a file: the lines that could be read and the error
    that ended the reading, if any. *)
Record file_content := {
  lines : list string;
  read_error : option exn
}.

Section Load.
(** The builtin [s.strip()]. *)
Variable strip : string -> string.

(** The key and the value a line assigns, if it assigns any. *)
Definition assignment (line : string) : option (string * string) :=
  let line := strip line in
  if negb (String.eqb line "") && negb (String.prefix "#" line) && Text.contains "=" line
  then Some (strip (Text.before "=" line), strip (after "=" line))
  else None.

(** The body of [for line in f]. *)
Definition load_line (line : string) (environ : gmap string string)
  : outcome (gmap string string) :=
  match assignment line with
  | Some (key, value) => environ_set key value environ
  | None => Returned environ
  end.

(** The loop over the lines: the environment keeps what was set before a
    line raised. *)
Fixpoint load_lines (content : list string) (environ : gmap string string)
  : outcome unit * gmap string string :=
  match content with
  | [] => (Returned tt, environ)
  | line :: rest =>
    match load_line line environ with
    | Returned environ' => load_lines rest environ'
    | Raised e => (Raised e, environ)
    end
  end.

(** [_load_env_file]. [env_file] is the path given to the manager, if
    any, and [open_file path] is [None] when no such file exists, else
    what opening and reading it does. *)
Definition _load_env_file (env_file : option string)
    (open_file : string -> option (outcome file_content))
    (environ : gmap string string) : gmap string string * VideoGenerator.log :=
  match env_file with
  | None => (environ, [])
  | Some path =>
    if String.eqb path "" then (environ, [])
    else
      match open_file path with
      | None => (environ, [])
      | Some (Raised e) =>
        (environ, [(WARNING, "加载环境变量文件失败: " +:+ exn_str e)])
      | Some (Returned content) =>
        match load_lines (lines content) environ, read_error content with
        | (Returned _, environ'), None =>
          (environ', [(INFO, "成功加载环境变量文件: " +:+ path)])
        | (Returned _, environ'), Some e
        | (Raised e, environ'), _ =>
          (environ', [(WARNING, "加载环境变量文件失败: " +:+ exn_str e)])
        end
      end
  end.

End Load.

End EnvFile.

(** ** video_generator.py: VideoWorkflowManager *)

Module VideoWorkflow.

Import VideoGenerator.

(** A value that may be [None]. *)
Definition optional {A} (f : A -> json) (o : option A) : json :=
  match o with
  | Some a => f a
  | None => JNull
  end.

(** The entries of the report's ["scenes"] and ["video_results"] lists. *)
Definition scene_entry (scene : StoryboardScene) : json :=
  JObj [("scene_id", scene_id scene);
        ("scene_title", scene_title scene);
        ("scene_description", scene_description scene);
        ("duration", duration scene);
        ("visual_elements", visual_elements scene);
        ("text_overlay", text_overlay scene)].

Definition result_entry (result : VideoGenerationResult) : json :=
  JObj [("scene_id", result_scene_id result);
        ("status", JStr (status result));
        ("video_url", optional (fun v => v) (video_url result));
        ("video_path", optional JStr (video_path result));
        ("error_message", optional JStr (error_message result));
        ("generation_time", optional JFloat (generation_time result))].

(** [[r for r in video_results if r.status == wanted]] *)
Definition with_status (wanted : string) (video_results : list VideoGenerationResult)
  : list VideoGenerationResult :=
  List.filter (fun r => String.eqb (status r) wanted) video_results.

Section Manager.
Variable json_loads : string -> outcome json.
Variable prompt_of : string -> Z -> string.
Variable str_ : json -> string.
Variable strftime : Q -> string.
Variable path_join : string -> string -> string.

(** The [for scene in scenes] loop of step 2. [ios i] is what the outside
    does during the call of [generate_video] for the scene at index [i];
    the output directory is the default one. *)
Fixpoint synthesize (ios : nat -> synthesis_io) (i : nat) (scenes : list StoryboardScene)
  : outcome (list VideoGenerationResult) * log :=
  match scenes with
  | [] => (Returned [], [])
  | scene :: rest =>
    match generate_video str_ strftime path_join (ios i) scene "videos" with
    | (Returned result, lg) =>
      let line :=
        if String.eqb (status result) "success"
        then (INFO, "视频生成成功: " +:+ str_ (scene_title scene))
        else (ERROR, "视频生成失败: " +:+ str_ (scene_title scene) +:+ " - "
                     +:+ match error_message result with Some m => m | None => "None" end) in
      match synthesize ios (S i) rest with
      | (Returned video_results, lg') =>
        (Returned (result :: video_results), lg ++ line :: lg')
      | (Raised e, lg') => (Raised e, lg ++ line :: lg')
      end
    | (Raised e, lg) => (Raised e, lg)
    end
  end.

(** The report returned after step 3. *)
Definition video_report (scenes : list StoryboardScene)
    (video_results : list VideoGenerationResult) : json :=
  let successful_videos := with_status "success" video_results in
  let failed_videos := with_status "failed" video_results in
  JObj [("success", JBool (0 <? length successful_videos)%nat);
        ("message", JStr ("成功生成 " +:+ str_of_Z (Z.of_nat (length successful_videos))
                          +:+ " 个视频，失败 "
                          +:+ str_of_Z (Z.of_nat (length failed_videos)) +:+ " 个"));
        ("total_scenes", JInt (Z.of_nat (length scenes)));
        ("successful_videos", JInt (Z.of_nat (length successful_videos)));
        ("failed_videos", JInt (Z.of_nat (length failed_videos)));
        ("scenes", JArr (map scene_entry scenes));
        ("video_results", JArr (map result_entry video_results))].

Definition process_video_workflow (post : chat_request -> outcome response)
    (ios : nat -> synthesis_io) (content : string) (num_scenes : Z) : json * log :=
  let lg := [(INFO, "开始视频生成工作流，分镜头数量: " +:+ str_of_Z num_scenes)] in
  let '(scenes, lg1) := generate_storyboard json_loads prompt_of post content num_scenes in
  match scenes with
  | [] =>
    (JObj [("success", JBool false); ("message", JStr "分镜头脚本生成失败")], lg ++ lg1)
  | _ :: _ =>
    let lg2 := [(INFO, "成功生成 " +:+ str_of_Z (Z.of_nat (length scenes))
                       +:+ " 个分镜头脚本")] in
    match synthesize ios 0 scenes with
    | (Returned video_results, lg3) =>
      (video_report scenes video_results, lg ++ lg1 ++ lg2 ++ lg3)
    | (Raised e, lg3) =>
      (JObj [("success", JBool false);
             ("message", JStr ("视频工作流处理失败: " +:+ exn_str e))],
       lg ++ lg1 ++ lg2 ++ lg3 ++ [(ERROR, "视频工作流处理时发生错误: " +:+ exn_str e)])
    end
  end.

End Manager.

End VideoWorkflow.

(** ** main.py: the collaborators of the orchestrator *)

Module Collaborators.

Import VideoGenerator Main.

(** [l[:k]] for any int [k]. *)
Definition list_slice_to {A} (l : list A) (k : Z) : list A :=
  if (0 <=? k)%Z then firstn (Z.to_nat k) l
  else firstn (length l - Z.to_nat (- k)) l.

(** *** XHSSearchAPI *)

Definition mock_notes (keywords : string) : list XHSNote :=
  [ {| note_id := "mock_note_1";
       note_display_title := "关于" +:+ keywords +:+ "的精彩分享";
       note_url := "https://www.xiaohongshu.com/explore/mock_note_1";
       auther_nick_name := "测试用户1";
       auther_user_id := "user_1";
       auther_avatar := "https://example.com/avatar1.jpg";
       auther_home_page_url := "https://www.xiaohongshu.com/user/profile/user_1";
       note_liked_count := "100";
       note_cover_url_pre := "https://example.com/cover1.jpg";
       note_cover_url_default := "https://example.com/cover1.jpg";
       note_cover_width := "400";
       note_cover_height := "300";
       note_model_type := "normal";
       note_card_type := "normal";
       note_xsec_token := "mock_token_1";
       note_liked := false |};
    {| note_id := "mock_note_2";
       note_display_title := keywords +:+ "的深度解析";
       note_url := "https://www.xiaohongshu.com/explore/mock_note_2";
       auther_nick_name := "测试用户2";
       auther_user_id := "user_2";
       auther_avatar := "https://example.com/avatar2.jpg";
       auther_home_page_url := "https://www.xiaohongshu.com/user/profile/user_2";
       note_liked_count := "200";
       note_cover_url_pre := "https://example.com/cover2.jpg";
       note_cover_url_default := "https://example.com/cover2.jpg";
       note_cover_width := "400";
       note_cover_height := "300";
       note_model_type := "normal";
       note_card_type := "normal";
       note_xsec_token := "mock_token_2";
       note_liked := false |} ].

(** [XHSSearchAPI.search_notes]; nothing in its [try] can raise. *)
Definition search_notes (keywords : string) (note_type sort total_number : Z)
  : list XHSNote * log :=
  (list_slice_to (mock_notes keywords) total_number,
   [(INFO, "搜索关键词: " +:+ keywords +:+ ", 类型: " +:+ str_of_Z note_type
           +:+ ", 排序: " +:+ str_of_Z sort +:+ ", 数量: " +:+ str_of_Z total_number)]).

(** *** XHSReaderAPI *)

(** [s.split(c)[-1]]: what comes after the last [c]. *)
Fixpoint after_last (c : ascii) (s : string) : string :=
  match s with
  | EmptyString => EmptyString
  | String c' s' =>
    if Text.contains c s' then after_last c s'
    else if Ascii.eqb c' c then s' else s
  end.

(** [XHSReaderAPI.read_note_content]; nothing in its [try] can raise. *)
Definition read_note_content (note_url : string) : option NoteContent * log :=
  (Some {| title := "笔记标题 - " +:+ after_last "/" note_url;
           desc := "这是关于" +:+ note_url
                   +:+ "的详细内容描述。在实际使用中，这里应该是从网页中解析出的真实内容。";
           video_url := None |},
   [(INFO, "读取笔记内容: " +:+ note_url)]).

(** *** NotionManager *)

(** The Notion form of one property; [None] when its type is none of the
    four the loop knows. *)
Definition notion_value (prop : property) : option json :=
  if String.eqb (type prop) "title" then
    Some (JObj [("title", JArr [JObj [("text", JObj [("content", JStr (value prop))])]])])
  else if String.eqb (type prop) "rich_text" then
    Some (JObj [("rich_text", JArr [JObj [("text", JObj [("content", JStr (value prop))])]])])
  else if String.eqb (type prop) "url" then
    Some (JObj [("url", JStr (value prop))])
  else if String.eqb (type prop) "date" then
    Some (JObj [("date", JObj [("start", JStr (value prop))])])
  else None.

(** The [for prop in properties] loop, [notion_properties] being the dict
    built so far. *)
Fixpoint convert (properties : list property) (notion_properties : dict json)
  : dict json :=
  match properties with
  | [] => notion_properties
  | prop :: rest =>
    convert rest
      (match notion_value prop with
       | Some v => dict_set (name prop) v notion_properties
       | None => notion_properties
       end)
  end.

(** [NotionManager.add_database_item]; [create database_id properties]
    is what [client.pages.create] does. *)
Definition add_database_item (str_ : json -> string)
    (create : string -> dict json -> outcome json)
    (database_id : string) (properties : list property) : bool * log :=
  let lg := [(INFO, "向Notion数据库 " +:+ database_id +:+ " 添加新行")] in
  match (response ← create database_id (convert properties []);
         getitem response "id") with
  | Returned id => (true, lg ++ [(INFO, "成功添加Notion数据库行: " +:+ str_ id)])
  | Raised e => (false, lg ++ [(ERROR, "添加Notion数据库行时发生错误: " +:+ exn_str e)])
  end.

(** *** The dict handed to the processor *)

(** The entries of [ConfigManager.get_config_dict] that [process_workflow]
    reads. *)
Definition get_config_dict (config : Config.Config) : config_dict :=
  {| note_type := Some (Config.note_type config);
     sort := Some (Config.sort config);
     total_number := Some (Config.total_number config);
     default_scene_count := Some (Config.default_scene_count config);
     original_database_id := Some (Config.original_database_id config);
     processed_database_id := Some (Config.processed_database_id config) |}.

End Collaborators.

(** ** main.py: the processor wired as [WorkflowProcessor.__init__] does *)

Module Wiring.

Import VideoGenerator Main.

Section Processor.
(** The collaborators' log lines and the pages created in Notion are part
    of the outside world: [logged] records lines, [create w] is what the
    Notion client answers in the world [w] and [created] what the call
    leaves behind. *)
Variable World : Type.
Variable logged : log -> World -> World.
Variable create : World -> string -> dict json -> outcome json.
Variable created : string -> dict json -> World -> World.
Variable str_ : json -> string.

Definition search_notes (keywords : string) (note_type sort total_number : Z) (w : World)
  : outcome (list XHSNote) * World :=
  let '(notes, lg) := Collaborators.search_notes keywords note_type sort total_number in
  (Returned notes, logged lg w).

Definition read_note_content (note_url : string) (w : World)
  : outcome (option NoteContent) * World :=
  let '(content, lg) := Collaborators.read_note_content note_url in
  (Returned content, logged lg w).

Definition add_database_item (database_id : string) (properties : list property)
    (w : World) : outcome bool * World :=
  let '(saved, lg) :=
    Collaborators.add_database_item str_ (create w) database_id properties in
  (Returned saved,
   logged lg (created database_id (Collaborators.convert properties []) w)).

End Processor.

End Wiring.

(** ** Further concrete collaborators and inputs *)

Module Scenarios.

Import VideoGenerator Main Samples.

(** *** config.py *)

(** An environment file that sets [A] twice, and one with a line that
    assigns to an empty name. *)
Definition dotenv : list string := ["A=1"; "A=2"; "B=3"].

Definition broken_dotenv (path : string) : option (outcome EnvFile.file_content) :=
  Some (Returned {| EnvFile.lines := ["A=1"; "=oops"; "B=2"];
                    EnvFile.read_error := None |}).

(** *** video_generator.py *)

(** The synthesis service answers with a URL and the artifact is
    fetched. *)
Definition delivered : synthesis_io :=
  {| makedirs := Returned tt;
     post := fun _ =>
       Returned {| resp_status := 200;
                   resp_json := Returned (JObj [("video_url", JStr "https://cdn.example/v.mp4")]);
                   resp_text := Returned "" |};
     fetch := fun _ _ => Returned (200%Z, Returned tt);
     started := 0;
     download_at := 2;
     finished := 3 |}.

Definition delivered_result : VideoGenerationResult :=
  {| result_scene_id := JStr "scene_1";
     status := "success";
     VideoGenerator.video_url := Some (JStr "https://cdn.example/v.mp4");
     video_path := Some "videos/scene_1_20240101_000000.mp4";
     error_message := None;
     generation_time := Some (3 - 0)%Q |}.

(** A scene whose second visual element is a number. *)
Definition odd_scene : StoryboardScene :=
  scene_from_dict [("scene_id", JStr "scene_3");
                   ("visual_elements", JArr [JStr "desk"; JInt 3; JStr "lamp"])].

(** The first scene is delivered, the service answers 503 for the
    others. *)
Definition overloaded : synthesis_io :=
  {| makedirs := Returned tt;
     post := fun _ =>
       Returned {| resp_status := 503;
                   resp_json := Raised (Exn "ContentTypeError" "unexpected mimetype");
                   resp_text := Returned "busy" |};
     fetch := fun _ _ => Returned (404%Z, Returned tt);
     started := 0;
     download_at := 2;
     finished := 3 |}.

Definition first_only (i : nat) : synthesis_io :=
  match i with O => delivered | S _ => overloaded end.

(** The storyboard of the two-scene reply, and the report of the video
    workflow over it. *)
Definition storyboard : list StoryboardScene * log :=
  generate_storyboard Decoder.loads brief (always two_scenes) "content" 2.

Definition video_workflow (content : string) (num_scenes : Z) : json * log :=
  VideoWorkflow.process_video_workflow Decoder.loads brief str_scalar stamp join_path
    (always two_scenes) first_only content num_scenes.

(** *** main.py *)

(** A reader that finds every page. *)
Definition reading (url : string) (w : journal) : outcome (option NoteContent) * journal :=
  (Returned (Some {| title := "t"; desc := "text of " +:+ url; video_url := None |}),
   w ++ ["read " +:+ url]).

(** A video manager that fails outright, and a persistence that answers
    [False]. *)
Definition no_studio (text : string) (num_scenes : Z) (w : journal)
    : outcome json * journal :=
  (Raised (Exn "RuntimeError" "studio closed"), w ++ ["video"]).

Definition full_notion (database_id : string) (properties : list property) (w : journal)
    : outcome bool * journal :=
  (Returned false, w ++ ["save " +:+ database_id]).

(** The video manager of video_generator.py as the processor calls it. *)
Definition manager (text : string) (num_scenes : Z) (w : journal)
    : outcome json * journal :=
  (Returned (fst (video_workflow text num_scenes)), w ++ ["video"]).

(** The journal takes the collaborators' log lines and the pages
    created; the Notion client answers with the id of the new page. *)
Definition noted (lg : log) (w : journal) : journal := w ++ map snd lg.

Definition client (w : journal) (database_id : string) (properties : dict json)
    : outcome json :=
  Returned (JObj [("id", JStr ("page in " +:+ database_id))]).

Definition paged (database_id : string) (properties : dict json) (w : journal) : journal :=
  w ++ ["page in " +:+ database_id].

(** Properties of which one has a type the manager does not know and two
    share a name. *)
Definition mixed_properties : list property :=
  [ {| name := "Title"; type := "title"; value := "first" |};
    {| name := "Score"; type := "number"; value := "5" |};
    {| name := "Title"; type := "rich_text"; value := "second" |} ].

End Scenarios.

(** * Properties *)

Import Py.

Lemma Qltb_lt (a b : Q) : Qltb a b = true <-> (a < b)%Q.
Proof.
  unfold Qltb. rewrite negb_true_iff.
  destruct (Qle_bool b a) eqn:E.
  - apply Qle_bool_iff in E. split; [discriminate | intros H; lra].
  - split; [intros _ | reflexivity].
    destruct (Qlt_le_dec a b) as [H | H]; [exact H |].
    apply Qle_bool_iff in H. congruence.
Qed.

Lemma Qltb_ge (a b : Q) : Qltb a b = false <-> (b <= a)%Q.
Proof.
  unfold Qltb. rewrite negb_false_iff. apply Qle_bool_iff.
Qed.

(** ** RetryHandler *)

Section RetryFacts.
Import Utils Observations.
Context {A : Type}.
Variable self : RetryHandler.
Variable func : nat -> outcome A.
Variable random : nat -> Q.

Lemma finite_delay_of attempt :
  finite_delay self random attempt ->
  delay_of self attempt = Returned (backoff self attempt).
Proof.
  intros (Hpow & _ & _). unfold delay_of, float_pow. now rewrite Hpow.
Qed.


Lemma invocations_sleep a lv d tr :
  invocations (Invoke a :: Log lv :: Sleep d :: tr) = S (invocations tr).
Proof. reflexivity. Qed.

Lemma sleeps_sleep a lv d tr :
  sleeps (Invoke a :: Log lv :: Sleep d :: tr) = d :: sleeps tr.
Proof. reflexivity. Qed.

(** One failed attempt that is followed by a sleep. *)
Lemma retry_loop_sleeps attempt rest last e :
  func attempt = Raised e ->
  (Z.of_nat attempt < max_retries self)%Z ->
  delay_of self attempt = Returned (backoff self attempt) ->
  retry_loop self func random (attempt :: rest) last
    = (fst (retry_loop self func random rest (Some e)),
       Invoke attempt :: Log WARNING :: Sleep (total_delay self random attempt)
         :: snd (retry_loop self func random rest (Some e))).
Proof.
  intros Hf Hlt Hd. cbn [retry_loop]. rewrite Hf.
  destruct (Z.ltb_spec (Z.of_nat attempt) (max_retries self)) as [_ | ?]; [| lia].
  rewrite Hd. now destruct (retry_loop self func random rest (Some e)).
Qed.

(** The loop over attempts [a, a+1, ..., a+n-1] when attempt [m] is the
    first to succeed. *)
Lemma retry_loop_succeeds n : forall a last m v,
  (a <= m < a + n)%nat ->
  (Z.of_nat m <= max_retries self)%Z ->
  (forall i, (a <= i < m)%nat -> exists e, func i = Raised e) ->
  (forall i, (a <= i < m)%nat -> finite_delay self random i) ->
  func m = Returned v ->
  fst (retry_loop self func random (seq a n) last) = Returned v /\
  invocations (snd (retry_loop self func random (seq a n) last)) = S (m - a) /\
  sleeps (snd (retry_loop self func random (seq a n) last))
    = map (total_delay self random) (seq a (m - a)).
Proof.
  induction n as [| n IH]; intros a last m v Hm HR Hfail Hfin Hok; [lia |].
  destruct (Nat.eq_dec a m) as [-> | Hne].
  - cbn [seq retry_loop]. rewrite Hok, Nat.sub_diag. now cbn.
  - destruct (Hfail a) as [e He]; [lia |].
    change (seq a (S n)) with (a :: seq (S a) n).
    rewrite (retry_loop_sleeps a (seq (S a) n) last e He) by
      (try lia; apply finite_delay_of, Hfin; lia).
    destruct (IH (S a) (Some e) m v) as (H1 & H2 & H3);
      [lia | exact HR | intros; apply Hfail; lia | intros; apply Hfin; lia | exact Hok |].
    cbn [fst snd]. split; [exact H1 |]. split.
    + rewrite invocations_sleep, H2. lia.
    + rewrite sleeps_sleep, H3.
      replace (m - a)%nat with (S (m - S a)) by lia. reflexivity.
Qed.

(** The loop over the last attempts [a, ..., a+n] when every one of them
    fails. *)
Lemma retry_loop_exhausted (err : nat -> exn) n : forall a last,
  Z.of_nat (a + n) = max_retries self ->
  (forall i, func i = Raised (err i)) ->
  (forall i, (Z.of_nat i < max_retries self)%Z -> finite_delay self random i) ->
  fst (retry_loop self func random (seq a (S n)) last) = Raised (err (a + n)%nat) /\
  invocations (snd (retry_loop self func random (seq a (S n)) last)) = S n /\
  sleeps (snd (retry_loop self func random (seq a (S n)) last))
    = map (total_delay self random) (seq a n).
Proof.
  induction n as [| n IH]; intros a last HR Hfail Hfin.
  - cbn [seq retry_loop]. rewrite (Hfail a).
    destruct (Z.ltb_spec (Z.of_nat a) (max_retries self)) as [? | _]; [lia |].
    rewrite Nat.add_0_r. now cbn.
  - change (seq a (S (S n))) with (a :: seq (S a) (S n)).
    rewrite (retry_loop_sleeps a (seq (S a) (S n)) last _ (Hfail a)) by
      (try lia; apply finite_delay_of, Hfin; lia).
    destruct (IH (S a) (Some (err a)) ltac:(lia) Hfail Hfin) as (H1 & H2 & H3).
    cbn [fst snd]. split; [| split].
    + rewrite H1. f_equal. f_equal. lia.
    + rewrite invocations_sleep, H2. reflexivity.
    + rewrite sleeps_sleep, H3. reflexivity.
Qed.

(** The loop when the handler of attempt [j] is the first whose power
    overflows: the [OverflowError] leaves the function, after [j - a]
    sleeps, and later attempts are not made. *)
Lemma retry_loop_overflows n : forall a last j overflow,
  (a <= j < a + n)%nat ->
  (Z.of_nat j < max_retries self)%Z ->
  (forall i, (a <= i <= j)%nat -> exists e, func i = Raised e) ->
  (forall i, (a <= i < j)%nat -> finite_delay self random i) ->
  delay_of self j = Raised overflow ->
  fst (retry_loop self func random (seq a n) last) = Raised overflow /\
  invocations (snd (retry_loop self func random (seq a n) last)) = S (j - a) /\
  sleeps (snd (retry_loop self func random (seq a n) last))
    = map (total_delay self random) (seq a (j - a)).
Proof.
  induction n as [| n IH]; intros a last j overflow Hj HR Hfail Hfin Hover; [lia |].
  destruct (Hfail a) as [e He]; [lia |].
  destruct (Nat.eq_dec a j) as [-> | Hne].
  - cbn [seq retry_loop]. rewrite He.
    destruct (Z.ltb_spec (Z.of_nat j) (max_retries self)) as [_ | ?]; [| lia].
    rewrite Hover, Nat.sub_diag. now cbn.
  - change (seq a (S n)) with (a :: seq (S a) n).
    rewrite (retry_loop_sleeps a (seq (S a) n) last e He) by
      (try lia; apply finite_delay_of, Hfin; lia).
    destruct (IH (S a) (Some e) j overflow) as (H1 & H2 & H3);
      [lia | exact HR | intros; apply Hfail; lia | intros; apply Hfin; lia
       | exact Hover |].
    cbn [fst snd]. split; [exact H1 |]. split.
    + rewrite invocations_sleep, H2. lia.
    + rewrite sleeps_sleep, H3.
      replace (j - a)%nat with (S (j - S a)) by lia. reflexivity.
Qed.

(** C3, as amended. With a retry count [max_retries >= 0] and backoff
    delays that are finite floats for the attempts that are followed by
    another one: an operation that fails exactly [m <= max_retries] times
    and then succeeds makes [execute_with_retry] return the success value
    after exactly [m+1] invocations; an operation that fails on every
    invocation is invoked exactly [max_retries+1] times and the failure
    raised is the one of the last invocation, as it was raised. *)
Theorem execute_with_retry_contract :
  (0 <= max_retries self)%Z ->
  (forall (m : nat) (v : A),
      (Z.of_nat m <= max_retries self)%Z ->
      (forall i, (i < m)%nat -> exists e, func i = Raised e) ->
      (forall i, (i < m)%nat -> finite_delay self random i) ->
      func m = Returned v ->
      fst (execute_with_retry self func random) = Returned v /\
      invocations (snd (execute_with_retry self func random)) = (m + 1)%nat) /\
  (forall err : nat -> exn,
      (forall i, func i = Raised (err i)) ->
      (forall i, (Z.of_nat i < max_retries self)%Z -> finite_delay self random i) ->
      fst (execute_with_retry self func random)
        = Raised (err (Z.to_nat (max_retries self))) /\
      Z.of_nat (invocations (snd (execute_with_retry self func random)))
        = (max_retries self + 1)%Z).
Proof.
  intros Hpos. unfold execute_with_retry, range. split.
  - intros m v Hm Hfail Hfin Hok.
    destruct (retry_loop_succeeds (Z.to_nat (max_retries self + 1)) 0 None m v)
      as (H1 & H2 & _);
      [lia | exact Hm | intros; apply Hfail; lia | intros; apply Hfin; lia | exact Hok |].
    split; [exact H1 | lia].
  - intros err Hfail Hfin.
    replace (Z.to_nat (max_retries self + 1)) with (S (Z.to_nat (max_retries self)))
      by lia.
    destruct (retry_loop_exhausted err (Z.to_nat (max_retries self)) 0 None
                ltac:(lia) Hfail Hfin) as (H1 & H2 & _).
    split; [exact H1 | lia].
Qed.

(** Beyond C3: a negative [max_retries] leaves the loop empty, so
    nothing is invoked and [raise None] fails with a [TypeError]. *)
Lemma execute_with_retry_negative :
  (max_retries self < -1)%Z \/ max_retries self = (-1)%Z ->
  execute_with_retry self func random
    = (Raised (TypeError "exceptions must derive from BaseException"), []).
Proof.
  intros H. unfold execute_with_retry, range.
  replace (Z.to_nat (max_retries self + 1)) with O by lia. reflexivity.
Qed.

(** Beyond C3: when the power of the backoff overflows after the failure
    of attempt [j < max_retries], the [OverflowError] is what the caller
    gets, after [j+1] invocations; the failure of the operation is not
    surfaced and the remaining attempts are not made. *)
Lemma execute_with_retry_overflow j overflow :
  (Z.of_nat j < max_retries self)%Z ->
  (forall i, (i <= j)%nat -> exists e, func i = Raised e) ->
  (forall i, (i < j)%nat -> finite_delay self random i) ->
  delay_of self j = Raised overflow ->
  fst (execute_with_retry self func random) = Raised overflow /\
  invocations (snd (execute_with_retry self func random)) = S j /\
  sleeps (snd (execute_with_retry self func random))
    = map (total_delay self random) (seq 0 j).
Proof.
  intros Hj Hfail Hfin Hover. unfold execute_with_retry, range.
  destruct (retry_loop_overflows (Z.to_nat (max_retries self + 1)) 0 None j overflow)
    as (H1 & H2 & H3);
    [lia | exact Hj | intros; apply Hfail; lia | intros; apply Hfin; lia | exact Hover |].
  rewrite Nat.sub_0_r in *. auto.
Qed.

End RetryFacts.

Section RetryDelays.
Import Utils.
Context {A : Type}.
Variable self : RetryHandler.
Variable func : nat -> outcome A.
Variable random : nat -> Q.

Let loop := retry_loop self func random.





End RetryDelays.

(** ** RateLimiter *)

Section RateLimiterFacts.
Import Utils.

Lemma unexpired_length self now reqs :
  (length (unexpired self now reqs) <= length reqs)%nat.
Proof. apply List.filter_length_le. Qed.

Lemma unexpired_young self now reqs r :
  In r (unexpired self now reqs) -> (now - r < inject_Z (time_window self))%Q.
Proof.
  unfold unexpired. intros Hin. apply List.filter_In in Hin as [_ H].
  now apply Qltb_lt.
Qed.

(** A timestamp at least a window old is dropped. *)
Lemma unexpired_drop self now r reqs :
  (inject_Z (time_window self) <= now - r)%Q ->
  unexpired self now (r :: reqs) = unexpired self now reqs.
Proof.
  intros H. unfold unexpired. cbn [List.filter].
  apply Qltb_ge in H. now rewrite H.
Qed.

(** What one call does, from a state that holds at most [max_requests]
    timestamps. *)
Lemma wait_if_needed_step self now lag :
  (1 <= max_requests self)%Z ->
  (Z.of_nat (length (requests self)) <= max_requests self)%Z ->
  (0 <= lag)%Q ->
  exists self' adm,
    wait_if_needed self now lag = (Returned adm, self') /\
    max_requests self' = max_requests self /\
    time_window self' = time_window self /\
    (Z.of_nat (length (requests self')) <= max_requests self)%Z /\
    ((Z.of_nat (in_window self now) < max_requests self)%Z ->
     slept adm = None /\ admitted_at adm = now) /\
    (exists kept, requests self' = kept ++ [admitted_at adm]).
Proof.
  intros HN Hlen Hlag. unfold wait_if_needed, in_window.
  pose proof (unexpired_length self now (requests self)) as Hle.
  pose proof (unexpired_young self now (requests self)) as Hyoung.
  cbn [set_requests requests max_requests time_window].
  destruct (unexpired self now (requests self)) as [| first tl] eqn:Hreqs.
  - destruct (Z.leb_spec (max_requests self) (Z.of_nat (@length Q []))) as [H | H];
      cbn [length] in H; [lia |].
    do 2 eexists. repeat split; cbn; try lia. now exists [].
  - destruct (Z.leb_spec (max_requests self) (Z.of_nat (length (first :: tl)))) as [H | H].
    + assert (Hfirst : (now - first < inject_Z (time_window self))%Q)
        by (apply Hyoung; left; reflexivity).
      set (sleep_time := (inject_Z (time_window self) - (now - first) + 1)%Q).
      assert (Hpos : Qltb 0 sleep_time = true)
        by (apply Qltb_lt; unfold sleep_time; lra).
      rewrite Hpos.
      change (unexpired (set_requests self (first :: tl)))
        with (unexpired self).
      rewrite unexpired_drop by (unfold sleep_time; lra).
      pose proof (unexpired_length self (now + sleep_time + lag)%Q tl) as Hle'.
      do 2 eexists. repeat split; cbn [set_requests requests max_requests time_window slept admitted_at].
      * rewrite length_app. cbn [length] in *. lia.
      * lia.
      * lia.
      * eexists; reflexivity.
    + do 2 eexists. repeat split; cbn [set_requests requests max_requests time_window slept admitted_at].
      * rewrite length_app. cbn [length] in *. lia.
      * eexists; reflexivity.
Qed.

(** Every reachable limiter keeps its limits and holds at most
    [max_requests] timestamps. *)
Lemma reachable_bounded N W self :
  (1 <= N)%Z ->
  reachable N W self ->
  max_requests self = N /\ time_window self = W /\
  (Z.of_nat (length (requests self)) <= N)%Z.
Proof.
  intros HN Hr. induction Hr as [| self now lag self' adm Hr IH Hlag Hcall].
  - cbn. repeat split; lia.
  - destruct IH as (HmN & HW & Hlen).
    destruct (wait_if_needed_step self now lag) as (s & a & Hs & H1 & H2 & H3 & _ & _);
      [lia | lia | exact Hlag |].
    rewrite Hs in Hcall. injection Hcall as <- <-.
    repeat split; congruence || lia.
Qed.

Lemma unexpired_idempotent self now reqs :
  unexpired self now (unexpired self now reqs) = unexpired self now reqs.
Proof.
  unfold unexpired. induction reqs as [| r reqs IH]; [reflexivity |].
  cbn [List.filter]. destruct (Qltb _ _) eqn:E; [| exact IH].
  cbn [List.filter]. rewrite E. now f_equal.
Qed.

(** What one call does, in full, from a state that holds at most
    [max_requests] timestamps. *)
Lemma wait_if_needed_exact self now lag :
  (1 <= max_requests self)%Z ->
  (Z.of_nat (length (requests self)) <= max_requests self)%Z ->
  (0 <= lag)%Q ->
  exists self' adm,
    wait_if_needed self now lag = (Returned adm, self') /\
    requests self'
      = unexpired self (admitted_at adm) (unexpired self now (requests self))
        ++ [admitted_at adm] /\
    (Z.of_nat (length (requests self')) <= max_requests self)%Z /\
    ((Z.of_nat (in_window self now) < max_requests self)%Z ->
     slept adm = None /\ admitted_at adm = now) /\
    ((max_requests self <= Z.of_nat (in_window self now))%Z ->
     exists oldest rest,
       unexpired self now (requests self) = oldest :: rest /\
       slept adm = Some (inject_Z (time_window self) - (now - oldest) + 1)%Q /\
       (1 < inject_Z (time_window self) - (now - oldest) + 1)%Q /\
       admitted_at adm
         = (now + (inject_Z (time_window self) - (now - oldest) + 1) + lag)%Q /\
       (inject_Z (time_window self) <= admitted_at adm - oldest)%Q).
Proof.
  intros HN Hlen Hlag. unfold wait_if_needed, in_window.
  pose proof (unexpired_length self now (requests self)) as Hle.
  pose proof (unexpired_young self now (requests self)) as Hyoung.
  pose proof (unexpired_idempotent self now (requests self)) as Hidem.
  cbn [set_requests requests max_requests time_window].
  destruct (unexpired self now (requests self)) as [| first tl] eqn:Hreqs.
  - destruct (Z.leb_spec (max_requests self) (Z.of_nat (@length Q []))) as [H | H];
      cbn [length] in H; [lia |].
    do 2 eexists. split; [reflexivity |].
    cbn [set_requests requests admitted_at slept].
    split; [reflexivity |]. split; [cbn; lia |]. split; [auto |].
    cbn [length]. lia.
  - destruct (Z.leb_spec (max_requests self) (Z.of_nat (length (first :: tl)))) as [H | H].
    + assert (Hfirst : (now - first < inject_Z (time_window self))%Q)
        by (apply Hyoung; left; reflexivity).
      set (sleep_time := (inject_Z (time_window self) - (now - first) + 1)%Q).
      assert (Hpos : Qltb 0 sleep_time = true)
        by (apply Qltb_lt; unfold sleep_time; lra).
      rewrite Hpos.
      change (unexpired (set_requests self (first :: tl)))
        with (unexpired self).
      pose proof (unexpired_drop self (now + sleep_time + lag)%Q first tl) as Hdrop.
      pose proof (unexpired_length self (now + sleep_time + lag)%Q tl) as Hle'.
      do 2 eexists. split; [reflexivity |].
      cbn [set_requests requests max_requests time_window slept admitted_at].
      split; [reflexivity |]. split.
      * rewrite Hdrop by (unfold sleep_time; lra).
        rewrite length_app. cbn [length] in *. lia.
      * split; [cbn [length] in *; lia |].
        intros _. exists first, tl. split; [reflexivity |].
        split; [reflexivity |]. split; [unfold sleep_time in *; lra |].
        split; [reflexivity |]. unfold sleep_time. lra.
    + do 2 eexists. split; [reflexivity |].
      cbn [set_requests requests max_requests time_window slept admitted_at].
      split; [now rewrite Hidem |]. split.
      * rewrite length_app. cbn [length] in *. lia.
      * split; [auto |]. cbn [length] in *. lia.
Qed.

(** C5, as amended. For limits [N >= 1] and [W], on every limiter state
    a single caller can reach by calls whose sleeps do not return early,
    and at every clock reading, [wait_if_needed] returns: it admits the
    request and never rejects it. The state it leaves holds exactly the
    timestamps that were younger than [W] on entry and still are at the
    admission, in order, followed by the new one; at that instant the
    recorded timestamps younger than [W], the new one included, number at
    most [N]. When fewer than [N] recorded timestamps are younger than [W]
    on entry, nothing is slept; when [N] or more are, the call sleeps
    [W - (now - oldest) + 1] seconds, more than one second, for the
    oldest of them, which is no longer in the window when the request is
    admitted. *)
Theorem wait_if_needed_admits N W self now lag :
  (1 <= N)%Z ->
  reachable N W self ->
  (0 <= lag)%Q ->
  exists self' adm,
    wait_if_needed self now lag = (Returned adm, self') /\
    requests self'
      = unexpired self (admitted_at adm) (unexpired self now (requests self))
        ++ [admitted_at adm] /\
    (Z.of_nat (in_window self' (admitted_at adm)) <= N)%Z /\
    ((Z.of_nat (in_window self now) < N)%Z ->
     slept adm = None /\ admitted_at adm = now) /\
    ((N <= Z.of_nat (in_window self now))%Z ->
     exists oldest rest,
       unexpired self now (requests self) = oldest :: rest /\
       slept adm = Some (inject_Z W - (now - oldest) + 1)%Q /\
       (1 < inject_Z W - (now - oldest) + 1)%Q /\
       admitted_at adm = (now + (inject_Z W - (now - oldest) + 1) + lag)%Q /\
       (inject_Z W <= admitted_at adm - oldest)%Q).
Proof.
  intros HN Hr Hlag.
  destruct (reachable_bounded N W self HN Hr) as (HmN & HW & Hlen).
  destruct (wait_if_needed_exact self now lag) as (s & a & Hs & H1 & H2 & H3 & H4);
    [lia | lia | exact Hlag |].
  exists s, a. split; [exact Hs |]. split; [exact H1 |]. split; [| split].
  - pose proof (unexpired_length s (admitted_at a) (requests s)).
    unfold in_window. lia.
  - rewrite <- HmN. exact H3.
  - rewrite <- HmN, <- HW. exact H4.
Qed.

End RateLimiterFacts.

(** ** PerformanceMonitor *)

Section DictFacts.
Context {V : Type}.

Lemma dict_set_fresh (k : string) (v : V) (d : dict V) :
  k ∉ keys d -> dict_set k v d = d ++ [(k, v)].
Proof.
  induction d as [| [k' v'] d IH]; intros Hk; [reflexivity |].
  cbn [dict_set]. unfold keys in *. cbn [map fst] in Hk.
  apply not_elem_of_cons in Hk as [Hne Hk].
  destruct (String.eqb_spec k' k) as [-> | _]; [congruence |].
  now rewrite IH.
Qed.

Lemma dict_get_last (k : string) (v : V) (d : dict V) :
  k ∉ keys d -> dict_get k (d ++ [(k, v)]) = Some v.
Proof.
  induction d as [| [k' v'] d IH]; intros Hk; cbn [dict_get app].
  - now rewrite String.eqb_refl.
  - unfold keys in *. cbn [map fst] in Hk.
    apply not_elem_of_cons in Hk as [Hne Hk].
    destruct (String.eqb_spec k' k) as [-> | _]; [congruence | now apply IH].
Qed.

Lemma keys_app (d1 d2 : dict V) : keys (d1 ++ d2) = keys d1 ++ keys d2.
Proof. apply map_app. Qed.
End DictFacts.

Lemma append_length (s1 s2 : string) :
  String.length (s1 +:+ s2) = (String.length s1 + String.length s2)%nat.
Proof.
  induction s1 as [| c s1 IH]; [reflexivity |].
  change (S (String.length (s1 +:+ s2)) = S (String.length s1 + String.length s2)).
  now f_equal.
Qed.

(** Two names with the same suffix appended are equal only if they are. *)
Lemma append_suffix_inj (suffix s1 s2 : string) :
  s1 +:+ suffix = s2 +:+ suffix -> s1 = s2.
Proof.
  revert s2. induction s1 as [| c s1 IH]; intros [| c2 s2] H.
  - reflexivity.
  - apply (f_equal String.length) in H. rewrite !append_length in H. cbn in H. lia.
  - apply (f_equal String.length) in H. rewrite !append_length in H. cbn in H. lia.
  - cbn in H. injection H as -> H. f_equal. now apply IH.
Qed.

Section PerformanceMonitorFacts.
Import Utils.
Variable fsub : Q -> Q -> Q.

Let record_step (m : PerformanceMonitor) (mark : string * Q) : PerformanceMonitor :=
  let '(name, now) := mark in checkpoint fsub m name now now.

(** Checkpoints with fresh names are appended in the order recorded. *)
Lemma record_fresh t0 marks : forall m,
  start_time m = Some t0 ->
  NoDup (keys (checkpoints m) ++ map fst marks) ->
  checkpoints (fold_left record_step marks m) = checkpoints m ++ elapsed fsub t0 marks.
Proof.
  induction marks as [| [name now] marks IH]; intros m Hs Hnd; cbn [fold_left].
  - cbn. now rewrite app_nil_r.
  - cbn [map fst] in Hnd.
    assert (Hfresh : name ∉ keys (checkpoints m)).
    { apply NoDup_app in Hnd as (_ & Hdisj & _). intros Hin.
      apply (Hdisj _ Hin). left. }
    rewrite IH.
    + cbn [record_step checkpoint checkpoints]. rewrite Hs.
      rewrite dict_set_fresh by exact Hfresh.
      now rewrite <- app_assoc.
    + cbn [record_step checkpoint start_time]. now rewrite Hs.
    + cbn [record_step checkpoint checkpoints]. rewrite Hs.
      rewrite dict_set_fresh by exact Hfresh.
      rewrite keys_app. cbn. rewrite <- app_assoc. exact Hnd.
Qed.

Lemma record_all_checkpoints t0 marks :
  NoDup (map fst marks) ->
  checkpoints (record_all fsub t0 marks) = elapsed fsub t0 marks.
Proof.
  intros Hnd. unfold record_all.
  change (fun (m : PerformanceMonitor) '(name, now) => checkpoint fsub m name now now)
    with record_step.
  now rewrite (record_fresh t0 marks).
Qed.

Lemma keys_elapsed t0 marks : keys (elapsed fsub t0 marks) = map fst marks.
Proof.
  unfold keys, elapsed. rewrite map_map. apply map_ext. now intros [n t].
Qed.

Lemma keys_durations items : forall prev,
  keys (durations fsub prev items) = map (fun n => n +:+ "_duration") (keys items).
Proof.
  induction items as [| [n e] items IH]; intros prev; [reflexivity |].
  cbn. f_equal. apply IH.
Qed.

(** When the summary keys are fresh the loop appends one entry per
    checkpoint. *)
Lemma summary_loop_fresh items : forall prev summary,
  NoDup (keys summary ++ map (fun n => n +:+ "_duration") (keys items)) ->
  summary_loop fsub items prev summary = summary ++ durations fsub prev items.
Proof.
  induction items as [| [n e] items IH]; intros prev summary Hnd; cbn [summary_loop durations].
  - now rewrite app_nil_r.
  - cbn [keys map fst] in Hnd.
    assert (Hfresh : n +:+ "_duration" ∉ keys summary).
    { apply NoDup_app in Hnd as (_ & Hdisj & _). intros Hin.
      apply (Hdisj _ Hin). left. }
    rewrite dict_set_fresh by exact Hfresh.
    rewrite IH.
    + now rewrite <- app_assoc.
    + rewrite keys_app. cbn. rewrite <- app_assoc. exact Hnd.
Qed.

Lemma duration_entries_durations items : forall prev,
  "total" ∉ keys items ->
  duration_entries (durations fsub prev items) = durations fsub prev items.
Proof.
  induction items as [| [n e] items IH]; intros prev Hk; [reflexivity |].
  cbn [keys map fst] in Hk. apply not_elem_of_cons in Hk as [Hne Hk].
  cbn [durations duration_entries List.filter].
  destruct (String.eqb_spec (n +:+ "_duration") "total_duration") as [Heq | _].
  - exfalso. apply Hne. symmetry.
    apply (append_suffix_inj "_duration"). exact Heq.
  - cbn [negb]. f_equal. apply IH. exact Hk.
Qed.

(** [max] returns one of its operands, and none is larger. *)
Lemma py_max_spec xs : forall x,
  py_max x xs ∈ x :: xs /\ forall y, y ∈ x :: xs -> (y <= py_max x xs)%Q.
Proof.
  induction xs as [| z xs IH]; intros x; cbn [py_max fold_left].
  - split; [left |]. intros y Hy. apply list_elem_of_singleton in Hy as ->. lra.
  - change (fold_left _ xs ?b) with (py_max b xs).
    destruct (Qltb x z) eqn:E.
    + apply Qltb_lt in E. destruct (IH z) as [Hin Hmax].
      split; [right; exact Hin |].
      intros y Hy. apply elem_of_cons in Hy as [-> | Hy].
      * specialize (Hmax z ltac:(left)). lra.
      * apply Hmax. exact Hy.
    + apply Qltb_ge in E. destruct (IH x) as [Hin Hmax].
      split.
      * apply elem_of_cons in Hin as [-> | Hin]; [left | right; right; exact Hin].
      * intros y Hy. apply elem_of_cons in Hy as [-> | Hy]; [apply Hmax; left |].
        apply elem_of_cons in Hy as [-> | Hy].
        -- specialize (Hmax x ltac:(left)). lra.
        -- apply Hmax. right. exact Hy.
Qed.

End PerformanceMonitorFacts.

Section PerformanceMonitorSummary.
Import Utils.
Variable fsub : Q -> Q -> Q.

Lemma duration_keys_NoDup (names : list string) :
  NoDup names -> NoDup (map (fun n => n +:+ "_duration") names).
Proof.
  induction 1 as [| n names Hn Hnd IH]; cbn [map]; constructor; [| exact IH].
  intros Hin. apply list_elem_of_In, in_map_iff in Hin as (n' & Heq & Hin').
  apply append_suffix_inj in Heq as ->. apply Hn. now apply list_elem_of_In.
Qed.

Lemma total_key_fresh (names : list string) :
  "total" ∉ names -> "total_duration" ∉ map (fun n => n +:+ "_duration") names.
Proof.
  intros Hn Hin. apply list_elem_of_In, in_map_iff in Hin as (n' & Heq & Hin').
  apply (append_suffix_inj "_duration" n' "total") in Heq as ->.
  apply Hn. now apply list_elem_of_In.
Qed.

(** With distinct names, none of them ["total"], the summary is the list
    of durations followed by the total. *)
Lemma get_summary_distinct t0 marks name t :
  let all := marks ++ [(name, t)] in
  NoDup (map fst all) ->
  "total" ∉ map fst all ->
  exists first rest,
    values (elapsed fsub t0 all) = first :: rest /\
    get_summary fsub (record_all fsub t0 all)
      = durations fsub 0 (elapsed fsub t0 all) ++ [("total_duration", py_max first rest)].
Proof.
  intros all Hnd Htotal.
  unfold get_summary. rewrite record_all_checkpoints by exact Hnd.
  destruct (elapsed fsub t0 all) as [| [n e] rest] eqn:He.
  { exfalso. unfold all, elapsed in He. rewrite map_app in He.
    now destruct (map _ marks). }
  exists e, (values rest). split; [reflexivity |].
  rewrite <- He.
  assert (Hk : keys (elapsed fsub t0 all) = map fst all) by apply keys_elapsed.
  rewrite summary_loop_fresh.
  - cbn [app]. apply dict_set_fresh.
    rewrite keys_durations, Hk. now apply total_key_fresh.
  - cbn [keys map app]. fold (keys (elapsed fsub t0 all)). rewrite Hk.
    now apply duration_keys_NoDup.
Qed.

(** The entry at one index of the durations: the elapsed time of its
    checkpoint less the one before it, 0 before the first. *)
Lemma durations_lookup items : forall prev i n e,
  items !! i = Some (n, e) ->
  durations fsub prev items !! i
    = Some (n +:+ "_duration",
            fsub e (match i with
                    | O => prev
                    | S j => match items !! j with Some (_, e') => e' | None => prev end
                    end)).
Proof.
  induction items as [| [n0 e0] items IH]; intros prev i n e Hi; [discriminate Hi |].
  destruct i as [| i].
  - injection Hi as <- <-. reflexivity.
  - simpl in Hi. simpl. etransitivity; [exact (IH e0 i n e Hi) |]. do 3 f_equal.
    destruct i as [| k]; [reflexivity |]. simpl.
    change (@lookup nat (string * Q) (dict Q) _ k items)
      with (@lookup nat (string * Q) (list (string * Q)) _ k items).
    destruct (items !! k) as [[n1 e1] |] eqn:Hk; [reflexivity |].
    apply lookup_lt_Some in Hi. apply lookup_ge_None in Hk. lia.
Qed.

Lemma elapsed_lookup t0 marks : forall j,
  elapsed fsub t0 marks !! j
    = option_map (fun '(n, now) => (n, fsub now t0)) (marks !! j).
Proof.
  induction marks as [| [n now] marks IH]; intros [| j]; try reflexivity.
  apply IH.
Qed.

(** C10, as amended. After [start()] at [t0] and the checkpoints
    [marks] followed by a last one [(name, t)], all with distinct names
    and none named ["total"]: [get_summary] holds one
    ["<name>_duration"] entry per checkpoint, in order; the value of each
    is the float difference between the elapsed time recorded for its
    checkpoint and the one recorded for the checkpoint before it, 0
    before the first; and ["total_duration"] is the largest recorded
    elapsed time. Without checkpoints the summary is empty. Nothing is
    stated about the sum of the values, which the rounding of each
    difference separates from the last elapsed time. *)
Theorem get_summary_telescopes t0 marks name t :
  let all := marks ++ [(name, t)] in
  let summary := get_summary fsub (record_all fsub t0 all) in
  NoDup (map fst all) ->
  "total" ∉ map fst all ->
  keys summary = map (fun n => n +:+ "_duration") (map fst all) ++ ["total_duration"] /\
  length (duration_entries summary) = length all /\
  (forall i n' t',
      all !! i = Some (n', t') ->
      duration_entries summary !! i
        = Some (n' +:+ "_duration",
                fsub (fsub t' t0)
                     (match i with
                      | O => 0
                      | S j => match all !! j with
                               | Some (_, t'') => fsub t'' t0
                               | None => 0
                               end
                      end))) /\
  (exists mx, dict_get "total_duration" summary = Some mx /\
     (forall n' t', (n', t') ∈ all -> (fsub t' t0 <= mx)%Q) /\
     (exists n' t', (n', t') ∈ all /\ mx = fsub t' t0)) /\
  get_summary fsub (record_all fsub t0 []) = [] /\
  get_summary fsub PerformanceMonitor_init = [].
Proof.
  intros all summary Hnd Htotal.
  destruct (get_summary_distinct t0 marks name t Hnd Htotal)
    as (first & rest & Hvals & Hsum).
  fold all in Hvals, Hsum. fold summary in Hsum.
  assert (Hk : keys (durations fsub 0 (elapsed fsub t0 all))
               = map (fun n => n +:+ "_duration") (map fst all))
    by (now rewrite keys_durations, keys_elapsed).
  assert (Hde : duration_entries summary = durations fsub 0 (elapsed fsub t0 all)).
  { rewrite Hsum. unfold duration_entries. rewrite List.filter_app. cbn.
    rewrite app_nil_r. apply duration_entries_durations.
    now rewrite keys_elapsed. }
  split; [| split; [| split; [| split; [| split; reflexivity]]]].
  - rewrite Hsum, keys_app, Hk. reflexivity.
  - rewrite Hde.
    transitivity (length (keys (durations fsub 0 (elapsed fsub t0 all))));
      [unfold keys; now rewrite length_map |].
    rewrite Hk. now rewrite !length_map.
  - intros i n' t' Hi. rewrite Hde.
    pose proof (elapsed_lookup t0 all) as Hel.
    rewrite (durations_lookup (elapsed fsub t0 all) 0 i n' (fsub t' t0))
      by (rewrite Hel, Hi; reflexivity).
    destruct i as [| j]; [reflexivity |].
    rewrite Hel. assert (Hj : is_Some (all !! j)).
    { apply lookup_lt_is_Some. apply lookup_lt_Some in Hi. lia. }
    destruct Hj as [[n'' t''] ->]. reflexivity.
  - exists (py_max first rest). split.
    + rewrite Hsum. apply dict_get_last. rewrite Hk. now apply total_key_fresh.
    + destruct (py_max_spec rest first) as [Hin Hmax]. rewrite <- Hvals in Hin, Hmax.
      split.
      * intros n' t' Hin'. apply Hmax.
        apply list_elem_of_In. unfold values, elapsed. rewrite map_map.
        apply in_map_iff. exists (n', t'). split; [reflexivity |].
        now apply list_elem_of_In.
      * apply list_elem_of_In in Hin. unfold values, elapsed in Hin.
        rewrite map_map in Hin. apply in_map_iff in Hin as ([n' t'] & Heq & Hin').
        exists n', t'. split; [now apply list_elem_of_In | now rewrite <- Heq].
Qed.

End PerformanceMonitorSummary.

(** ** ConfigManager *)

Section ConfigFacts.
Import Config.
Variable int : string -> outcome Z.
Variable upper : string -> string.
Variable environ : gmap string string.

Lemma not_in_012_spec (x : Z) :
  not_in_012 x = true <-> ~ (x = 0 \/ x = 1 \/ x = 2)%Z.
Proof.
  unfold not_in_012.
  destruct (Z.eqb_spec x 0), (Z.eqb_spec x 1), (Z.eqb_spec x 2); cbn;
    split; intros H; try discriminate; try reflexivity; try lia;
    exfalso; apply H; lia.
Qed.

Lemma valid_level_spec (s : string) :
  existsb (String.eqb s) valid_log_levels = true <-> In s valid_log_levels.
Proof.
  rewrite existsb_exists. split.
  - intros (x & Hin & Heq). apply String.eqb_eq in Heq. now subst.
  - intros Hin. exists s. split; [exact Hin | apply String.eqb_refl].
Qed.

(** [_validate_config] raises a [ValueError] exactly on the settings
    that are out of range. *)
Lemma validate_config_spec (config : Config) :
  (out_of_range upper config ->
   exists msg, _validate_config upper config = Raised (ValueError msg)) /\
  (~ out_of_range upper config -> _validate_config upper config = Returned tt).
Proof.
  unfold _validate_config, out_of_range.
  destruct (not_in_012 (note_type config)) eqn:E1.
  { split; [eauto |]. intros H. exfalso. apply H. left. now apply not_in_012_spec. }
  destruct (not_in_012 (sort config)) eqn:E2.
  { split; [eauto |]. intros H. exfalso. apply H. right; left. now apply not_in_012_spec. }
  destruct (Z.leb_spec (total_number config) 0) as [E3 | E3].
  { split; [eauto |]. intros H. exfalso. apply H. tauto. }
  destruct (existsb _ valid_log_levels) eqn:E4; cbn [negb].
  2:{ split; [eauto |]. intros H. exfalso. apply H. do 3 right. left.
      intros Hin. apply valid_level_spec in Hin. congruence. }
  destruct (Z.leb_spec (request_timeout config) 0) as [E5 | E5].
  { split; [eauto |]. intros H. exfalso. apply H. tauto. }
  destruct (Z.ltb_spec (max_retries config) 0) as [E6 | E6].
  { split; [eauto |]. intros H. exfalso. apply H. tauto. }
  split; [| reflexivity].
  intros [H | [H | [H | [H | [H | H]]]]]; exfalso.
  - apply not_in_012_spec in H. congruence.
  - apply not_in_012_spec in H. congruence.
  - lia.
  - apply H. now apply valid_level_spec.
  - lia.
  - lia.
Qed.

(** C9, as amended. When the six required settings are set and the six
    numeric settings parse, [get_config] raises a [ValueError] whenever
    the note type or the sort is outside {0, 1, 2}, the result cap or the
    request timeout is not positive, the retry count is negative (zero
    retries are allowed), or the upper-cased log level is not one of
    DEBUG, INFO, WARNING, ERROR; and when each of these is in range and
    the default scene count is positive, it returns the [Config] holding
    every setting of the environment, with the default where one is
    unset. Nothing is stated for a default scene count that is not
    positive. *)
Theorem get_config_validates (scenes note_type sort total timeout retries : Z) :
  missing_configs environ = [] ->
  int (getenv_or environ "DEFAULT_SCENE_COUNT" "3") = Returned scenes ->
  int (getenv_or environ "NOTE_TYPE" "2") = Returned note_type ->
  int (getenv_or environ "SORT" "2") = Returned sort ->
  int (getenv_or environ "TOTAL_NUMBER" "2") = Returned total ->
  int (getenv_or environ "REQUEST_TIMEOUT" "30") = Returned timeout ->
  int (getenv_or environ "MAX_RETRIES" "3") = Returned retries ->
  let config := config_of environ scenes note_type sort total timeout retries in
  (out_of_range upper config ->
   exists msg, get_config int upper environ = Raised (ValueError msg)) /\
  (~ out_of_range upper config ->
   (0 < scenes)%Z ->
   get_config int upper environ = Returned config).
Proof.
  intros Hreq H1 H2 H3 H4 H5 H6 config.
  unfold get_config. rewrite Hreq, H1, H2, H3, H4, H5, H6.
  cbn [mbind outcome_bind]. fold config.
  destruct (validate_config_spec config) as [Hbad Hgood].
  split.
  - intros H. destruct (Hbad H) as [msg ->]. now exists msg.
  - intros H _. now rewrite (Hgood H).
Qed.

(** A required setting that is unset or empty stops the load. *)
Lemma get_config_missing :
  missing_configs environ <> [] ->
  exists msg, get_config int upper environ = Raised (ValueError msg).
Proof.
  intros H. unfold get_config. destruct (missing_configs environ); [congruence |].
  eexists; reflexivity.
Qed.

End ConfigFacts.

(** ** StoryboardGenerator *)

Section StoryboardFacts.
Import VideoGenerator.
Variable json_loads : string -> outcome json.
Variable prompt_of : string -> Z -> string.

(** C6. Whatever the collaborator's text (or value) is and whatever
    [json.loads] does on it, [_parse_storyboard_response] returns and
    never raises; when the text has no opening or no closing brace the
    result is the empty sequence; and when [json.loads] raises on the
    located payload the result is the empty sequence and the error is
    written to the log. *)
Theorem parse_storyboard_never_raises (response_text : json) :
  (exists scenes,
      fst (_parse_storyboard_response json_loads response_text) = Returned scenes) /\
  (forall text,
      response_text = JStr text ->
      find "{" text = (-1)%Z \/ (rfind "}" text + 1)%Z = 0%Z ->
      fst (_parse_storyboard_response json_loads response_text) = Returned []) /\
  (forall text e,
      response_text = JStr text ->
      find "{" text <> (-1)%Z -> (rfind "}" text + 1)%Z <> 0%Z ->
      json_loads (slice text (find "{" text) (rfind "}" text + 1)) = Raised e ->
      fst (_parse_storyboard_response json_loads response_text) = Returned [] /\
      exists msg, In (ERROR, msg +:+ exn_str e)
                     (snd (_parse_storyboard_response json_loads response_text))).
Proof.
  split; [| split].
  - unfold _parse_storyboard_response.
    destruct (parse_try json_loads response_text) as [[scenes | e] lg].
    + now exists scenes.
    + exists []. now destruct (String.eqb _ _).
  - intros text -> Hnone.
    unfold _parse_storyboard_response, parse_try.
    destruct (Z.eqb_spec (find "{" text) (-1)) as [_ | H1]; [reflexivity |].
    destruct (Z.eqb_spec (rfind "}" text + 1) 0) as [_ | H2]; [reflexivity | lia].
  - intros text e -> H1 H2 Hloads.
    unfold _parse_storyboard_response, parse_try.
    destruct (Z.eqb_spec (find "{" text) (-1)) as [? | _]; [contradiction |].
    destruct (Z.eqb_spec (rfind "}" text + 1) 0) as [? | _]; [contradiction |].
    cbn [orb]. rewrite Hloads. cbn [mbind outcome_bind].
    destruct (String.eqb (exn_kind e) "JSONDecodeError");
      (split; [reflexivity | eexists; left; reflexivity]).
Qed.

(** Entries that are all objects yield one scene each, in order. *)
Lemma scenes_loop_dicts (dicts : list (dict json)) : forall scenes,
  scenes_loop (map JObj dicts) scenes
    = Returned (scenes ++ map scene_from_dict dicts).
Proof.
  induction dicts as [| d dicts IH]; intros scenes; cbn [map scenes_loop].
  - now rewrite app_nil_r.
  - cbn [scene_of mbind outcome_bind]. rewrite IH. now rewrite <- app_assoc.
Qed.

(** The requested count reaches the prompt and the log, nothing else: for
    the same answer of the collaborator the scenes are the same. *)
Lemma generate_storyboard_ignores_count post content n n' :
  post (storyboard_request prompt_of content n')
    = post (storyboard_request prompt_of content n) ->
  fst (generate_storyboard json_loads prompt_of post content n')
    = fst (generate_storyboard json_loads prompt_of post content n).
Proof.
  intros Hsame. unfold generate_storyboard. rewrite Hsame. clear Hsame.
  destruct (post (storyboard_request prompt_of content n)) as [resp | e];
    [| reflexivity].
  destruct (resp_status resp =? 200)%Z; [| reflexivity].
  destruct (_ ← resp_json resp; _) as [text | e]; [| reflexivity].
  now destruct (_parse_storyboard_response json_loads text) as [[scenes | e] lg].
Qed.

(** C7, as the code has it. For one and the same answer of the
    collaborator, the scenes returned do not depend on the requested count
    [n]; when the collaborator answers 200 with a text whose located
    payload decodes to an object listing the objects [dicts] under
    ["scenes"], exactly one scene per listed entry is returned, in order:
    never padded, and as many as listed even when that is more than [n]. *)
Theorem generate_storyboard_length post content (n : Z) :
  (forall n',
      post (storyboard_request prompt_of content n')
        = post (storyboard_request prompt_of content n) ->
      fst (generate_storyboard json_loads prompt_of post content n')
        = fst (generate_storyboard json_loads prompt_of post content n)) /\
  (forall resp body text data dicts,
      post (storyboard_request prompt_of content n) = Returned resp ->
      resp_status resp = 200%Z ->
      resp_json resp = Returned body ->
      (choices ← getitem body "choices";
       choice ← getitem0 choices;
       message ← getitem choice "message";
       getitem message "content") = Returned (JStr text) ->
      find "{" text <> (-1)%Z -> (rfind "}" text + 1)%Z <> 0%Z ->
      json_loads (slice text (find "{" text) (rfind "}" text + 1))
        = Returned (JObj data) ->
      get data "scenes" (JArr []) = JArr (map JObj dicts) ->
      fst (generate_storyboard json_loads prompt_of post content n)
        = map scene_from_dict dicts /\
      length (fst (generate_storyboard json_loads prompt_of post content n))
        = length dicts).
Proof.
  split; [intros n'; apply generate_storyboard_ignores_count |].
  intros resp body text data dicts Hpost Hst Hbody Hpath H1 H2 Hloads Hscenes.
  assert (Hgen : fst (generate_storyboard json_loads prompt_of post content n)
                 = map scene_from_dict dicts).
  { unfold generate_storyboard. rewrite Hpost, Hst. cbn [Z.eqb Pos.eqb].
    rewrite Hbody. cbn [mbind outcome_bind] in *. rewrite Hpath.
    unfold _parse_storyboard_response, parse_try.
    destruct (Z.eqb_spec (find "{" text) (-1)) as [? | _]; [contradiction |].
    destruct (Z.eqb_spec (rfind "}" text + 1) 0) as [? | _]; [contradiction |].
    cbn [orb]. rewrite Hloads. cbn [mbind outcome_bind].
    rewrite Hscenes. cbn [iterate mbind outcome_bind].
    rewrite scenes_loop_dicts. reflexivity. }
  split; [exact Hgen |]. rewrite Hgen. apply length_map.
Qed.

End StoryboardFacts.

(** ** DoubaoSeedanceAPI *)

Section SynthesisFacts.
Import VideoGenerator.
Variable str_ : json -> string.
Variable strftime : Q -> string.
Variable path_join : string -> string -> string.

(** What holds of every outcome of [generate_video]: it is returned, not
    raised; its status is ["success"] or ["failed"]; a success carries
    the artifact URL and the elapsed time; a failure carries an error
    description. The local path of a success is whatever
    [_download_video] returned. *)
Lemma generate_video_fields io scene output_dir :
  exists r,
    fst (generate_video str_ strftime path_join io scene output_dir) = Returned r /\
    (status r = "success" \/ status r = "failed") /\
    (status r = "success" ->
       is_Some (video_url r) /\ is_Some (generation_time r) /\
       exists url, video_url r = Some url /\
         video_path r = fst (_download_video str_ strftime path_join io url
                               (scene_id scene) output_dir)) /\
    (status r = "failed" -> is_Some (error_message r)).
Proof.
  unfold generate_video, generate_video_try.
  destruct (_ ← makedirs io; _) as [resp | e]; cbn [fst].
  2:{ eexists; split; [reflexivity |]; cbn; split; [now right |]; split;
      [discriminate | eauto]. }
  destruct (resp_status resp =? 200)%Z.
  - destruct (resp_json resp) as [body | e].
    2:{ eexists; split; [reflexivity |]; cbn; split; [now right |]; split;
        [discriminate | eauto]. }
    destruct body;
      try (eexists; split; [reflexivity |]; cbn; split; [now right |]; split;
           [discriminate | eauto]).
    destruct (truthy (get members "video_url" JNull)).
    + destruct (_download_video _ _ _ _ _ _ _) as [path lg'] eqn:Hd. cbn [fst].
      eexists; split; [reflexivity |].
      cbn [status video_url generation_time video_path error_message].
      split; [now left |]. split; [| discriminate].
      intros _. split; [eauto |]. split; [eauto |].
      eexists. split; [reflexivity |]. now rewrite Hd.
    + eexists; split; [reflexivity |]; cbn; split; [now right |]; split;
        [discriminate | eauto].
  - destruct (resp_text resp) as [error_text | e];
      (eexists; split; [reflexivity |]; cbn; split; [now right |]; split;
       [discriminate | eauto]).
Qed.

(** The download yields no path when the GET does not answer 200. *)
Lemma download_video_not_found io url sid output_dir code copy :
  fetch io url (path_join output_dir
                  (str_ sid +:+ "_" +:+ strftime (download_at io) +:+ ".mp4"))
    = Returned (code, copy) ->
  code <> 200%Z ->
  fst (_download_video str_ strftime path_join io url sid output_dir) = None.
Proof.
  intros Hf Hc. unfold _download_video. rewrite Hf.
  destruct (Z.eqb_spec code 200); [contradiction | reflexivity].
Qed.

End SynthesisFacts.

(** ** WorkflowProcessor *)

Section WorkflowFacts.
Import Main.
Variable World : Type.
Variable search_notes : string -> Z -> Z -> Z -> World -> outcome (list XHSNote) * World.
Variable read_note_content : string -> World -> outcome (option NoteContent) * World.
Variable process_content : string -> World -> outcome (option string) * World.
Variable process_video_workflow : string -> Z -> World -> outcome json * World.
Variable add_database_item : string -> list property -> World -> outcome bool * World.
Variable today : World -> string.
Variable str_ : json -> string.
Variable config : config_dict.

Let item := process_note World read_note_content process_content
              process_video_workflow add_database_item today str_ config.
Let loop := notes_loop World read_note_content process_content
              process_video_workflow add_database_item today str_ config.
Let run := process_workflow World search_notes read_note_content process_content
             process_video_workflow add_database_item today str_ config.

Let turn := guarded World read_note_content process_content
              process_video_workflow add_database_item today str_ config.

Lemma guarded_returns note st :
  exists r st', turn note st = (Returned r, st').
Proof.
  unfold turn, guarded, try_except. fold item.
  destruct (item note st) as [[r | e] st']; eauto.
Qed.

Lemma notes_loop_cons note notes acc st :
  loop (note :: notes) acc st
    = match turn note st with
      | (Returned r, st') =>
        loop notes (match r with Some result => acc ++ [result] | None => acc end) st'
      | (Raised e, st') => (Raised e, st')
      end.
Proof. reflexivity. Qed.

(** The loop never raises, and only appends to the results it is given. *)
Lemma notes_loop_returns notes : forall acc st,
  exists rs st', loop notes acc st = (Returned (acc ++ rs), st') /\
                 loop notes [] st = (Returned rs, st').
Proof.
  induction notes as [| note notes IH]; intros acc st.
  - exists [], st. cbn. now rewrite app_nil_r.
  - rewrite !notes_loop_cons.
    destruct (guarded_returns note st) as (r & st1 & ->).
    destruct r as [result |].
    + destruct (IH (acc ++ [result]) st1) as (rs & st' & H1 & H2).
      destruct (IH ([] ++ [result]) st1) as (rs' & st'' & H3 & H4).
      rewrite H2 in H4. injection H4 as <- <-.
      exists (result :: rs), st'. rewrite H1, H3.
      now rewrite <- app_assoc.
    + destruct (IH acc st1) as (rs & st' & H1 & H2).
      exists rs, st'. now rewrite H1, H2.
Qed.

Lemma notes_loop_app pre post : forall acc st rs st1,
  loop pre [] st = (Returned rs, st1) ->
  loop (pre ++ post) acc st = loop post (acc ++ rs) st1.
Proof.
  induction pre as [| note pre IH]; intros acc st rs st1 Hpre.
  - cbn in Hpre. injection Hpre as <- <-. now rewrite app_nil_r.
  - cbn [app]. rewrite notes_loop_cons in Hpre. rewrite notes_loop_cons.
    destruct (guarded_returns note st) as (r & st0 & Hg). rewrite Hg in Hpre |- *.
    destruct r as [result |].
    + destruct (notes_loop_returns pre ([] ++ [result]) st0) as (rs0 & st' & H1 & H2).
      rewrite H1 in Hpre. injection Hpre as <- <-.
      rewrite (IH (acc ++ [result]) st0 rs0 st' H2).
      now rewrite <- app_assoc.
    + now apply IH.
Qed.

(** What the search is called with. *)
Let search keyword :=
  search_notes keyword (get_or (note_type config) 2%Z) (get_or (sort config) 2%Z)
    (get_or (total_number config) 2%Z).

(** The log once the search has returned [notes]. *)
Let searched (lg : log) keyword (notes : list XHSNote) : log :=
  (lg ++ [(INFO, "开始处理工作流，关键词: " +:+ keyword)])
     ++ [(INFO, "找到 " +:+ str_of_Z (Z.of_nat (length notes)) +:+ " 条笔记")].

(** After a search that found notes, the report is built from whatever
    the loop collected. *)
Lemma process_workflow_found keyword w lg notes w1 rs st' :
  search keyword w = (Returned notes, w1) ->
  notes <> [] ->
  loop notes [] (w1, searched lg keyword notes) = (Returned rs, st') ->
  run keyword (w, lg) = (Returned (success_report rs), st').
Proof.
  intros Hsearch Hne Hloop.
  unfold run, process_workflow, try_except, mbind, M_bind, emit, call.
  cbn [fst snd]. fold (search keyword). rewrite Hsearch.
  destruct notes as [| note notes]; [congruence |].
  cbn [fst snd]. fold loop. unfold searched in Hloop.
  match goal with
  | |- context [loop ?ns ?acc ?st] =>
    replace (loop ns acc st) with (Returned rs, st') by (symmetry; exact Hloop)
  end.
  reflexivity.
Qed.

(** C1, as the code has it. Whenever the search returns at least one
    item the run returns a report whose success flag is true, whatever
    number of items produced a result (none included), and whose message
    states the number of results collected. *)
Theorem process_workflow_success_flag keyword w lg notes w1 :
  search keyword w = (Returned notes, w1) ->
  notes <> [] ->
  exists rs st',
    loop notes [] (w1, searched lg keyword notes) = (Returned rs, st') /\
    run keyword (w, lg) = (Returned (success_report rs), st') /\
    success (success_report rs) = true /\
    message (success_report rs)
      = "成功处理 " +:+ str_of_Z (Z.of_nat (length rs)) +:+ " 条笔记".
Proof.
  intros Hsearch Hne.
  destruct (notes_loop_returns notes [] (w1, searched lg keyword notes))
    as (rs & st' & _ & Hloop).
  exists rs, st'. split; [exact Hloop |]. split; [| split; reflexivity].
  now apply (process_workflow_found keyword w lg notes w1).
Qed.

(** A note whose content cannot be fetched, because the reader returns
    [None] or raises, ends its turn with nothing to append and one more
    line in the log. *)
Lemma guarded_fetch_fails note w lg failure w2 :
  read_note_content (note_url note) w = (failure, w2) ->
  failure = Returned None \/ (exists e, failure = Raised e) ->
  exists lv msg,
    (lv = WARNING \/ lv = ERROR) /\
    turn note (w, lg) = (Returned None, (w2, lg ++ [(lv, msg)])).
Proof.
  intros Hread Hfail.
  unfold turn, guarded, try_except, process_note, mbind, M_bind, call.
  cbn [fst snd]. rewrite Hread.
  destruct Hfail as [-> | [e ->]].
  - do 2 eexists. split; [left; reflexivity | reflexivity].
  - do 2 eexists. split; [right; reflexivity | reflexivity].
Qed.

(** C2, as the code has it. When the fetch of one item [bad] fails, the
    items after it are processed just as a run over them alone from the
    state the failure left, the run report lists the results of the
    items before and after [bad] and has no entry for [bad], and the
    failure is kept only as a line of the log. *)
Theorem process_workflow_isolates_fetch_failure
    keyword w lg pre bad post w1 rs1 w_pre lg_pre failure w2 :
  search keyword w = (Returned (pre ++ bad :: post), w1) ->
  loop pre [] (w1, searched lg keyword (pre ++ bad :: post))
    = (Returned rs1, (w_pre, lg_pre)) ->
  read_note_content (note_url bad) w_pre = (failure, w2) ->
  failure = Returned None \/ (exists e, failure = Raised e) ->
  exists rs2 st2 lv msg,
    (lv = WARNING \/ lv = ERROR) /\
    loop post [] (w2, lg_pre ++ [(lv, msg)]) = (Returned rs2, st2) /\
    run keyword (w, lg) = (Returned (success_report (rs1 ++ rs2)), st2).
Proof.
  intros Hsearch Hpre Hread Hfail.
  destruct (guarded_fetch_fails bad w_pre lg_pre failure w2 Hread Hfail)
    as (lv & msg & Hlv & Hturn).
  destruct (notes_loop_returns post [] (w2, lg_pre ++ [(lv, msg)]))
    as (rs2 & st2 & _ & Hpost).
  exists rs2, st2, lv, msg. split; [exact Hlv |]. split; [exact Hpost |].
  apply (process_workflow_found keyword w lg (pre ++ bad :: post) w1);
    [exact Hsearch | now destruct pre |].
  rewrite (notes_loop_app pre (bad :: post) [] _ rs1 _ Hpre).
  rewrite notes_loop_cons, Hturn. cbn [app].
  destruct (notes_loop_returns post rs1 (w2, lg_pre ++ [(lv, msg)]))
    as (rs2' & st2' & H1 & H2).
  rewrite Hpost in H2. injection H2 as <- <-. exact H1.
Qed.

End WorkflowFacts.

(** * The properties at concrete inputs *)

Section RetryExamples.
Import Utils Observations Samples.

(** The delays of the default handler are far from the floats' limit. *)
Lemma default_delays_finite i :
  (Z.of_nat i < 3)%Z -> finite_delay RetryHandler_default coin i.
Proof.
  intros Hi. destruct i as [| [| [| i]]]; [| | | lia];
    repeat split; vm_compute; reflexivity.
Defined.

(** The default handler on an operation that fails twice, and on one that
    always fails. *)
Lemma execute_with_retry_contract_witness :
  (fst (execute_with_retry RetryHandler_default flaky coin) = Returned 7%Z /\
   invocations (snd (execute_with_retry RetryHandler_default flaky coin)) = (2 + 1)%nat) /\
  (fst (execute_with_retry RetryHandler_default hopeless coin)
     = Raised (timeout_of (Z.to_nat 3)) /\
   Z.of_nat (invocations (snd (execute_with_retry RetryHandler_default hopeless coin)))
     = (3 + 1)%Z).
Proof.
  split.
  - apply (proj1 (execute_with_retry_contract RetryHandler_default flaky coin
                    ltac:(cbn; lia)) 2%nat 7%Z).
    + cbn. lia.
    + intros i Hi. destruct i as [| [| i]]; [eexists; reflexivity .. | lia].
    + intros i Hi. apply default_delays_finite. lia.
    + reflexivity.
  - apply (proj2 (execute_with_retry_contract RetryHandler_default hopeless coin
                    ltac:(cbn; lia)) timeout_of).
    + intros i. reflexivity.
    + intros i Hi. apply default_delays_finite. exact Hi.
Defined.

(** C3 fails for a configuration without attempts: with
    [max_retries = -1] an operation that fails on every invocation is
    never invoked, and what is raised is no failure of the operation but
    the [TypeError] of [raise None]. *)
Lemma execute_with_retry_without_attempts :
  execute_with_retry unarmed hopeless coin
    = (Raised (TypeError "exceptions must derive from BaseException"), []).
Proof. reflexivity. Qed.

(** C3 fails when the backoff overflows: with
    [RetryHandler(3, 0.0, 1e200)] the operation that always fails is
    invoked three times, not four, two sleeps are made, and the
    [OverflowError] of [1e200 ** 2] is raised in place of the last
    failure. *)
Lemma execute_with_retry_backoff_overflow :
  fst (execute_with_retry reckless hopeless coin)
    = Raised (OverflowError "(34, 'Numerical result out of range')") /\
  invocations (snd (execute_with_retry reckless hopeless coin)) = 3%nat /\
  length (sleeps (snd (execute_with_retry reckless hopeless coin))) = 2%nat.
Proof. repeat split; vm_compute; reflexivity. Qed.


End RetryExamples.

Section RateLimiterExamples.
Import Utils Samples.

(** The limiter that admitted one request at time 0 is reachable. *)
Lemma busy_limiter_reachable : reachable 1 60 busy_limiter.
Proof.
  apply (reachable_call 1 60 (RateLimiter_init 1 60) 0%Q 0%Q busy_limiter
           {| admitted_at := 0%Q; slept := None |}).
  - constructor.
  - vm_compute. discriminate.
  - reflexivity.
Defined.

(** A second request ten seconds after the first, one allowed per
    minute: the call sleeps 51 seconds and the first timestamp is gone. *)
Lemma wait_if_needed_admits_witness :
  exists self' adm,
    wait_if_needed busy_limiter 10 0 = (Returned adm, self') /\
    requests self'
      = unexpired busy_limiter (admitted_at adm)
          (unexpired busy_limiter 10 (requests busy_limiter))
        ++ [admitted_at adm] /\
    (Z.of_nat (in_window self' (admitted_at adm)) <= 1)%Z /\
    ((Z.of_nat (in_window busy_limiter 10) < 1)%Z ->
     slept adm = None /\ admitted_at adm = 10%Q) /\
    ((1 <= Z.of_nat (in_window busy_limiter 10))%Z ->
     exists oldest rest,
       unexpired busy_limiter 10 (requests busy_limiter) = oldest :: rest /\
       slept adm = Some (inject_Z 60 - (10 - oldest) + 1)%Q /\
       (1 < inject_Z 60 - (10 - oldest) + 1)%Q /\
       admitted_at adm = (10 + (inject_Z 60 - (10 - oldest) + 1) + 0)%Q /\
       (inject_Z 60 <= admitted_at adm - oldest)%Q).
Proof.
  apply (wait_if_needed_admits 1 60 busy_limiter 10 0).
  - lia.
  - exact busy_limiter_reachable.
  - vm_compute. discriminate.
Defined.

(** C5 fails without a quota: with [max_requests = 0] the first call
    does not admit the request, it raises on [self.requests[0]]. *)
Lemma wait_if_needed_without_quota :
  fst (wait_if_needed (RateLimiter_init 0 60) 0 0)
    = Raised (IndexError "list index out of range").
Proof. reflexivity. Qed.

End RateLimiterExamples.

Section PerformanceMonitorExamples.
Import Utils Samples.

(** C10 fails for a checkpoint named ["total"]: after checkpoints
    ["total"] at 1 and ["b"] at 3 the summary has two entries only, one
    ["<name>_duration"] entry for two checkpoints, and the entry of
    ["total"] holds the total, 3, instead of its duration, 1. *)
Lemma get_summary_total_name :
  let summary := get_summary exact_sub
                   (record_all exact_sub 0 [("total", 1%Q); ("b", 3%Q)]) in
  length summary = 2%nat /\
  length (duration_entries summary) = 1%nat /\
  dict_get ("total" +:+ "_duration") summary = Some (exact_sub 3 0) /\
  dict_get ("b" +:+ "_duration") summary = Some (exact_sub (exact_sub 3 0) (exact_sub 1 0)).
Proof. repeat split. Qed.

(** It fails as well when a name is recorded twice: three checkpoints at
    times 1, 2, 3 leave two duration entries. *)
Lemma get_summary_repeated_name :
  let summary := get_summary exact_sub
                   (record_all exact_sub 0 [("a", 1%Q); ("b", 2%Q); ("a", 3%Q)]) in
  length (duration_entries summary) = 2%nat.
Proof. reflexivity. Qed.

(** Two checkpoints, at 1 and 3 seconds. *)
Lemma get_summary_telescopes_witness :
  let all := [("search", 1%Q)] ++ [("fetch", 3%Q)] in
  let summary := get_summary exact_sub (record_all exact_sub 0 all) in
  keys summary = map (fun n => n +:+ "_duration") (map fst all) ++ ["total_duration"] /\
  length (duration_entries summary) = length all /\
  (forall i n' t',
      all !! i = Some (n', t') ->
      duration_entries summary !! i
        = Some (n' +:+ "_duration",
                exact_sub (exact_sub t' 0)
                     (match i with
                      | O => 0
                      | S j => match all !! j with
                               | Some (_, t'') => exact_sub t'' 0
                               | None => 0
                               end
                      end))) /\
  (exists mx, dict_get "total_duration" summary = Some mx /\
     (forall n' t', (n', t') ∈ all -> (exact_sub t' 0 <= mx)%Q) /\
     (exists n' t', (n', t') ∈ all /\ mx = exact_sub t' 0)) /\
  get_summary exact_sub (record_all exact_sub 0 []) = [] /\
  get_summary exact_sub PerformanceMonitor_init = [].
Proof.
  apply (get_summary_telescopes exact_sub 0 [("search", 1%Q)] "fetch" 3).
  - cbn. repeat constructor; rewrite ?elem_of_cons, ?elem_of_nil;
      intros H; decompose [or] H; discriminate || contradiction.
  - cbn. rewrite !elem_of_cons, elem_of_nil.
    intros H; decompose [or] H; discriminate || contradiction.
Defined.

End PerformanceMonitorExamples.

Section ConfigExamples.
Import Config Samples.

(** C9 fails for the retry count: [MAX_RETRIES=0] is not positive and
    the configuration loads. *)
Lemma get_config_accepts_zero_retries :
  exists config,
    get_config int_ascii upper_ascii no_retry_env = Returned config /\
    max_retries config = 0%Z.
Proof. eexists. split; vm_compute; reflexivity. Qed.

(** The default scene count, alone among the numeric settings, is not
    checked: a count of zero loads. *)
Lemma get_config_accepts_zero_scenes :
  exists config,
    get_config int_ascii upper_ascii no_scene_env = Returned config /\
    default_scene_count config = 0%Z.
Proof. eexists. split; vm_compute; reflexivity. Qed.

(** The required settings alone load with every default; [NOTE_TYPE=5] is
    refused. *)
Lemma get_config_validates_witness :
  get_config int_ascii upper_ascii minimal_env
    = Returned (config_of minimal_env 3 2 2 2 30 3) /\
  (exists msg, get_config int_ascii upper_ascii bad_type_env = Raised (ValueError msg)).
Proof.
  split.
  - apply (get_config_validates int_ascii upper_ascii minimal_env 3 2 2 2 30 3);
      try (vm_compute; reflexivity).
    unfold out_of_range. cbn [note_type sort total_number request_timeout max_retries
                              log_level config_of].
    intros [H | [H | [H | [H | [H | H]]]]]; try lia.
    apply H. vm_compute. tauto.
  - apply (get_config_validates int_ascii upper_ascii bad_type_env 3 5 2 2 30 3);
      try (vm_compute; reflexivity).
    left. cbn. lia.
Defined.

End ConfigExamples.

Section StoryboardExamples.
Import VideoGenerator Samples.

(** A reply without braces, and one whose braces hold no JSON. *)
Lemma parse_storyboard_never_raises_witness :
  (exists scenes,
      fst (_parse_storyboard_response Decoder.loads (JStr "no payload here"))
        = Returned scenes) /\
  fst (_parse_storyboard_response Decoder.loads (JStr "no payload here")) = Returned [] /\
  (fst (_parse_storyboard_response Decoder.loads (JStr "see {oops} above")) = Returned [] /\
   exists msg, In (ERROR, msg +:+ "Expecting value")
                  (snd (_parse_storyboard_response Decoder.loads
                          (JStr "see {oops} above")))).
Proof.
  split; [| split].
  - apply (parse_storyboard_never_raises Decoder.loads (JStr "no payload here")).
  - apply (proj1 (proj2 (parse_storyboard_never_raises Decoder.loads
                           (JStr "no payload here"))) "no payload here").
    + reflexivity.
    + left. reflexivity.
  - apply (proj2 (proj2 (parse_storyboard_never_raises Decoder.loads
                           (JStr "see {oops} above"))) "see {oops} above"
             (Exn "JSONDecodeError" "Expecting value")).
    + reflexivity.
    + vm_compute. discriminate.
    + vm_compute. discriminate.
    + reflexivity.
Defined.

(** C7 fails when the collaborator lists more scenes than asked for: one
    scene is requested and two are returned. *)
Lemma generate_storyboard_exceeds_count :
  ~ (length (fst (generate_storyboard Decoder.loads brief (always two_scenes)
                    "a rewritten note" 1))
     <= Z.to_nat 1)%nat.
Proof. vm_compute. lia. Qed.

(** One scene asked for, two listed and two returned. *)
Lemma generate_storyboard_length_witness :
  (fst (generate_storyboard Decoder.loads brief (always two_scenes) "a rewritten note" 3)
     = fst (generate_storyboard Decoder.loads brief (always two_scenes)
              "a rewritten note" 1)) /\
  fst (generate_storyboard Decoder.loads brief (always two_scenes) "a rewritten note" 1)
    = map scene_from_dict two_scene_dicts /\
  length (fst (generate_storyboard Decoder.loads brief (always two_scenes)
                 "a rewritten note" 1))
    = length two_scene_dicts.
Proof.
  split.
  - apply (proj1 (generate_storyboard_length Decoder.loads brief (always two_scenes)
                    "a rewritten note" 1) 3%Z).
    reflexivity.
  - apply (proj2 (generate_storyboard_length Decoder.loads brief (always two_scenes)
                    "a rewritten note" 1)
             (answer two_scenes) (completion two_scenes) two_scenes
             [("scenes", JArr (map JObj two_scene_dicts))] two_scene_dicts);
      try reflexivity.
    + vm_compute. discriminate.
    + vm_compute. discriminate.
Defined.

End StoryboardExamples.

Section SynthesisExamples.
Import VideoGenerator Samples.

(** C8 at a failing input: the service returns a URL and the download
    of that URL answers 404; the outcome is a ["success"] with no local
    path. *)
Theorem generate_video_success_without_file :
  exists r,
    fst (generate_video str_scalar stamp join_path lost_artifact opening_scene "videos")
      = Returned r /\
    status r = "success" /\
    video_url r = Some (JStr "https://cdn.example/v.mp4") /\
    video_path r = None.
Proof. eexists. repeat split. Qed.

End SynthesisExamples.

Section WorkflowExamples.
Import Main Samples.

(** C1 fails when no item gets through: one item is found, its fetch
    fails, nothing reaches synthesis or persistence, and the flag is
    true. *)
Lemma process_workflow_success_without_results :
  fst (run [note "2"])
    = Returned {| success := true; message := "成功处理 0 条笔记"; results := Some [] |} /\
  ~ (success {| success := true; message := "成功处理 0 条笔记"; results := Some [] |} = true
     <-> (0 < length (@nil item_result))%nat).
Proof.
  split; [vm_compute; reflexivity |]. cbn. intros [H _]. specialize (H eq_refl). lia.
Qed.

(** A run over one note whose page cannot be read. *)
Lemma process_workflow_success_flag_witness :
  exists rs st',
    run [note "2"] = (Returned (success_report rs), st') /\
    success (success_report rs) = true /\
    message (success_report rs)
      = "成功处理 " +:+ str_of_Z (Z.of_nat (length rs)) +:+ " 条笔记".
Proof.
  destruct (process_workflow_success_flag journal (found [note "2"]) reader rewriter
              studio notion calendar str_scalar settings
              "productivity" [] [] [note "2"] ["search productivity"]
              eq_refl ltac:(discriminate))
    as (rs & st' & _ & Hrun & Hflag & Hmsg).
  exists rs, st'. split; [exact Hrun | split; [exact Hflag | exact Hmsg]].
Defined.

(** C2 fails on the skip-record: of three items whose second cannot be
    fetched, the report lists the first and the third and holds nothing
    about the second. *)
Lemma process_workflow_no_skip_record :
  exists rep rs,
    fst (run [note "1"; note "2"; note "3"]) = Returned rep /\
    success rep = true /\
    message rep = "成功处理 2 条笔记" /\
    results rep = Some rs /\
    map result_note_id rs = ["note_1"; "note_3"] /\
    ~ In (note_id (note "2")) (map result_note_id rs).
Proof.
  remember (fst (run [note "1"; note "2"; note "3"])) as o eqn:E.
  vm_compute in E. subst o.
  do 2 eexists. split; [reflexivity |]. split; [reflexivity |].
  split; [reflexivity |]. split; [reflexivity |]. split; [reflexivity |].
  cbn. intros [H | [H | []]]; discriminate.
Qed.

(** A run over three notes, the page of the second unreadable. *)
Lemma process_workflow_isolates_fetch_failure_witness :
  exists rs2 st2,
    run ([note "1"] ++ note "2" :: [note "3"])
      = (Returned (success_report (first_results ++ rs2)), st2) /\
    map result_note_id first_results = ["note_1"] /\
    map result_note_id rs2 = ["note_3"].
Proof.
  destruct (process_workflow_isolates_fetch_failure journal
              (found ([note "1"] ++ note "2" :: [note "3"])) reader rewriter
              studio notion calendar str_scalar settings
              "productivity" [] [] [note "1"] (note "2") [note "3"]
              ["search productivity"]
              first_results (fst (snd first_turn)) (snd (snd first_turn))
              (Returned None)
              (fst (snd first_turn) ++ ["read https://www.xiaohongshu.com/explore/2"]))
    as (rs2 & st2 & lv & msg & Hlv & Hpost & Hrun).
  - reflexivity.
  - vm_compute. reflexivity.
  - vm_compute. reflexivity.
  - left. reflexivity.
  - exists rs2, st2. split; [exact Hrun |]. split; [reflexivity |].
    vm_compute in Hpost. injection Hpost as <- _. reflexivity.
Defined.

End WorkflowExamples.

(** * Further properties of the code *)

(** ** Text, URL and masking helpers *)

Section TextFacts.
Import Text.

Lemma append_cons c s t : String c s +:+ t = String c (s +:+ t).
Proof. reflexivity. Qed.

Lemma append_assoc (a b c : string) : (a +:+ b) +:+ c = a +:+ (b +:+ c).
Proof.
  induction a as [| x a IH]; [reflexivity |].
  change (String x ((a +:+ b) +:+ c) = String x (a +:+ (b +:+ c))). now rewrite IH.
Qed.

Lemma len_append (a b : string) : len (a +:+ b) = (len a + len b)%nat.
Proof.
  induction a as [| c a IH]; [reflexivity |].
  rewrite append_cons. cbn [len]. rewrite IH. now destruct (is_continuation c).
Qed.

Lemma len_first_chars s : forall n, len (first_chars n s) = Nat.min n (len s).
Proof.
  induction s as [| c s IH]; intros n; [now destruct n |].
  cbn [first_chars len]. destruct (is_continuation c) eqn:E.
  - cbn [len]. rewrite E. apply IH.
  - destruct n as [| n]; [reflexivity |]. cbn [len]. rewrite E, IH. lia.
Qed.

Lemma first_skip_chars s : forall n, first_chars n s +:+ skip_chars n s = s.
Proof.
  induction s as [| c s IH]; intros n; [reflexivity |].
  cbn [first_chars skip_chars]. destruct (is_continuation c).
  - rewrite append_cons. now rewrite IH.
  - destruct n as [| n]; [reflexivity |]. rewrite append_cons. now rewrite IH.
Qed.

Lemma len_skip_chars s : forall n, len (skip_chars n s) = (len s - n)%nat.
Proof.
  intros n. pose proof (f_equal len (first_skip_chars s n)) as H.
  rewrite len_append, len_first_chars in H. lia.
Qed.

Lemma len_repeat_str s n : len (repeat_str s n) = (n * len s)%nat.
Proof.
  induction n as [| n IH]; [reflexivity |].
  cbn [repeat_str]. rewrite len_append, IH. reflexivity.
Qed.

(** A non-negative slice bound takes a prefix no longer than the bound. *)
Lemma slice_to_prefix s k :
  (0 <= k)%Z ->
  (Z.of_nat (len (slice_to s k)) <= k)%Z /\
  exists rest, s = slice_to s k +:+ rest.
Proof.
  intros Hk. unfold slice_to.
  destruct (Z.leb_spec 0 k) as [_ | H]; [| lia].
  split; [rewrite len_first_chars; lia |].
  exists (skip_chars (Z.to_nat k) s). now rewrite first_skip_chars.
Qed.

(** X1. [truncate_text] returns a text of at most [max_length]
    characters unchanged; a longer text, for [max_length >= 3], comes
    back as a prefix of it followed by three dots, the whole of at most
    [max_length] characters. *)
Theorem truncate_text_fits (text : string) (max_length : Z) :
  ((Z.of_nat (len text) <= max_length)%Z ->
   truncate_text text max_length = text) /\
  ((3 <= max_length)%Z ->
   (max_length < Z.of_nat (len text))%Z ->
   (Z.of_nat (len (truncate_text text max_length)) <= max_length)%Z /\
   exists kept rest,
     truncate_text text max_length = kept +:+ "..." /\ text = kept +:+ rest).
Proof.
  unfold truncate_text. split.
  - intros Hfit. destruct (Z.leb_spec (Z.of_nat (len text)) max_length);
      [now rewrite orb_true_r | lia].
  - intros Hmax Hlong.
    destruct (String.eqb_spec text "") as [-> | _]; [cbn in Hlong; lia |].
    destruct (Z.leb_spec (Z.of_nat (len text)) max_length) as [? | _]; [lia |].
    cbn [orb].
    destruct (slice_to_prefix text (max_length - 3)) as [Hlen [rest Hrest]]; [lia |].
    set (truncated := slice_to text (max_length - 3)) in *.
    destruct (Qltb _ _) eqn:Hcut.
    + apply Qltb_lt in Hcut.
      assert (Hls : (0 <= rfind " " truncated)%Z).
      { destruct (Z_lt_le_dec (rfind " " truncated) 0) as [Hneg | ?];
          [| assumption].
        exfalso. rewrite Zlt_Qlt in Hneg.
        assert (H3 : (inject_Z 3 <= inject_Z max_length)%Q)
          by (rewrite <- Zle_Qle; exact Hmax).
        change (inject_Z 0) with 0%Q in Hneg. change (inject_Z 3) with 3%Q in H3. lra. }
      destruct (slice_to_prefix truncated (rfind " " truncated) Hls)
        as [Hlen' [rest' Hrest']].
      assert (Hshort : (len (slice_to truncated (rfind " " truncated))
                        <= len truncated)%nat).
      { pose proof (f_equal len Hrest') as Hl.
        rewrite len_append in Hl. lia. }
      split.
      * rewrite len_append. change (len "...") with 3%nat. lia.
      * exists (slice_to truncated (rfind " " truncated)), (rest' +:+ rest).
        split; [reflexivity |]. rewrite <- append_assoc, <- Hrest'. exact Hrest.
    + split.
      * rewrite len_append. change (len "...") with 3%nat. lia.
      * exists truncated, rest. split; [reflexivity | exact Hrest].
Qed.

End TextFacts.

Section MaskFacts.
Import Text.

Lemma len_slice_to s k :
  len (slice_to s k)
    = if (0 <=? k)%Z then Nat.min (Z.to_nat k) (len s)
      else (len s - Z.to_nat (- k))%nat.
Proof.
  unfold slice_to. destruct (0 <=? k)%Z; rewrite len_first_chars; lia.
Qed.

(** Nothing is left once every character is skipped. *)
Lemma skip_chars_len s : skip_chars (len s) s = EmptyString.
Proof.
  induction s as [| c s IH]; [reflexivity |].
  cbn [len skip_chars]. destruct (is_continuation c); exact IH.
Qed.

Lemma len_times s n : len s = 1%nat -> len (times s n) = Z.to_nat n.
Proof. intros H. unfold times. rewrite len_repeat_str, H. lia. Qed.

(** X2. With a mask of one character, [mask_sensitive_data] returns a
    text of exactly as many characters as [data], whatever
    [visible_chars] is; and for [0 <= visible_chars < len(data)] that
    text is the first [visible_chars // 2] characters of [data], then the
    mask repeated, then the last [visible_chars // 2] characters, so that
    at most [visible_chars] characters stay readable. *)
Theorem mask_sensitive_data_shape (data mask_char : string) (visible_chars : Z) :
  len mask_char = 1%nat ->
  len (mask_sensitive_data data mask_char visible_chars) = len data /\
  ((0 <= visible_chars < Z.of_nat (len data))%Z ->
   let half := Z.to_nat (visible_chars / 2) in
   mask_sensitive_data data mask_char visible_chars
     = first_chars half data
       +:+ repeat_str mask_char (len data - 2 * half)
       +:+ skip_chars (len data - half) data /\
   (2 * half <= Z.to_nat visible_chars)%nat).
Proof.
  intros Hmask.
  pose proof (Z.div_mod visible_chars 2 ltac:(lia)) as Hdiv.
  pose proof (Z.mod_pos_bound visible_chars 2 ltac:(lia)) as Hmod.
  set (h := (visible_chars / 2)%Z) in *.
  split.
  - unfold mask_sensitive_data. fold h.
    destruct (String.eqb_spec data "") as [-> | Hne]; [reflexivity |].
    cbn [orb negb].
    destruct (Z.leb_spec (Z.of_nat (len data)) visible_chars) as [Hle | Hgt].
    + rewrite len_times by exact Hmask. lia.
    + rewrite !len_append, len_times by exact Hmask.
      rewrite len_slice_to.
      destruct (Z.ltb_spec 1 visible_chars) as [Hvis | Hvis].
      * unfold slice_from. destruct (Z.leb_spec 0 (- h)) as [? | _]; [lia |].
        rewrite len_skip_chars. destruct (Z.leb_spec 0 h) as [_ | ?]; [| lia].
        replace (Z.to_nat (- - h)) with (Z.to_nat h) by lia. lia.
      * cbn [len]. destruct (Z.leb_spec 0 h); lia.
  - intros [Hlo Hhi] half. subst half. fold h.
    split; [| lia].
    unfold mask_sensitive_data. fold h.
    destruct (String.eqb_spec data "") as [-> | Hne]; [cbn in Hhi; lia |].
    destruct (Z.leb_spec (Z.of_nat (len data)) visible_chars) as [? | _]; [lia |].
    cbn [orb].
    assert (Hstart : slice_to data h = first_chars (Z.to_nat h) data).
    { unfold slice_to. destruct (Z.leb_spec 0 h); [reflexivity | lia]. }
    rewrite Hstart, len_first_chars.
    destruct (Z.ltb_spec 1 visible_chars) as [Hvis | Hvis].
    + unfold slice_from. destruct (Z.leb_spec 0 (- h)) as [? | _]; [lia |].
      replace (Z.to_nat (- - h)) with (Z.to_nat h) by lia.
      rewrite len_skip_chars. unfold times. do 3 f_equal. lia.
    + assert (Hh : h = 0%Z) by lia. rewrite Hh. change (Z.to_nat 0) with O.
      cbn [Nat.mul Nat.add len]. rewrite !Nat.sub_0_r.
      rewrite skip_chars_len. unfold times. f_equal. f_equal. f_equal. lia.
Qed.

End MaskFacts.

Section UrlFacts.
Import Text.

Lemma contains_before c s : contains c (before c s) = false.
Proof.
  induction s as [| c' s IH]; [reflexivity |].
  cbn [before]. destruct (Ascii.eqb c' c) eqn:E; [reflexivity |].
  cbn [contains]. now rewrite E.
Qed.

Lemma before_without c s : contains c s = false -> before c s = s.
Proof.
  induction s as [| c' s IH]; [reflexivity |].
  cbn [contains before]. intros H. apply orb_false_iff in H as [E H].
  rewrite E. now rewrite IH.
Qed.

Lemma prefix_append s rest : String.prefix s (s +:+ rest) = true.
Proof.
  induction s as [| c s IH]; [now destruct rest |].
  change (match ascii_dec c c with
          | left _ => String.prefix s (s +:+ rest)
          | right _ => false
          end = true).
  destruct (ascii_dec c c) as [_ | Hne]; [exact IH | now contradiction Hne].
Qed.

(** X3. [clean_url] is idempotent: its result is a fixed point, holds no
    fragment mark, and, unless the input was empty (then the result is
    empty too), starts with [http://] or [https://]. *)
Theorem clean_url_canonical (url : string) :
  clean_url (clean_url url) = clean_url url /\
  contains "#" (clean_url url) = false /\
  ((url = EmptyString /\ clean_url url = EmptyString) \/ has_scheme (clean_url url) = true).
Proof.
  unfold clean_url at 2 3 4 5 6.
  destruct (String.eqb_spec url "") as [-> | Hne].
  { split; [reflexivity |]. split; [reflexivity |]. left. now split. }
  pose proof (contains_before "#" url) as Hclean.
  set (p := before "#" url) in *.
  assert (Hfix : forall r, contains "#" r = false -> has_scheme r = true ->
                           clean_url r = r).
  { intros r Hr Hs. unfold clean_url.
    destruct (String.eqb_spec r "") as [-> | _]; [reflexivity |].
    rewrite (before_without _ _ Hr), Hs. reflexivity. }
  destruct (has_scheme p) eqn:Hs; cbn [negb].
  - split; [now apply Hfix |]. split; [exact Hclean | now right].
  - assert (Hs' : has_scheme ("https://" +:+ p) = true).
    { unfold has_scheme. rewrite (prefix_append "https://" p). apply orb_true_r. }
    assert (Hc' : contains "#" ("https://" +:+ p) = false) by exact Hclean.
    split; [now apply Hfix |]. split; [exact Hc' | now right].
Qed.

End UrlFacts.

(** ** RetryHandler and RateLimiter: delays *)

Section RetrySchedule.
Import Utils Observations.
Context {A : Type}.
Variable self : RetryHandler.
Variable func : nat -> outcome A.
Variable random : nat -> Q.


End RetrySchedule.

Section LimiterDelay.
Import Utils.

(** X5. When every recorded timestamp lies in the past, a call of
    [wait_if_needed] that sleeps asks for more than one second and at most
    one second more than the window, and records the request at the
    instant the sleep returns. *)
Theorem wait_if_needed_delay self now lag adm self' d :
  Forall (fun r => (r <= now)%Q) (requests self) ->
  wait_if_needed self now lag = (Returned adm, self') ->
  slept adm = Some d ->
  (1 < d)%Q /\ (d <= inject_Z (time_window self) + 1)%Q /\
  admitted_at adm = (now + d + lag)%Q /\
  exists kept, requests self' = kept ++ [(now + d + lag)%Q].
Proof.
  intros Hpast Hcall Hslept. unfold wait_if_needed in Hcall.
  cbn [set_requests requests max_requests time_window] in Hcall.
  pose proof (unexpired_young self now (requests self)) as Hyoung.
  assert (Hold : forall r, In r (unexpired self now (requests self)) -> (r <= now)%Q).
  { intros r Hr. unfold unexpired in Hr. apply List.filter_In in Hr as [Hr _].
    rewrite Forall_forall in Hpast. apply Hpast. now apply list_elem_of_In. }
  destruct (max_requests self <=? _)%Z.
  2:{ injection Hcall as <- <-. discriminate Hslept. }
  destruct (unexpired self now (requests self)) as [| first tl]; [discriminate |].
  specialize (Hyoung first ltac:(left; reflexivity)).
  specialize (Hold first ltac:(left; reflexivity)).
  destruct (Qltb 0 _) eqn:Hpos.
  2:{ injection Hcall as <- <-. discriminate Hslept. }
  injection Hcall as <- <-. cbn [slept admitted_at requests set_requests] in *.
  injection Hslept as <-.
  split; [lra |]. split; [lra |]. split; [reflexivity |].
  eexists. reflexivity.
Qed.

End LimiterDelay.

(** ** PerformanceMonitor: readings that never go back *)

Section MonitorMonotone.
Import Utils Observations.
(** Float subtraction rounds to the nearest float: the difference of two
    floats has the sign of the exact difference, and grows with its first
    operand. *)
Variable fsub : Q -> Q -> Q.
Hypothesis fsub_sign : forall a b, (b <= a)%Q -> (0 <= fsub a b)%Q.
Hypothesis fsub_monotone : forall a a' b, (a <= a')%Q -> (fsub a b <= fsub a' b)%Q.

Lemma ascending_elapsed t0 marks : forall prev,
  ascending prev (map snd marks) ->
  ascending (fsub prev t0) (values (elapsed fsub t0 marks)).
Proof.
  induction marks as [| [n t] marks IH]; intros prev; [trivial |].
  cbn. intros [Hle Hrest]. split; [now apply fsub_monotone | now apply IH].
Qed.

Lemma durations_nonnegative items : forall prev,
  ascending prev (values items) ->
  Forall (fun d => (0 <= d)%Q) (values (durations fsub prev items)).
Proof.
  induction items as [| [n e] items IH]; intros prev; [constructor |].
  cbn. intros [Hle Hrest]. constructor; [now apply fsub_sign | now apply IH].
Qed.

(** In an ascending series nothing exceeds the last reading. *)
Lemma ascending_last xs : forall prev x last,
  ascending prev (xs ++ [last]) ->
  In x (xs ++ [last]) -> (prev <= last)%Q /\ (x <= last)%Q.
Proof.
  induction xs as [| y xs IH]; intros prev x last Hasc Hin.
  - cbn in *. destruct Hasc as [Hle _]. destruct Hin as [<- | []]. split; lra.
  - cbn [app ascending] in Hasc. destruct Hasc as [Hle Hrest].
    destruct Hin as [<- | Hin].
    + destruct (IH y last last Hrest) as [H1 _]; [apply in_or_app; right; now left |].
      split; lra.
    + destruct (IH y x last Hrest Hin) as [H1 H2]. split; lra.
Qed.

(** X6. After [start()] at [t0] and checkpoints with distinct names, none
    named ["total"], taken at readings that never go back, no duration in
    the summary is negative and ["total_duration"] is the elapsed time of
    the last checkpoint, [t - t0] as a float. *)
Theorem get_summary_monotone t0 marks name t :
  NoDup (map fst (marks ++ [(name, t)])) ->
  "total" ∉ map fst (marks ++ [(name, t)]) ->
  ascending t0 (map snd (marks ++ [(name, t)])) ->
  Forall (fun d => (0 <= d)%Q)
    (values (duration_entries
               (get_summary fsub (record_all fsub t0 (marks ++ [(name, t)]))))) /\
  exists total,
    dict_get "total_duration"
      (get_summary fsub (record_all fsub t0 (marks ++ [(name, t)]))) = Some total /\
    (total == fsub t t0)%Q.
Proof.
  intros Hnd Htotal Hasc.
  destruct (get_summary_distinct fsub t0 marks name t Hnd Htotal)
    as (first & rest & Hvals & Hsum).
  set (all := marks ++ [(name, t)]) in *.
  assert (Hk : keys (durations fsub 0 (elapsed fsub t0 all))
               = map (fun n => n +:+ "_duration") (map fst all))
    by (now rewrite keys_durations, keys_elapsed).
  pose proof (ascending_elapsed t0 all t0 Hasc) as Hel.
  pose proof (fsub_sign t0 t0 ltac:(lra)) as Hzero.
  split.
  - rewrite Hsum. unfold duration_entries. rewrite List.filter_app. cbn.
    rewrite app_nil_r.
    fold (duration_entries (durations fsub 0 (elapsed fsub t0 all))).
    rewrite duration_entries_durations by (now rewrite keys_elapsed).
    apply durations_nonnegative.
    destruct (values (elapsed fsub t0 all)) as [| e es]; [trivial |].
    destruct Hel as [Hle Hrest]. split; [lra | exact Hrest].
  - exists (py_max first rest). split.
    + rewrite Hsum. apply dict_get_last. rewrite Hk. now apply total_key_fresh.
    + destruct (py_max_spec rest first) as [Hin Hmax].
      assert (Hlast : values (elapsed fsub t0 all)
                      = values (elapsed fsub t0 marks) ++ [fsub t t0]).
      { unfold all, values, elapsed. now rewrite !map_app. }
      rewrite <- Hvals, Hlast in Hin, Hmax. rewrite Hlast in Hel.
      apply list_elem_of_In in Hin.
      destruct (ascending_last _ _ _ _ Hel Hin) as [_ Hup].
      specialize (Hmax (fsub t t0) ltac:(apply list_elem_of_In, in_or_app; right; now left)).
      lra.
Qed.

End MonitorMonotone.

(** ** DataValidator *)

Section ValidatorFacts.
Import VideoGenerator Validator.

Lemma check_fields_accepts warning fields data :
  check_fields warning fields data = (true, [])
  <-> Forall (fun field => filled data field = true) fields.
Proof.
  induction fields as [| f fields IH]; cbn [check_fields].
  - split; [constructor | reflexivity].
  - destruct (filled data f) eqn:E; cbn [negb].
    + rewrite IH. split; [now constructor | now inversion 1].
    + split; [discriminate |]. inversion 1; congruence.
Qed.

Lemma check_fields_first_missing warning data ok : forall field rest,
  Forall (fun f => filled data f = true) ok ->
  filled data field = false ->
  check_fields warning (ok ++ field :: rest) data
    = (false, [(WARNING, warning +:+ field)]).
Proof.
  induction ok as [| f ok IH]; intros field rest Hok Hmissing; cbn [app check_fields].
  - now rewrite Hmissing.
  - inversion Hok as [| ? ? Hf Hok']; subst. rewrite Hf. cbn [negb]. now apply IH.
Qed.

(** X7. [validate_note_data] accepts a dict exactly when each of note_id,
    note_display_title, note_url and auther_nick_name is present with a
    truthy value, and [validate_content_data] exactly when title and desc
    are; a rejected dict is reported by one warning that names the first
    required field, in that order, which is absent or falsy. *)
Theorem validate_data_spec (data : dict json) :
  (validate_note_data data = (true, [])
   <-> Forall (fun field => filled data field = true) note_fields) /\
  (validate_content_data data = (true, [])
   <-> Forall (fun field => filled data field = true) content_fields) /\
  (forall ok field rest,
      note_fields = ok ++ field :: rest ->
      Forall (fun f => filled data f = true) ok ->
      filled data field = false ->
      validate_note_data data = (false, [(WARNING, "笔记数据缺少必需字段: " +:+ field)])) /\
  (forall ok field rest,
      content_fields = ok ++ field :: rest ->
      Forall (fun f => filled data f = true) ok ->
      filled data field = false ->
      validate_content_data data
        = (false, [(WARNING, "内容数据缺少必需字段: " +:+ field)])).
Proof.
  unfold validate_note_data, validate_content_data.
  split; [apply check_fields_accepts |]. split; [apply check_fields_accepts |].
  split; intros ok field rest ->; apply check_fields_first_missing.
Qed.

End ValidatorFacts.

(** ** The environment file *)

Section EnvFileFacts.
Import EnvFile.
Variable strip : string -> string.

Let put (environ : gmap string string) (kv : string * string) : gmap string string :=
  <[kv.1 := kv.2]> environ.

Lemma environ_set_returned key value environ environ' :
  environ_set key value environ = Returned environ' ->
  environ' = <[key := value]> environ.
Proof.
  unfold environ_set. destruct (_ || _); [discriminate |].
  destruct (Text.contains "=" key); [discriminate |].
  destruct (String.eqb key ""); [discriminate |]. now intros [= <-].
Qed.

(** A load that reaches the end of the lines has applied every assignment,
    in order. *)
Lemma load_lines_returned content : forall environ environ',
  load_lines strip content environ = (Returned tt, environ') ->
  environ' = foldl put environ (omap (assignment strip) content).
Proof.
  induction content as [| line content IH]; intros environ environ' H.
  - now injection H as <-.
  - cbn [load_lines] in H. unfold load_line in H.
    cbn [omap list_omap]. fold (omap (assignment strip) content).
    destruct (assignment strip line) as [[key value] |].
    + destruct (environ_set key value environ) as [env1 | e] eqn:Hset; [| discriminate].
      apply environ_set_returned in Hset as ->. cbn [foldl]. now apply IH.
    + now apply IH.
Qed.

Lemma foldl_put_other (k : string) assignments : forall environ,
  Forall (fun kv => kv.1 <> k) assignments ->
  foldl put environ assignments !! k = environ !! k.
Proof.
  induction assignments as [| [k' v'] assignments IH]; intros environ Hk; [reflexivity |].
  inversion Hk as [| ? ? Hne Hk']; subst. cbn [foldl]. rewrite IH by exact Hk'.
  unfold put. cbn. now rewrite lookup_insert_ne.
Qed.

Lemma assignments_other (k : string) content :
  Forall (fun line => forall v, assignment strip line <> Some (k, v)) content ->
  Forall (fun kv : string * string => kv.1 <> k) (omap (assignment strip) content).
Proof.
  induction 1 as [| line content Hline _ IH]; [constructor |].
  cbn [omap list_omap]. fold (omap (assignment strip) content).
  destruct (assignment strip line) as [[k' v'] |] eqn:E; [| exact IH].
  constructor; [| exact IH]. cbn. intros ->. now apply (Hline v').
Qed.

(** X8. When the load reaches the end of the file, a setting takes the
    value of the last line that assigns it: the lines before it and the
    inherited environment are overridden; and a setting that no line
    assigns keeps the value it had. *)
Theorem load_lines_last_wins before_ line after_ environ environ' k v :
  load_lines strip (before_ ++ line :: after_) environ = (Returned tt, environ') ->
  assignment strip line = Some (k, v) ->
  Forall (fun l => forall v', assignment strip l <> Some (k, v')) after_ ->
  environ' !! k = Some v /\
  (forall k',
      Forall (fun l => forall v', assignment strip l <> Some (k', v'))
             (before_ ++ line :: after_) ->
      environ' !! k' = environ !! k').
Proof.
  intros Hload Hline Hafter.
  apply load_lines_returned in Hload as ->. split.
  - rewrite omap_app. cbn [omap list_omap]. fold (omap (assignment strip) after_).
    rewrite Hline, foldl_app. cbn [foldl].
    rewrite foldl_put_other by now apply assignments_other.
    unfold put. cbn. apply lookup_insert_eq.
  - intros k' Hk'. apply foldl_put_other. now apply assignments_other.
Qed.

(** X9. A line that assigns a value without NUL to an empty name stops
    the load: the lines before it stay applied, the lines after it are not
    read into the environment, and the caller gets no error, only the
    warning that carries the [OSError] of the refused assignment. *)
Theorem load_env_file_stops path open_file before_ line after_ err environ environ1 v :
  path <> EmptyString ->
  open_file path
    = Some (Returned {| lines := before_ ++ line :: after_; read_error := err |}) ->
  load_lines strip before_ environ = (Returned tt, environ1) ->
  assignment strip line = Some (EmptyString, v) ->
  Text.contains (ascii_of_nat 0) v = false ->
  _load_env_file strip (Some path) open_file environ
    = (environ1, [(WARNING, "加载环境变量文件失败: [Errno 22] Invalid argument")]).
Proof.
  intros Hpath Hopen Hbefore Hline Hnul. unfold _load_env_file.
  destruct (String.eqb_spec path "") as [? | _]; [contradiction |].
  rewrite Hopen. cbn [lines read_error].
  assert (Hstop : load_lines strip (before_ ++ line :: after_) environ
                  = (Raised (OSError "[Errno 22] Invalid argument"), environ1)).
  { clear Hopen. revert environ Hbefore.
    induction before_ as [| l ls IH]; intros environ Hbefore.
    - injection Hbefore as <-. cbn [app load_lines]. unfold load_line.
      rewrite Hline. unfold environ_set. cbn [Text.contains orb].
      now rewrite Hnul.
    - cbn [app load_lines] in *. destruct (load_line strip l environ); [| discriminate].
      now apply IH. }
  rewrite Hstop. now destruct err.
Qed.

(** X10. Reading back a line written as [key=value]: when stripping
    changes neither the line nor its two parts, the key holds no [=] and
    does not start a comment, the line assigns exactly [value] to [key];
    the value may itself hold [=]. *)
Theorem assignment_round_trip key value :
  strip (key +:+ "=" +:+ value) = key +:+ "=" +:+ value ->
  strip key = key ->
  strip value = value ->
  Text.contains "=" key = false ->
  String.prefix "#" key = false ->
  assignment strip (key +:+ "=" +:+ value) = Some (key, value).
Proof.
  intros Hline Hkey Hvalue Heq Hcomment. unfold assignment. rewrite Hline.
  assert (Hbefore : Text.before "=" (key +:+ "=" +:+ value) = key).
  { clear Hline Hkey Hcomment. induction key as [| c key IH]; [reflexivity |].
    cbn [Text.contains] in Heq. apply orb_false_iff in Heq as [Hc Heq].
    rewrite append_cons. cbn [Text.before]. rewrite Hc. now rewrite IH. }
  assert (Hafter : after "=" (key +:+ "=" +:+ value) = value).
  { clear Hline Hkey Hcomment Hbefore. induction key as [| c key IH]; [reflexivity |].
    cbn [Text.contains] in Heq. apply orb_false_iff in Heq as [Hc Heq].
    rewrite append_cons. cbn [after]. rewrite Hc. now apply IH. }
  assert (Hhas : Text.contains "=" (key +:+ "=" +:+ value) = true).
  { clear. induction key as [| c key IH]; [reflexivity |].
    rewrite append_cons. cbn [Text.contains]. rewrite IH. apply orb_true_r. }
  assert (Hnocomment : String.prefix "#" (key +:+ "=" +:+ value) = false).
  { destruct key as [| c key]; [reflexivity |].
    rewrite append_cons. cbn [String.prefix] in *.
    destruct (ascii_dec "#" c); [now destruct key | reflexivity]. }
  assert (Hnonempty : String.eqb (key +:+ "=" +:+ value) "" = false)
    by now destruct key.
  rewrite Hnonempty, Hnocomment, Hhas, Hbefore, Hafter, Hkey, Hvalue. reflexivity.
Qed.

End EnvFileFacts.

(** ** ConfigManager: what a returned configuration guarantees *)

Section ConfigSound.
Import Config.
Variable int : string -> outcome Z.
Variable upper : string -> string.
Variable environ : gmap string string.

Lemma unset_false key :
  unset environ key = false -> getenv_or environ key "" <> EmptyString.
Proof.
  unfold unset, getenv, getenv_or. destruct (environ !! key) as [v |]; [| discriminate].
  intros H. now apply String.eqb_neq.
Qed.

Lemma not_in_012_false (x : Z) :
  not_in_012 x = false -> (x = 0 \/ x = 1 \/ x = 2)%Z.
Proof.
  unfold not_in_012.
  destruct (Z.eqb_spec x 0), (Z.eqb_spec x 1), (Z.eqb_spec x 2); cbn;
    intros H; try discriminate; lia.
Qed.

(** X11. Every [Config] that [get_config] returns is valid: the note type
    and the sort are 0, 1 or 2, the result cap and the request timeout are
    positive, the retry count is not negative, the upper-cased log level
    is one of the four known levels, and none of the six required settings
    is empty. *)
Theorem get_config_returns_valid (config : Config) :
  get_config int upper environ = Returned config ->
  (note_type config = 0 \/ note_type config = 1 \/ note_type config = 2)%Z /\
  (sort config = 0 \/ sort config = 1 \/ sort config = 2)%Z /\
  (0 < total_number config)%Z /\
  (0 < request_timeout config)%Z /\
  (0 <= max_retries config)%Z /\
  In (upper (log_level config)) valid_log_levels /\
  xhs_cookie config <> EmptyString /\
  llm_api_key config <> EmptyString /\
  notion_token config <> EmptyString /\
  original_database_id config <> EmptyString /\
  processed_database_id config <> EmptyString /\
  doubao_api_key config <> EmptyString.
Proof.
  unfold get_config. destruct (missing_configs environ) eqn:Hreq; [| intros [=]].
  destruct (int (getenv_or environ "DEFAULT_SCENE_COUNT" "3")) as [scenes | ?]; [| intros [=]].
  destruct (int (getenv_or environ "NOTE_TYPE" "2")) as [nt | ?]; [| intros [=]].
  destruct (int (getenv_or environ "SORT" "2")) as [so | ?]; [| intros [=]].
  destruct (int (getenv_or environ "TOTAL_NUMBER" "2")) as [tn | ?]; [| intros [=]].
  destruct (int (getenv_or environ "REQUEST_TIMEOUT" "30")) as [rt | ?]; [| intros [=]].
  destruct (int (getenv_or environ "MAX_RETRIES" "3")) as [mr | ?]; [| intros [=]].
  cbn [mbind outcome_bind].
  destruct (_validate_config upper _) as [[] | ?] eqn:Hval; [| intros [=]].
  cbn [mbind outcome_bind mret outcome_ret].
  intros [= <-]. unfold _validate_config in Hval. unfold config_of in *.
  cbn [note_type sort total_number request_timeout max_retries log_level config_of
       xhs_cookie llm_api_key notion_token original_database_id processed_database_id
       doubao_api_key] in *.
  destruct (not_in_012 nt) eqn:E1; [discriminate Hval |].
  destruct (not_in_012 so) eqn:E2; [discriminate Hval |].
  destruct (Z.leb_spec tn 0) as [? | E3]; [discriminate Hval |].
  destruct (existsb _ valid_log_levels) eqn:E4; [| discriminate Hval].
  destruct (Z.leb_spec rt 0) as [? | E5]; [discriminate Hval |].
  destruct (Z.ltb_spec mr 0) as [? | E6]; [discriminate Hval |].
  repeat (split; [first [now apply not_in_012_false | lia
                        | now apply valid_level_spec | idtac] |]);
    try (apply unset_false);
    unfold missing_configs, required_configs in Hreq; cbn [List.filter] in Hreq;
    repeat match type of Hreq with
           | context [unset environ ?k] =>
             destruct (unset environ k) eqn:?; [discriminate Hreq |]
           end;
    try reflexivity; try assumption.
Qed.

End ConfigSound.

(** ** DoubaoSeedanceAPI and VideoWorkflowManager *)

Section SynthesisMore.
Import VideoGenerator.
Variable str_ : json -> string.
Variable strftime : Q -> string.
Variable path_join : string -> string -> string.

(** The two shapes an outcome of [generate_video] can have. *)
Lemma generate_video_cases io scene output_dir :
  exists r,
    fst (generate_video str_ strftime path_join io scene output_dir) = Returned r /\
    result_scene_id r = scene_id scene /\
    ((status r = "failed" /\ video_url r = None /\ video_path r = None) \/
     (status r = "success" /\
      exists url, video_url r = Some url /\
        video_path r = fst (_download_video str_ strftime path_join io url
                              (scene_id scene) output_dir))).
Proof.
  unfold generate_video, generate_video_try.
  destruct (_ ← makedirs io; _) as [resp | e]; cbn [fst].
  2:{ eexists; split; [reflexivity |]; cbn; split; [reflexivity | left; auto]. }
  destruct (resp_status resp =? 200)%Z.
  - destruct (resp_json resp) as [body | e].
    2:{ eexists; split; [reflexivity |]; cbn; split; [reflexivity | left; auto]. }
    destruct body;
      try (eexists; split; [reflexivity |]; cbn; split; [reflexivity | left; auto]).
    destruct (truthy (get members "video_url" JNull)).
    + destruct (_download_video _ _ _ _ _ _ _) as [path lg'] eqn:Hd. cbn [fst].
      eexists; split; [reflexivity |].
      cbn [status video_url video_path result_scene_id].
      split; [reflexivity |]. right. split; [reflexivity |].
      eexists. split; [reflexivity |]. now rewrite Hd.
    + eexists; split; [reflexivity |]; cbn; split; [reflexivity | left; auto].
  - destruct (resp_text resp) as [error_text | e];
      (eexists; split; [reflexivity |]; cbn; split; [reflexivity | left; auto]).
Qed.

(** X12. Whenever an outcome of [generate_video] carries a local path, it
    is a ["success"], the GET of the artifact answered 200 and its copy
    into the file went through, and the path is the output directory
    joined with [<scene id>_<timestamp>.mp4]. *)
Theorem generate_video_local_path io scene output_dir r path :
  fst (generate_video str_ strftime path_join io scene output_dir) = Returned r ->
  video_path r = Some path ->
  status r = "success" /\
  path = path_join output_dir
           (str_ (scene_id scene) +:+ "_" +:+ strftime (download_at io) +:+ ".mp4") /\
  exists url done, video_url r = Some url /\
    fetch io url path = Returned (200%Z, Returned done).
Proof.
  intros Hr Hpath.
  destruct (generate_video_cases io scene output_dir) as (r' & Hr' & _ & Hshape).
  rewrite Hr in Hr'. injection Hr' as <-.
  destruct Hshape as [(_ & _ & Hnone) | (Hs & url & Hurl & Hdl)]; [congruence |].
  split; [exact Hs |]. rewrite Hpath in Hdl. unfold _download_video in Hdl.
  set (p := path_join output_dir _) in *.
  destruct (fetch io url p) as [[code copy] | e] eqn:Hfetch; [| discriminate].
  destruct (Z.eqb_spec code 200) as [-> | _]; [| discriminate].
  destruct copy as [done | e]; [| discriminate].
  cbn in Hdl. injection Hdl as ->.
  split; [reflexivity |]. exists url, done. now split.
Qed.

Lemma str_items_mismatch strs v rest i :
  (forall s, v <> JStr s) ->
  str_items (map JStr strs ++ v :: rest) i
    = Raised (TypeError ("sequence item " +:+ str_of_Z (i + Z.of_nat (length strs))
                         +:+ ": expected str instance, " +:+ type_name v +:+ " found")).
Proof.
  intros Hv. revert i. induction strs as [| s strs IH]; intros i.
  - cbn [map app length]. rewrite Z.add_0_r.
    destruct v; try reflexivity. now contradiction (Hv s).
  - cbn [map app str_items]. rewrite IH. cbn [mbind outcome_bind].
    replace (i + Z.of_nat (length (s :: strs)))%Z
      with (i + 1 + Z.of_nat (length strs))%Z by (cbn [length]; lia).
    reflexivity.
Qed.

(** X13. A scene whose list of visual elements holds something that is not
    a string is failed before any request is made: whatever the synthesis
    service would do, the outcome is ["failed"] and its error names the
    index and the type of the first such item. *)
Theorem generate_video_bad_elements io scene output_dir strs v rest :
  makedirs io = Returned tt ->
  visual_elements scene = JArr (map JStr strs ++ v :: rest) ->
  (forall s, v <> JStr s) ->
  fst (generate_video str_ strftime path_join io scene output_dir)
    = Returned (failed scene
        ("sequence item " +:+ str_of_Z (Z.of_nat (length strs))
         +:+ ": expected str instance, " +:+ type_name v +:+ " found")).
Proof.
  intros Hmk Hve Hv. unfold generate_video, generate_video_try, _build_video_prompt.
  rewrite Hmk, Hve. cbn [mbind outcome_bind iterate].
  rewrite (str_items_mismatch strs v rest 0 Hv). cbn [mbind outcome_bind fst Z.add].
  reflexivity.
Qed.

End SynthesisMore.

Section ManagerFacts.
Import VideoGenerator VideoWorkflow.
Variable json_loads : string -> outcome json.
Variable prompt_of : string -> Z -> string.
Variable str_ : json -> string.
Variable strftime : Q -> string.
Variable path_join : string -> string -> string.

(** The loop of step 2 never raises; it yields one outcome per scene, in
    the order of the scenes, each ["success"] or ["failed"]: the outcome
    at index [j] is what [generate_video] returned for the scene at index
    [j]. *)
Lemma synthesize_returns ios scenes :
  forall i, exists video_results lg,
    synthesize str_ strftime path_join ios i scenes = (Returned video_results, lg) /\
    map result_scene_id video_results = map scene_id scenes /\
    Forall (fun r => status r = "success" \/ status r = "failed") video_results /\
    (forall j scene, scenes !! j = Some scene ->
       exists r, video_results !! j = Some r /\
         fst (generate_video str_ strftime path_join (ios (i + j)%nat) scene "videos")
           = Returned r).
Proof.
  induction scenes as [| scene rest IH]; intros i.
  - exists [], []. cbn. repeat split; try constructor. intros j scene H. discriminate H.
  - cbn [synthesize].
    destruct (generate_video_cases str_ strftime path_join (ios i) scene "videos")
      as (r & Hr & Hid & Hshape).
    destruct (generate_video _ _ _ _ _ _) as [o lg] eqn:Hgen. cbn [fst] in Hr. subst o.
    destruct (IH (S i)) as (rs & lg' & -> & Hids & Hall & Hout).
    eexists _, _. split; [reflexivity |]. split; [| split].
    + cbn [map]. now rewrite Hid, Hids.
    + constructor; [| exact Hall]. destruct Hshape as [(-> & _) | (-> & _)]; auto.
    + intros [| j] scene' Hj.
      * injection Hj as <-. exists r. split; [reflexivity |].
        rewrite Nat.add_0_r, Hgen. reflexivity.
      * destruct (Hout j scene' Hj) as (r' & Hr' & Hg'). exists r'.
        split; [exact Hr' |]. now replace (i + S j)%nat with (S i + j)%nat by lia.
Qed.

Lemma with_status_partition video_results :
  Forall (fun r => status r = "success" \/ status r = "failed") video_results ->
  (length (with_status "success" video_results)
   + length (with_status "failed" video_results))%nat = length video_results.
Proof.
  unfold with_status. induction 1 as [| r rs [Hs | Hs] _ IH];
    [reflexivity | |]; cbn [List.filter]; rewrite Hs; cbn; lia.
Qed.

Lemma process_video_workflow_report post ios content num_scenes scenes lg :
  generate_storyboard json_loads prompt_of post content num_scenes = (scenes, lg) ->
  scenes <> [] ->
  exists video_results,
    fst (process_video_workflow json_loads prompt_of str_ strftime path_join
           post ios content num_scenes) = video_report scenes video_results /\
    map result_scene_id video_results = map scene_id scenes /\
    Forall (fun r => status r = "success" \/ status r = "failed") video_results /\
    (forall j scene, scenes !! j = Some scene ->
       exists r, video_results !! j = Some r /\
         fst (generate_video str_ strftime path_join (ios j) scene "videos")
           = Returned r).
Proof.
  intros Hs Hne. unfold process_video_workflow. rewrite Hs.
  destruct scenes as [| scene rest]; [contradiction |].
  destruct (synthesize_returns ios (scene :: rest) 0)
    as (rs & lg' & -> & Hids & Hall & Hout).
  exists rs. repeat split; assumption.
Qed.

(** X14. Once the storyboard is not empty, [process_video_workflow] fills
    in the counting report, never the failure one. The report lists the
    outcome that [generate_video] returned for each scene;
    ["total_scenes"] is the number of scenes, ["successful_videos"] the
    number of listed outcomes whose status is ["success"],
    ["failed_videos"] the number of those whose status is ["failed"], the
    two add up to the number of scenes, and ["success"] is true exactly
    when at least one listed outcome is a success. *)
Theorem process_video_workflow_counts post ios content num_scenes scenes lg :
  generate_storyboard json_loads prompt_of post content num_scenes = (scenes, lg) ->
  scenes <> [] ->
  let report := fst (process_video_workflow json_loads prompt_of str_ strftime path_join
                       post ios content num_scenes) in
  exists video_results : list VideoGenerationResult,
    (forall j scene, scenes !! j = Some scene ->
       exists r, video_results !! j = Some r /\
         fst (generate_video str_ strftime path_join (ios j) scene "videos")
           = Returned r) /\
    length video_results = length scenes /\
    getitem report "video_results" = Returned (JArr (map result_entry video_results)) /\
    let ok := length (List.filter (fun r => String.eqb (status r) "success")
                        video_results) in
    let bad := length (List.filter (fun r => String.eqb (status r) "failed")
                         video_results) in
    getitem report "total_scenes" = Returned (JInt (Z.of_nat (length scenes))) /\
    getitem report "successful_videos" = Returned (JInt (Z.of_nat ok)) /\
    getitem report "failed_videos" = Returned (JInt (Z.of_nat bad)) /\
    (ok + bad)%nat = length scenes /\
    exists flag,
      getitem report "success" = Returned (JBool flag) /\
      (flag = true <-> exists r, In r video_results /\ status r = "success").
Proof.
  intros Hs Hne report.
  destruct (process_video_workflow_report post ios content num_scenes scenes lg Hs Hne)
    as (rs & Hrep & Hids & Hall & Hout).
  subst report. rewrite Hrep. exists rs.
  assert (Hlen : length rs = length scenes).
  { rewrite <- (length_map result_scene_id), Hids. apply length_map. }
  split; [exact Hout |]. split; [exact Hlen |]. split; [reflexivity |].
  cbv zeta. repeat (split; [reflexivity |]).
  split.
  - rewrite <- Hlen. apply (with_status_partition rs Hall).
  - eexists. split; [reflexivity |].
    change (List.filter (fun r => String.eqb (status r) "success") rs)
      with (with_status "success" rs).
    unfold with_status. split.
    + intros Hflag. apply Nat.ltb_lt in Hflag.
      destruct (List.filter _ rs) as [| r tl] eqn:Hf; [cbn in Hflag; lia |].
      assert (Hin : In r (List.filter (fun r => String.eqb (status r) "success") rs))
        by (rewrite Hf; left; reflexivity).
      apply List.filter_In in Hin as [Hin Heq]. apply String.eqb_eq in Heq. eauto.
    + intros (r & Hin & Hst). apply Nat.ltb_lt.
      assert (Hin' : In r (List.filter (fun r => String.eqb (status r) "success") rs)).
      { apply List.filter_In. split; [exact Hin |]. rewrite Hst. reflexivity. }
      destruct (List.filter _ rs); [destruct Hin' | cbn; lia].
Qed.

(** X15. The report lists one video outcome per scene, in the order of
    the storyboard: the ["scene_id"] entries of ["video_results"] are
    those of ["scenes"], a failed scene included. *)
Theorem process_video_workflow_order post ios content num_scenes scenes lg :
  generate_storyboard json_loads prompt_of post content num_scenes = (scenes, lg) ->
  scenes <> [] ->
  let report := fst (process_video_workflow json_loads prompt_of str_ strftime path_join
                       post ios content num_scenes) in
  exists scene_entries result_entries,
    getitem report "scenes" = Returned (JArr scene_entries) /\
    getitem report "video_results" = Returned (JArr result_entries) /\
    map (fun entry => getitem entry "scene_id") result_entries
      = map (fun entry => getitem entry "scene_id") scene_entries /\
    map (fun entry => getitem entry "scene_id") scene_entries
      = map (fun scene => Returned (scene_id scene)) scenes.
Proof.
  intros Hs Hne report.
  destruct (process_video_workflow_report post ios content num_scenes scenes lg Hs Hne)
    as (rs & Hrep & Hids & _).
  subst report. rewrite Hrep.
  exists (map scene_entry scenes), (map result_entry rs).
  split; [reflexivity |]. split; [reflexivity |].
  rewrite !map_map. cbn.
  change (map (fun x => Returned (result_scene_id x)) rs)
    with (map (fun x => (@Returned json) (result_scene_id x)) rs).
  rewrite <- (map_map result_scene_id (@Returned json)), Hids, map_map.
  split; reflexivity.
Qed.

(** The three shapes of a report all carry the keys the caller reads. *)
Lemma process_video_workflow_keys post ios content num_scenes :
  let report := fst (process_video_workflow json_loads prompt_of str_ strftime path_join
                       post ios content num_scenes) in
  exists ok,
    getitem report "success" = Returned (JBool ok) /\
    (exists m, getitem report "message" = Returned m) /\
    (ok = true -> exists n, getitem report "successful_videos" = Returned n).
Proof.
  cbv zeta. unfold process_video_workflow.
  destruct (generate_storyboard _ _ _ _ _) as [scenes lg].
  destruct scenes as [| scene rest].
  - exists false. cbn [fst]. split; [reflexivity |]. split; [eexists; reflexivity |].
    discriminate.
  - destruct (synthesize_returns ios (scene :: rest) 0) as (rs & lg' & -> & _).
    cbn [fst]. eexists. split; [reflexivity |].
    split; eexists; reflexivity.
Qed.

End ManagerFacts.

Section VideoStage.
Import VideoGenerator VideoWorkflow Main.
Variable json_loads : string -> outcome json.
Variable prompt_of : string -> Z -> string.
Variable str_ : json -> string.
Variable strftime : Q -> string.
Variable path_join : string -> string -> string.
Variable World : Type.
Variable process_video_workflow : string -> Z -> World -> outcome json * World.
Variable config : config_dict.

(** X16. The orchestrator's video stage hands on, unchanged, whatever
    report the video workflow manager produced: none of its three shapes
    trips the stage's own [except], so the item carries the manager's
    report and never the stage's fallback. *)
Theorem video_stage_keeps_report note processed_content w lg post ios w' :
  process_video_workflow processed_content (get_or (default_scene_count config) 3%Z) w
    = (Returned (fst (VideoWorkflow.process_video_workflow json_loads prompt_of str_
                        strftime path_join post ios processed_content
                        (get_or (default_scene_count config) 3%Z))), w') ->
  fst (video_stage World process_video_workflow str_ config note processed_content (w, lg))
    = Returned (fst (VideoWorkflow.process_video_workflow json_loads prompt_of str_
                       strftime path_join post ios processed_content
                       (get_or (default_scene_count config) 3%Z))).
Proof.
  intros Hcall.
  destruct (process_video_workflow_keys json_loads prompt_of str_ strftime path_join
              post ios processed_content (get_or (default_scene_count config) 3%Z))
    as (ok & Hok & (m & Hm) & Hn).
  cbv zeta in Hok, Hm, Hn.
  unfold video_stage, try_except, call, emit, lift, mbind, M_bind, mret, M_ret.
  cbn [fst snd]. rewrite Hcall. cbn [fst snd]. rewrite Hok. cbn [truthy].
  destruct ok.
  - destruct (Hn eq_refl) as (n & ->). reflexivity.
  - rewrite Hm. reflexivity.
Qed.

End VideoStage.

(** ** WorkflowProcessor, beyond the search that finds notes *)

Section WorkflowMore.
Import Main.
Variable World : Type.
Variable search_notes : string -> Z -> Z -> Z -> World -> outcome (list XHSNote) * World.
Variable read_note_content : string -> World -> outcome (option NoteContent) * World.
Variable process_content : string -> World -> outcome (option string) * World.
Variable process_video_workflow : string -> Z -> World -> outcome json * World.
Variable add_database_item : string -> list property -> World -> outcome bool * World.
Variable today : World -> string.
Variable str_ : json -> string.
Variable config : config_dict.

Abbreviation stage := (video_stage World process_video_workflow str_ config).
Abbreviation turn := (guarded World read_note_content process_content
                    process_video_workflow add_database_item today str_ config).
Abbreviation loop := (notes_loop World read_note_content process_content
                    process_video_workflow add_database_item today str_ config).
Abbreviation run := (process_workflow World search_notes read_note_content process_content
                   process_video_workflow add_database_item today str_ config).
Abbreviation search keyword :=
  (search_notes keyword (get_or (note_type config) 2%Z) (get_or (sort config) 2%Z)
     (get_or (total_number config) 2%Z)).

(** The video stage never raises: its own [except] turns a failure of the
    manager into a report. *)
Lemma video_stage_returns note processed_content st :
  exists v st', stage note processed_content st = (Returned v, st').
Proof.
  unfold video_stage, try_except.
  match goal with |- context [match ?body st with _ => _ end] =>
    destruct (body st) as [[v | e] st'] end; eauto.
Qed.

(** The loop adds at most one result per note. *)
Lemma notes_loop_length notes : forall acc st rs st',
  loop notes acc st = (Returned rs, st') ->
  (length rs <= length acc + length notes)%nat.
Proof.
  induction notes as [| note notes IH]; intros acc st rs st' H.
  - cbn in H. injection H as <- _. lia.
  - rewrite notes_loop_cons in H.
    destruct (guarded_returns World read_note_content process_content
                process_video_workflow add_database_item today str_ config note st)
      as (r & st1 & Hg).
    rewrite Hg in H. apply IH in H. cbn [length].
    destruct r; [rewrite length_app in H; cbn [length] in H |]; lia.
Qed.

(** X17. [process_workflow] never raises: it always returns a report. A
    search that raises gives the failure report carrying the exception's
    text, a search that finds nothing gives the report ["未找到任何笔记"],
    both without a result list; any other search gives a report whose
    flag is true and whose results are at most as many as the notes
    found. *)
Theorem process_workflow_always_reports keyword w lg :
  exists r st',
    run keyword (w, lg) = (Returned r, st') /\
    (forall e w1, search keyword w = (Raised e, w1) ->
       r = {| success := false;
              message := "工作流处理失败: " +:+ exn_str e;
              results := None |}) /\
    (forall w1, search keyword w = (Returned [], w1) ->
       r = {| success := false; message := "未找到任何笔记"; results := None |}) /\
    (forall note notes w1, search keyword w = (Returned (note :: notes), w1) ->
       success r = true /\
       exists rs, results r = Some rs /\ (length rs <= length (note :: notes))%nat).
Proof.
  destruct (search keyword w) as [[notes | e] w1] eqn:Hsearch.
  - destruct notes as [| note notes].
    + eexists _, _. split.
      * unfold process_workflow, try_except, mbind, M_bind, emit, call.
        cbn [fst snd]. rewrite Hsearch. cbn [fst snd]. reflexivity.
      * repeat split; intros; congruence.
    + destruct (notes_loop_returns World read_note_content process_content
                  process_video_workflow add_database_item today str_ config
                  (note :: notes) []
                  (w1, (lg ++ [(INFO, "开始处理工作流，关键词: " +:+ keyword)])
                         ++ [(INFO, "找到 "
                                    +:+ str_of_Z (Z.of_nat (length (note :: notes)))
                                    +:+ " 条笔记")]))
        as (rs & st' & _ & Hloop).
      exists (success_report rs), st'. split.
      * apply (process_workflow_found World search_notes read_note_content
                 process_content process_video_workflow add_database_item today str_
                 config keyword w lg (note :: notes) w1 rs st' Hsearch);
          [discriminate | exact Hloop].
      * split; [intros; congruence |]. split; [intros; congruence |].
        intros note' notes' w1' [= <- <- <-]. split; [reflexivity |].
        exists rs. split; [reflexivity |].
        apply notes_loop_length in Hloop. exact Hloop.
  - eexists _, _. split.
    + unfold process_workflow, try_except, mbind, M_bind, emit, call.
      cbn [fst snd]. rewrite Hsearch. cbn [fst snd]. reflexivity.
    + split; [intros e' w1' [= <- <-]; reflexivity |]. split; intros; congruence.
Qed.

Hypothesis read_succeeds : forall url w,
  exists content w', read_note_content url w = (Returned (Some content), w').
Hypothesis rewrite_succeeds : forall content w,
  exists processed w',
    process_content content w = (Returned (Some processed), w') /\
    processed <> EmptyString.
Hypothesis persistence_returns : forall database_id properties w,
  exists saved w', add_database_item database_id properties w = (Returned saved, w').
Hypothesis original_configured : original_database_id config <> None.
Hypothesis processed_configured : processed_database_id config <> None.

(** When the reader and the rewriter answer, a turn of the loop yields
    the note's result whatever the video stage and the persistence did. *)
Lemma guarded_keeps note st :
  exists result st',
    turn note st = (Returned (Some result), st') /\
    result_note_id result = note_id note.
Proof.
  destruct st as [w lg].
  destruct (read_succeeds (note_url note) w) as (content & w1 & Hread).
  destruct (rewrite_succeeds (desc content) w1) as (processed & w2 & Hllm & Hne).
  destruct (video_stage_returns note processed (w2, lg)) as (v & [w3 lg3] & Hstage).
  destruct (original_database_id config) as [db1 |] eqn:Hdb1; [| congruence].
  destruct (processed_database_id config) as [db2 |] eqn:Hdb2; [| congruence].
  destruct (persistence_returns db1
              (original_properties note (today w3)) w3) as (s1 & w4 & Hadd1).
  destruct (persistence_returns db2
              (processed_properties processed (today w3)) w4) as (s2 & w5 & Hadd2).
  unfold guarded, try_except, process_note, mbind, M_bind, call, lift, emit.
  cbn [fst snd]. rewrite Hread. cbn [fst snd]. rewrite Hllm. cbn [fst snd].
  destruct processed as [| c processed']; [congruence |].
  rewrite Hstage. cbn [fst snd]. rewrite Hdb1, Hdb2. cbn [lookup_key fst snd].
  rewrite Hadd1. cbn [fst snd]. rewrite Hadd2. cbn [fst snd].
  eexists _, _. split; reflexivity.
Qed.

Lemma notes_loop_keeps notes : forall acc st,
  exists rs st',
    loop notes acc st = (Returned (acc ++ rs), st') /\
    map result_note_id rs = map note_id notes.
Proof.
  induction notes as [| note notes IH]; intros acc st.
  - exists [], st. cbn. now rewrite app_nil_r.
  - rewrite notes_loop_cons.
    destruct (guarded_keeps note st) as (result & st1 & -> & Hid).
    destruct (IH (acc ++ [result]) st1) as (rs & st' & -> & Hids).
    exists (result :: rs), st'. split.
    + now rewrite <- app_assoc.
    + cbn [map]. now rewrite Hid, Hids.
Qed.

(** X18. When the reader answers for every note, the rewriter gives a
    non-empty text, the persistence calls return and both database ids
    are configured, the report lists one result per note found, in the
    order of the search; neither a failing video stage nor a persistence
    call that answers [False] drops a note. *)
Theorem process_workflow_reports_every_note keyword w lg notes w1 :
  search keyword w = (Returned notes, w1) ->
  notes <> [] ->
  exists rs st',
    run keyword (w, lg) = (Returned (success_report rs), st') /\
    map result_note_id rs = map note_id notes.
Proof.
  intros Hsearch Hne.
  destruct (notes_loop_keeps notes []
              (w1, (lg ++ [(INFO, "开始处理工作流，关键词: " +:+ keyword)])
                     ++ [(INFO, "找到 " +:+ str_of_Z (Z.of_nat (length notes))
                                +:+ " 条笔记")]))
    as (rs & st' & Hloop & Hids).
  exists rs, st'. split; [| exact Hids].
  exact (process_workflow_found World search_notes read_note_content
           process_content process_video_workflow add_database_item today str_
           config keyword w lg notes w1 rs st' Hsearch Hne Hloop).
Qed.

End WorkflowMore.

(** ** The collaborators of the orchestrator *)

Section CollaboratorFacts.
Import VideoGenerator Main Collaborators.

(** X19. The search hands back a prefix of its two notes, never more
    than two whatever [total_number] asks for; a negative [total_number]
    counts from the end, so that -1 still yields one note. *)
Theorem search_notes_count keywords note_type sort total_number :
  let notes := fst (search_notes keywords note_type sort total_number) in
  (exists rest, mock_notes keywords = notes ++ rest) /\
  Z.of_nat (length notes)
    = if (total_number <? 0)%Z then Z.max 0 (2 + total_number)
      else Z.min total_number 2.
Proof.
  cbv zeta. unfold search_notes, list_slice_to. cbn [fst]. split.
  - destruct (0 <=? total_number)%Z; eexists; symmetry; apply firstn_skipn.
  - change (length (mock_notes keywords)) with 2%nat.
    destruct (Z.leb_spec 0 total_number), (Z.ltb_spec total_number 0);
      rewrite length_firstn; change (length (mock_notes keywords)) with 2%nat; lia.
Qed.

Lemma dict_get_set_eq {V} (k : string) (v : V) (d : dict V) :
  dict_get k (dict_set k v d) = Some v.
Proof.
  induction d as [| [k' v'] d IH]; cbn [dict_set dict_get].
  - now rewrite String.eqb_refl.
  - destruct (String.eqb k' k) eqn:E; cbn [dict_get]; now rewrite E.
Qed.

Lemma dict_get_set_ne {V} (k k' : string) (v : V) (d : dict V) :
  k <> k' -> dict_get k' (dict_set k v d) = dict_get k' d.
Proof.
  intros Hne. induction d as [| [k0 v0] d IH]; cbn [dict_set dict_get].
  - destruct (String.eqb_spec k k'); [contradiction | reflexivity].
  - destruct (String.eqb_spec k0 k) as [-> | Hk]; cbn [dict_get].
    + destruct (String.eqb_spec k k'); [contradiction | reflexivity].
    + now rewrite IH.
Qed.

Lemma convert_app pre post : forall acc,
  convert (pre ++ post) acc = convert post (convert pre acc).
Proof.
  induction pre as [| p pre IH]; intros acc; [reflexivity |].
  cbn [app convert]. apply IH.
Qed.

(** Properties that are not converted, or that have another name, leave
    the entry of a name as it was. *)
Lemma convert_other n properties : forall acc,
  (forall q, In q properties -> name q = n -> notion_value q = None) ->
  dict_get n (convert properties acc) = dict_get n acc.
Proof.
  induction properties as [| p properties IH]; intros acc Hq; [reflexivity |].
  cbn [convert]. rewrite IH by (intros q Hin; apply Hq; now right).
  destruct (notion_value p) as [v |] eqn:Hv; [| reflexivity].
  apply dict_get_set_ne. intros Hn.
  rewrite (Hq p (or_introl eq_refl) Hn) in Hv. discriminate.
Qed.

(** X20. What [add_database_item] sends to Notion: a property whose type
    is not one of title, rich_text, url and date is left out without a
    word, and of several convertible properties with one name the last
    one is the one sent. *)
Theorem convert_sends properties :
  (forall n,
     (forall q, In q properties -> name q = n -> notion_value q = None) ->
     dict_get n (convert properties []) = None) /\
  (forall pre p post v,
     properties = pre ++ p :: post ->
     notion_value p = Some v ->
     (forall q, In q post -> name q = name p -> notion_value q = None) ->
     dict_get (name p) (convert properties []) = Some v).
Proof.
  split.
  - intros n Hq. now rewrite convert_other.
  - intros pre p post v -> Hv Hpost.
    rewrite convert_app. cbn [convert]. rewrite Hv.
    rewrite convert_other by exact Hpost. apply dict_get_set_eq.
Qed.

(** X21. The text stored as ["Content"] in the processed database never
    has more than 2000 characters: a rewritten text that fits is stored
    as it is, a longer one is cut to its first 1997 characters followed by
    three dots. *)
Theorem processed_properties_fit processed_content current_date :
  exists content rest,
    processed_properties processed_content current_date
      = {| name := "Content"; type := "title"; value := content |} :: rest /\
    (len content <= 2000)%nat /\
    ((len processed_content <= 2000)%nat -> content = processed_content) /\
    ((2000 < len processed_content)%nat ->
     len content = 2000%nat /\
     content = first_chars 1997 processed_content +:+ "...").
Proof.
  unfold processed_properties. eexists _, _. split; [reflexivity |].
  destruct (Nat.ltb_spec 2000 (len processed_content)) as [Hlong | Hfits].
  - assert (Hlen : len (first_chars 1997 processed_content +:+ "...") = 2000%nat).
    { rewrite len_append, len_first_chars. change (len "...") with 3%nat. lia. }
    split; [lia |]. split; [lia |]. intros _. split; [exact Hlen | reflexivity].
  - split; [exact Hfits |]. split; [reflexivity | lia].
Qed.

End CollaboratorFacts.

Section ConfiguredRun.
Import VideoGenerator Main.
Variable int : string -> outcome Z.
Variable upper : string -> string.
Variable environ : gmap string string.
Variable World : Type.
Variable logged : log -> World -> World.
Variable create : World -> string -> dict json -> outcome json.
Variable created : string -> dict json -> World -> World.
Variable process_content : string -> World -> outcome (option string) * World.
Variable process_video_workflow : string -> Z -> World -> outcome json * World.
Variable today : World -> string.
Variable str_ : json -> string.

(** A configuration that [get_config] returns asks for at least one
    note. *)
Lemma get_config_total_number config :
  Config.get_config int upper environ = Returned config ->
  (0 < Config.total_number config)%Z.
Proof.
  unfold Config.get_config.
  destruct (Config.missing_configs environ); [| intros [=]].
  destruct (int (Config.getenv_or environ "DEFAULT_SCENE_COUNT" "3")) as [sc | ?]; [| intros [=]].
  destruct (int (Config.getenv_or environ "NOTE_TYPE" "2")) as [nt | ?]; [| intros [=]].
  destruct (int (Config.getenv_or environ "SORT" "2")) as [so | ?]; [| intros [=]].
  destruct (int (Config.getenv_or environ "TOTAL_NUMBER" "2")) as [tn | ?]; [| intros [=]].
  destruct (int (Config.getenv_or environ "REQUEST_TIMEOUT" "30")) as [rt | ?]; [| intros [=]].
  destruct (int (Config.getenv_or environ "MAX_RETRIES" "3")) as [mr | ?]; [| intros [=]].
  cbn [mbind outcome_bind].
  destruct (Config._validate_config upper _) as [[] | ?] eqn:Hval; [| intros [=]].
  cbn [mbind outcome_bind mret outcome_ret]. intros [= <-].
  destruct (Z.le_gt_cases (Config.total_number
              (Config.config_of environ sc nt so tn rt mr)) 0) as [Hle | Hgt]; [| lia].
  destruct (validate_config_spec upper (Config.config_of environ sc nt so tn rt mr))
    as [Hbad _].
  destruct Hbad as [msg Hmsg]; [right; right; left; exact Hle |]. congruence.
Qed.

(** X22. A processor set up from a configuration that [get_config]
    accepted, with the search, the reader and the Notion manager of
    main.py, reports success with one result per note the search hands
    back, the first [min(total_number, 2)] of its notes, as soon as the
    rewriter answers with a text; the Notion client and the video manager
    may answer or fail as they like. *)
Theorem configured_run_reports config keyword w lg :
  Config.get_config int upper environ = Returned config ->
  (forall content w, exists processed w',
     process_content content w = (Returned (Some processed), w') /\
     processed <> EmptyString) ->
  exists rs st',
    process_workflow World
      (Wiring.search_notes World logged)
      (Wiring.read_note_content World logged)
      process_content process_video_workflow
      (Wiring.add_database_item World logged create created str_)
      today str_ (Collaborators.get_config_dict config) keyword (w, lg)
      = (Returned (success_report rs), st') /\
    map result_note_id rs
      = firstn (Z.to_nat (Config.total_number config)) ["mock_note_1"; "mock_note_2"].
Proof.
  intros Hconfig Hllm.
  pose proof (get_config_total_number config Hconfig) as Hpos.
  set (notes := fst (Collaborators.search_notes keyword
                       (Config.note_type config) (Config.sort config)
                       (Config.total_number config))).
  assert (Hnotes : map note_id notes
                   = firstn (Z.to_nat (Config.total_number config))
                       ["mock_note_1"; "mock_note_2"]).
  { subst notes. unfold Collaborators.search_notes, Collaborators.list_slice_to.
    cbn [fst]. destruct (Z.leb_spec 0 (Config.total_number config)); [| lia].
    now rewrite <- firstn_map. }
  assert (Hne : notes <> []).
  { intros Hnil. rewrite Hnil in Hnotes. cbn [map] in Hnotes.
    destruct (Z.to_nat (Config.total_number config)) eqn:E; [lia | discriminate]. }
  destruct (notes_loop_keeps World
              (Wiring.read_note_content World logged)
              process_content process_video_workflow
              (Wiring.add_database_item World logged create created str_)
              today str_ (Collaborators.get_config_dict config))
    with (notes := notes) (acc := @nil item_result)
         (st := (logged (snd (Collaborators.search_notes keyword
                                (Config.note_type config) (Config.sort config)
                                (Config.total_number config))) w,
                 (lg ++ [(INFO, "开始处理工作流，关键词: " +:+ keyword)])
                    ++ [(INFO, "找到 " +:+ str_of_Z (Z.of_nat (length notes))
                               +:+ " 条笔记")]))
    as (rs & st' & Hloop & Hids).
  - intros url w0. unfold Wiring.read_note_content, Collaborators.read_note_content.
    eexists _, _. reflexivity.
  - exact Hllm.
  - intros db props w0. unfold Wiring.add_database_item.
    destruct (Collaborators.add_database_item _ _ _ _) as [saved lg0].
    eexists _, _. reflexivity.
  - discriminate.
  - discriminate.
  - exists rs, st'. split; [| now rewrite Hids].
    apply (process_workflow_found World (Wiring.search_notes World logged)
             (Wiring.read_note_content World logged)
             process_content process_video_workflow
             (Wiring.add_database_item World logged create created str_)
             today str_ (Collaborators.get_config_dict config)
             keyword w lg notes
             (logged (snd (Collaborators.search_notes keyword
                             (Config.note_type config) (Config.sort config)
                             (Config.total_number config))) w)
             rs st'); [| exact Hne | exact Hloop].
    reflexivity.
Qed.

End ConfiguredRun.

(** ** StoryboardGenerator, read backwards *)

Section StoryboardMore.
Import VideoGenerator.
Variable json_loads : string -> outcome json.
Variable prompt_of : string -> Z -> string.

Lemma find_absent c s : Text.contains c s = false -> find c s = (-1)%Z.
Proof.
  induction s as [| c' s IH]; [reflexivity |]. cbn [Text.contains find].
  destruct (Ascii.eqb c' c); [discriminate |]. cbn [orb]. intros H.
  now rewrite (IH H).
Qed.

Lemma rfind_absent c s : Text.contains c s = false -> rfind c s = (-1)%Z.
Proof.
  induction s as [| c' s IH]; [reflexivity |]. cbn [Text.contains rfind].
  destruct (Ascii.eqb c' c); [discriminate |]. cbn [orb]. intros H.
  now rewrite (IH H).
Qed.

(** The first occurrence after a text without the character, and the
    last one before such a text. *)
Lemma find_append c pre rest :
  Text.contains c pre = false ->
  find c (pre +:+ String c rest) = Z.of_nat (String.length pre).
Proof.
  induction pre as [| c' pre IH].
  - intros _. change (find c (String c rest) = 0%Z). cbn [find].
    now rewrite Ascii.eqb_refl.
  - cbn [Text.contains]. destruct (Ascii.eqb c' c) eqn:E; [discriminate |].
    cbn [orb]. intros H. rewrite append_cons. cbn [find]. rewrite E, (IH H).
    destruct (Z.eqb_spec (Z.of_nat (String.length pre)) (-1)); [lia |].
    cbn [String.length]. lia.
Qed.

Lemma rfind_append c front post :
  Text.contains c post = false ->
  rfind c (front +:+ String c post) = Z.of_nat (String.length front).
Proof.
  intros H. induction front as [| c' front IH].
  - change (rfind c (String c post) = 0%Z). cbn [rfind].
    rewrite (rfind_absent c post H). cbn. now rewrite Ascii.eqb_refl.
  - rewrite append_cons. cbn [rfind]. rewrite IH.
    destruct (Z.eqb_spec (Z.of_nat (String.length front)) (-1)); [lia |].
    cbn [String.length]. lia.
Qed.

Lemma substring_skip pre n s :
  substring (String.length pre) n (pre +:+ s) = substring 0 n s.
Proof.
  induction pre as [| c pre IH]; [reflexivity |].
  rewrite append_cons. cbn [String.length substring]. exact IH.
Qed.

Lemma substring_front s t :
  substring 0 (String.length s) (s +:+ t) = s.
Proof.
  induction s as [| c s IH].
  - now destruct t.
  - rewrite append_cons. cbn [String.length substring]. now rewrite IH.
Qed.

(** What is cut out of an answer and handed to [json.loads]. *)
Lemma payload_between pre mid post :
  Text.contains "{" pre = false ->
  Text.contains "}" post = false ->
  let text := pre +:+ "{" +:+ mid +:+ "}" +:+ post in
  find "{" text <> (-1)%Z /\
  (rfind "}" text + 1)%Z <> 0%Z /\
  slice text (find "{" text) (rfind "}" text + 1) = "{" +:+ mid +:+ "}".
Proof.
  intros Hpre Hpost text.
  assert (Hfind : find "{" text = Z.of_nat (String.length pre)).
  { subst text. change ("{" +:+ mid +:+ "}" +:+ post)
      with (String "{" (mid +:+ "}" +:+ post)).
    now apply find_append. }
  assert (Hrfind : rfind "}" text
                   = Z.of_nat (String.length (pre +:+ "{" +:+ mid))).
  { subst text.
    replace (pre +:+ "{" +:+ mid +:+ "}" +:+ post)
      with ((pre +:+ "{" +:+ mid) +:+ String "}" post).
    - now apply rfind_append.
    - rewrite !append_assoc. reflexivity. }
  rewrite Hfind, Hrfind. split; [lia |]. split; [lia |].
  unfold slice. rewrite Nat2Z.id.
  replace (Z.to_nat (Z.of_nat (String.length (pre +:+ "{" +:+ mid)) + 1
                     - Z.of_nat (String.length pre)))
    with (String.length ("{" +:+ mid +:+ "}")).
  - subst text. rewrite substring_skip.
    replace ("{" +:+ mid +:+ "}" +:+ post) with (("{" +:+ mid +:+ "}") +:+ post).
    + apply substring_front.
    + rewrite !append_assoc. reflexivity.
  - rewrite !append_length. cbn [String.length]. lia.
Qed.

(** X23. Prose around the braces is ignored: an answer that wraps an
    object in text without an opening brace before it and without a
    closing brace after it is parsed exactly as the object alone, log
    included. *)
Theorem parse_storyboard_ignores_prose pre mid post :
  Text.contains "{" pre = false ->
  Text.contains "}" post = false ->
  _parse_storyboard_response json_loads (JStr (pre +:+ "{" +:+ mid +:+ "}" +:+ post))
    = _parse_storyboard_response json_loads (JStr ("{" +:+ mid +:+ "}")).
Proof.
  intros Hpre Hpost.
  destruct (payload_between pre mid post Hpre Hpost) as (Hf & Hr & Hs).
  destruct (payload_between "" mid "" eq_refl eq_refl) as (Hf' & Hr' & Hs').
  cbv zeta in *.
  change ("" +:+ "{" +:+ mid +:+ "}" +:+ "") with ("{" +:+ mid +:+ "}") in *.
  unfold _parse_storyboard_response, parse_try.
  destruct (Z.eqb_spec (find "{" (pre +:+ "{" +:+ mid +:+ "}" +:+ post)) (-1));
    [contradiction |].
  destruct (Z.eqb_spec (rfind "}" (pre +:+ "{" +:+ mid +:+ "}" +:+ post) + 1) 0);
    [contradiction |].
  destruct (Z.eqb_spec (find "{" ("{" +:+ mid +:+ "}")) (-1)); [contradiction |].
  destruct (Z.eqb_spec (rfind "}" ("{" +:+ mid +:+ "}") + 1) 0); [contradiction |].
  cbn [orb]. rewrite Hs, Hs'. reflexivity.
Qed.

(** A loop that returns has seen objects only. *)
Lemma scenes_loop_returned entries : forall acc scenes,
  scenes_loop entries acc = Returned scenes ->
  exists dicts, entries = map JObj dicts /\ scenes = acc ++ map scene_from_dict dicts.
Proof.
  induction entries as [| entry entries IH]; intros acc scenes H.
  - cbn in H. injection H as <-. exists []. now rewrite app_nil_r.
  - cbn [scenes_loop] in H. destruct entry; try discriminate H.
    cbn [scene_of mbind outcome_bind] in H.
    destruct (IH _ _ H) as (dicts & -> & ->).
    exists (members :: dicts). split; [reflexivity |].
    now rewrite <- app_assoc.
Qed.

(** X24. A storyboard that is not empty can only come from a well-formed
    answer: the endpoint answered 200 with a body whose
    [choices[0].message.content] is a string, the text between its first
    opening and its last closing brace decodes to an object, and every
    entry of its ["scenes"] is an object, one per scene and in the same
    order. One entry that is not an object leaves no scene at all. *)
Theorem generate_storyboard_sound post content num_scenes :
  let scenes := fst (generate_storyboard json_loads prompt_of post content num_scenes) in
  scenes <> [] ->
  exists resp text data dicts,
    post (storyboard_request prompt_of content num_scenes) = Returned resp /\
    resp_status resp = 200%Z /\
    (result ← resp_json resp;
     choices ← getitem result "choices";
     choice ← getitem0 choices;
     message ← getitem choice "message";
     getitem message "content") = Returned (JStr text) /\
    json_loads (slice text (find "{" text) (rfind "}" text + 1)) = Returned (JObj data) /\
    iterate (get data "scenes" (JArr [])) = Returned (map JObj dicts) /\
    scenes = map scene_from_dict dicts.
Proof.
  cbv zeta. unfold generate_storyboard.
  destruct (post (storyboard_request prompt_of content num_scenes)) as [resp | e];
    [| intros H; now contradiction H].
  destruct (Z.eqb_spec (resp_status resp) 200) as [Hst | _];
    [| intros H; now contradiction H].
  destruct (_ ← resp_json resp; _) as [storyboard_text | e] eqn:Hpath;
    [| intros H; now contradiction H].
  unfold _parse_storyboard_response, parse_try.
  destruct storyboard_text as [| | | | text | |];
    try (cbn; intros H; now contradiction H).
  destruct ((find "{" text =? -1)%Z || (rfind "}" text + 1 =? 0)%Z);
    [intros H; now contradiction H |].
  destruct (json_loads _) as [data | e] eqn:Hloads.
  2:{ cbn [mbind outcome_bind]. destruct (String.eqb _ _); intros H; now contradiction H. }
  cbn [mbind outcome_bind].
  destruct data as [| | | | | | data];
    try (cbn; intros H; now contradiction H).
  destruct (iterate (get data "scenes" (JArr []))) as [entries | e] eqn:Hentries.
  2:{ cbn [mbind outcome_bind]. destruct (String.eqb _ _); intros H; now contradiction H. }
  cbn [mbind outcome_bind].
  destruct (scenes_loop entries []) as [scenes | e] eqn:Hloop.
  2:{ destruct (String.eqb _ _); intros H; now contradiction H. }
  cbn [fst]. intros _.
  destruct (scenes_loop_returned entries [] scenes Hloop) as (dicts & -> & ->).
  exists resp, text, data, dicts. repeat split; assumption.
Qed.

End StoryboardMore.

(** * The further properties at concrete inputs *)

Section TextExamples.
Import Text.

(** Four characters fit a bound of five, whatever their bytes; a longer
    sentence is cut to twelve characters. *)
Lemma truncate_text_fits_witness :
  truncate_text "你好世界" 5 = "你好世界" /\
  (Z.of_nat (len (truncate_text "the quick brown fox" 12)) <= 12)%Z /\
  exists kept rest,
    truncate_text "the quick brown fox" 12 = kept +:+ "..." /\
    "the quick brown fox" = kept +:+ rest.
Proof.
  split.
  - apply (proj1 (truncate_text_fits "你好世界" 5)). vm_compute. discriminate.
  - apply (proj2 (truncate_text_fits "the quick brown fox" 12)).
    + lia.
    + vm_compute. reflexivity.
Defined.

(** A key of fourteen characters, two of them accented, with four asked
    to stay and a mask that is no ASCII character. *)
Lemma mask_sensitive_data_shape_witness :
  len (mask_sensitive_data "clé-secrète-42" "•" 4) = len "clé-secrète-42" /\
  ((0 <= 4 < Z.of_nat (len "clé-secrète-42"))%Z ->
   let half := Z.to_nat (4 / 2) in
   mask_sensitive_data "clé-secrète-42" "•" 4
     = first_chars half "clé-secrète-42"
       +:+ repeat_str "•" (len "clé-secrète-42" - 2 * half)
       +:+ skip_chars (len "clé-secrète-42" - half) "clé-secrète-42" /\
   (2 * half <= Z.to_nat 4)%nat).
Proof. apply (mask_sensitive_data_shape "clé-secrète-42" "•" 4). reflexivity. Defined.

End TextExamples.

Section UtilsExamples.
Import Utils Observations Samples.


(** A second request ten seconds after the first, one allowed per
    minute: 51 seconds of sleep. *)
Lemma wait_if_needed_delay_witness :
  (1 < 51)%Q /\ (51 <= inject_Z (time_window busy_limiter) + 1)%Q /\
  admitted_at {| admitted_at := 61; slept := Some 51%Q |} = (10 + 51 + 0)%Q /\
  exists kept,
    requests {| max_requests := 1; time_window := 60; requests := [61%Q] |}
      = kept ++ [(10 + 51 + 0)%Q].
Proof.
  apply (wait_if_needed_delay busy_limiter 10 0
           {| admitted_at := 61; slept := Some 51%Q |}
           {| max_requests := 1; time_window := 60; requests := [61%Q] |} 51).
  - repeat constructor. cbn. lra.
  - vm_compute. reflexivity.
  - reflexivity.
Defined.

(** Two checkpoints, one and three seconds after the start. *)
Lemma get_summary_monotone_witness :
  Forall (fun d => (0 <= d)%Q)
    (values (duration_entries
               (get_summary exact_sub
                  (record_all exact_sub 0 ([("search", 1%Q)] ++ [("fetch", 3%Q)]))))) /\
  exists total,
    dict_get "total_duration"
      (get_summary exact_sub
         (record_all exact_sub 0 ([("search", 1%Q)] ++ [("fetch", 3%Q)]))) = Some total /\
    (total == exact_sub 3 0)%Q.
Proof.
  apply (get_summary_monotone exact_sub).
  - intros a b H. unfold exact_sub. lra.
  - intros a a' b H. unfold exact_sub. lra.
  - cbn. repeat constructor; rewrite ?elem_of_cons, ?elem_of_nil;
      intros H; decompose [or] H; discriminate || contradiction.
  - cbn. rewrite !elem_of_cons, elem_of_nil.
    intros H; decompose [or] H; discriminate || contradiction.
  - cbn. repeat split; lra.
Defined.

End UtilsExamples.

Section EnvFileExamples.
Import EnvFile Scenarios.

(** [A] is set twice and ends with its second value; [C] is not set by
    the file. *)
Lemma load_lines_last_wins_witness :
  snd (load_lines Config.strip dotenv ∅) !! "A" = Some "2" /\
  (forall k',
      Forall (fun l => forall v', assignment Config.strip l <> Some (k', v'))
             (["A=1"] ++ "A=2" :: ["B=3"]) ->
      snd (load_lines Config.strip dotenv ∅) !! k' = (∅ : gmap string string) !! k').
Proof.
  apply (load_lines_last_wins Config.strip ["A=1"] "A=2" ["B=3"] ∅).
  - change (load_lines Config.strip dotenv ∅
            = (Returned tt, snd (load_lines Config.strip dotenv ∅))).
    rewrite (surjective_pairing (load_lines Config.strip dotenv ∅)) at 1.
    f_equal; vm_compute; reflexivity.
  - vm_compute. reflexivity.
  - repeat constructor. intros v' H. vm_compute in H. discriminate H.
Defined.

(** The second line of the file assigns to an empty name. *)
Lemma load_env_file_stops_witness :
  _load_env_file Config.strip (Some ".env") broken_dotenv ∅
    = (snd (load_lines Config.strip ["A=1"] ∅),
       [(WARNING, "加载环境变量文件失败: [Errno 22] Invalid argument")]).
Proof.
  apply (load_env_file_stops Config.strip ".env" broken_dotenv ["A=1"] "=oops" ["B=2"]
           None ∅ (snd (load_lines Config.strip ["A=1"] ∅)) "oops").
  - discriminate.
  - reflexivity.
  - rewrite (surjective_pairing (load_lines Config.strip ["A=1"] ∅)) at 1.
    f_equal; vm_compute; reflexivity.
  - vm_compute. reflexivity.
  - reflexivity.
Defined.

(** A value that holds an equals sign. *)
Lemma assignment_round_trip_witness :
  assignment Config.strip ("TOKEN" +:+ "=" +:+ "a=b") = Some ("TOKEN", "a=b").
Proof.
  apply (assignment_round_trip Config.strip "TOKEN" "a=b"); vm_compute; reflexivity.
Defined.

End EnvFileExamples.

Section ConfigMoreExamples.
Import Config Samples.

(** The required settings alone: every default is in range. *)
Lemma get_config_returns_valid_witness :
  let config := config_of minimal_env 3 2 2 2 30 3 in
  (note_type config = 0 \/ note_type config = 1 \/ note_type config = 2)%Z /\
  (sort config = 0 \/ sort config = 1 \/ sort config = 2)%Z /\
  (0 < total_number config)%Z /\
  (0 < request_timeout config)%Z /\
  (0 <= max_retries config)%Z /\
  In (upper_ascii (log_level config)) valid_log_levels /\
  xhs_cookie config <> EmptyString /\
  llm_api_key config <> EmptyString /\
  notion_token config <> EmptyString /\
  original_database_id config <> EmptyString /\
  processed_database_id config <> EmptyString /\
  doubao_api_key config <> EmptyString.
Proof.
  apply (get_config_returns_valid int_ascii upper_ascii minimal_env
           (config_of minimal_env 3 2 2 2 30 3)).
  vm_compute. reflexivity.
Defined.

End ConfigMoreExamples.

Section VideoExamples.
Import VideoGenerator VideoWorkflow Samples Scenarios.

(** A delivered scene: the path is made of the directory, the scene id
    and the timestamp. *)
Lemma generate_video_local_path_witness :
  status delivered_result = "success" /\
  "videos/scene_1_20240101_000000.mp4"
    = join_path "videos"
        (str_scalar (scene_id opening_scene) +:+ "_" +:+ stamp (download_at delivered)
         +:+ ".mp4") /\
  exists url done, video_url delivered_result = Some url /\
    fetch delivered url "videos/scene_1_20240101_000000.mp4"
      = Returned (200%Z, Returned done).
Proof.
  apply (generate_video_local_path str_scalar stamp join_path delivered opening_scene
           "videos" delivered_result "videos/scene_1_20240101_000000.mp4").
  - vm_compute. reflexivity.
  - reflexivity.
Defined.

(** The second visual element is the number 3. *)
Lemma generate_video_bad_elements_witness :
  fst (generate_video str_scalar stamp join_path delivered odd_scene "videos")
    = Returned (failed odd_scene
        ("sequence item " +:+ str_of_Z (Z.of_nat (length ["desk"]))
         +:+ ": expected str instance, " +:+ type_name (JInt 3) +:+ " found")).
Proof.
  apply (generate_video_bad_elements str_scalar stamp join_path delivered odd_scene
           "videos" ["desk"] (JInt 3) [JStr "lamp"]).
  - reflexivity.
  - reflexivity.
  - intros s. discriminate.
Defined.

(** Two scenes, the first delivered and the second refused: one success
    and one failure. *)
Lemma process_video_workflow_counts_witness :
  exists video_results : list VideoGenerationResult,
    (forall j scene, fst storyboard !! j = Some scene ->
       exists r, video_results !! j = Some r /\
         fst (generate_video str_scalar stamp join_path (first_only j) scene "videos")
           = Returned r) /\
    length video_results = length (fst storyboard) /\
    getitem (fst (video_workflow "content" 2)) "video_results"
      = Returned (JArr (map result_entry video_results)) /\
    let ok := length (List.filter (fun r => String.eqb (status r) "success")
                        video_results) in
    let bad := length (List.filter (fun r => String.eqb (status r) "failed")
                         video_results) in
    getitem (fst (video_workflow "content" 2)) "total_scenes"
      = Returned (JInt (Z.of_nat (length (fst storyboard)))) /\
    getitem (fst (video_workflow "content" 2)) "successful_videos"
      = Returned (JInt (Z.of_nat ok)) /\
    getitem (fst (video_workflow "content" 2)) "failed_videos"
      = Returned (JInt (Z.of_nat bad)) /\
    (ok + bad)%nat = length (fst storyboard) /\
    exists flag,
      getitem (fst (video_workflow "content" 2)) "success" = Returned (JBool flag) /\
      (flag = true <-> exists r, In r video_results /\ status r = "success").
Proof.
  apply (process_video_workflow_counts Decoder.loads brief str_scalar stamp join_path
           (always two_scenes) first_only "content" 2 (fst storyboard) (snd storyboard)).
  - apply surjective_pairing.
  - vm_compute. discriminate.
Defined.

(** The same report lists one outcome per scene, in order. *)
Lemma process_video_workflow_order_witness :
  exists scene_entries result_entries,
    getitem (fst (video_workflow "content" 2)) "scenes" = Returned (JArr scene_entries) /\
    getitem (fst (video_workflow "content" 2)) "video_results"
      = Returned (JArr result_entries) /\
    map (fun entry => getitem entry "scene_id") result_entries
      = map (fun entry => getitem entry "scene_id") scene_entries /\
    map (fun entry => getitem entry "scene_id") scene_entries
      = map (fun scene => Returned (scene_id scene)) (fst storyboard).
Proof.
  apply (process_video_workflow_order Decoder.loads brief str_scalar stamp join_path
           (always two_scenes) first_only "content" 2 (fst storyboard) (snd storyboard)).
  - apply surjective_pairing.
  - vm_compute. discriminate.
Defined.

(** The reply of the examples, cut at its braces. *)
Lemma parse_storyboard_ignores_prose_witness :
  _parse_storyboard_response Decoder.loads
    (JStr ("Here you go: " +:+ "{" +:+ quoted "scenes" +:+ ": []" +:+ "}" +:+ " Enjoy!"))
  = _parse_storyboard_response Decoder.loads
      (JStr ("{" +:+ quoted "scenes" +:+ ": []" +:+ "}")).
Proof.
  apply (parse_storyboard_ignores_prose Decoder.loads "Here you go: "
           (quoted "scenes" +:+ ": []") " Enjoy!"); reflexivity.
Defined.

(** The storyboard of the two-scene reply comes from two objects. *)
Lemma generate_storyboard_sound_witness :
  exists resp text data dicts,
    always two_scenes (storyboard_request brief "content" 2) = Returned resp /\
    resp_status resp = 200%Z /\
    (result ← resp_json resp;
     choices ← getitem result "choices";
     choice ← getitem0 choices;
     message ← getitem choice "message";
     getitem message "content") = Returned (JStr text) /\
    Decoder.loads (slice text (find "{" text) (rfind "}" text + 1)) = Returned (JObj data) /\
    iterate (get data "scenes" (JArr [])) = Returned (map JObj dicts) /\
    fst (generate_storyboard Decoder.loads brief (always two_scenes) "content" 2)
      = map scene_from_dict dicts.
Proof.
  apply (generate_storyboard_sound Decoder.loads brief (always two_scenes) "content" 2).
  vm_compute. discriminate.
Defined.

End VideoExamples.

Section WorkflowMoreExamples.
Import VideoGenerator Main Samples Scenarios.

(** The processor hands on the report of the video manager. *)
Lemma video_stage_keeps_report_witness :
  fst (video_stage journal manager str_scalar settings (note "1") "content" ([], []))
    = Returned (fst (VideoWorkflow.process_video_workflow Decoder.loads brief str_scalar
                       stamp join_path (always two_scenes) first_only "content"
                       (get_or (default_scene_count settings) 3%Z))).
Proof.
  apply (video_stage_keeps_report Decoder.loads brief str_scalar stamp join_path
           journal manager settings (note "1") "content" [] [] (always two_scenes)
           first_only ([] ++ ["video"])).
  reflexivity.
Defined.

(** Three notes, a video manager that fails and a persistence that
    answers [False]: three results all the same. *)
Lemma process_workflow_reports_every_note_witness :
  exists rs st',
    process_workflow journal (found [note "1"; note "2"; note "3"]) reading rewriter
      no_studio full_notion calendar str_scalar settings "productivity" ([], [])
      = (Returned (success_report rs), st') /\
    map result_note_id rs = map note_id [note "1"; note "2"; note "3"].
Proof.
  apply (process_workflow_reports_every_note journal
           (found [note "1"; note "2"; note "3"]) reading rewriter no_studio full_notion
           calendar str_scalar settings)
    with (w1 := [] ++ ["search productivity"]).
  - intros url w. eexists _, _. reflexivity.
  - intros content w. eexists _, _. split; [reflexivity |].
    intros H. vm_compute in H. discriminate H.
  - intros database_id properties w. eexists _, _. reflexivity.
  - discriminate.
  - discriminate.
  - reflexivity.
  - discriminate.
Defined.

(** The required settings alone ask for two notes: both are reported. *)
Lemma configured_run_reports_witness :
  exists rs st',
    process_workflow journal
      (Wiring.search_notes journal noted)
      (Wiring.read_note_content journal noted)
      rewriter no_studio
      (Wiring.add_database_item journal noted client paged str_scalar)
      calendar str_scalar
      (Collaborators.get_config_dict (Config.config_of minimal_env 3 2 2 2 30 3))
      "productivity" ([], [])
      = (Returned (success_report rs), st') /\
    map result_note_id rs
      = firstn (Z.to_nat (Config.total_number (Config.config_of minimal_env 3 2 2 2 30 3)))
          ["mock_note_1"; "mock_note_2"].
Proof.
  apply (configured_run_reports Config.int_ascii Config.upper_ascii minimal_env journal
           noted client paged rewriter no_studio calendar str_scalar
           (Config.config_of minimal_env 3 2 2 2 30 3) "productivity" [] []).
  - vm_compute. reflexivity.
  - intros content w. eexists _, _. split; [reflexivity |].
    intros H. vm_compute in H. discriminate H.
Defined.

End WorkflowMoreExamples.
